(** * ffxiv_cli: the battle-simulation core, embedded and checked against its specification

    Source files covered:
    - [xivcore/task.py]      Task
    - [xivcore/core.py]      RecastDetail, ActionManager, StatusEffect, DoTStatus,
                             StatusManager, Rotation, BattleCharacter, Enemy,
                             SamuraiGauge, Arena
    - [xivcore/xivstats.py]  UniformDistribution, MixtureDistribution, SumDistribution
    - [xivcore/common.py]    ActionID, Sen, GameVersion

    Conventions of the embedding:
    - Python [int] is [Z]; list positions are [nat].
    - Python [float] values are exact rationals [Q].  The code rounds every
      product, quotient and sum to binary64, so a definition on [Q] is the code
      where these operations are exact: every scenario evaluated below only meets
      values that binary64 represents exactly, and what is stated for all inputs
      is stated of the exact values.
    - A Python dict is a [gmap] where only lookups matter and an association list
      where the iteration order is observable.
    - A [while True] loop that may run forever takes a fuel argument and answers
      [Running] when the fuel is gone; loops with an evident bound are total.
    - Closures (task callbacks, cast callbacks) are tokens of a type [Cb]; what a
      token does when called is a parameter [invoke] acting on the whole state it
      can reach. *)

From Stdlib Require Import ZArith QArith Qround List String Lia Bool ZifyNat Sorted Permutation.
From stdpp Require Import base option list gmap strings.

Local Open Scope Z_scope.

Ltac Zify.zify_post_hook ::= Z.to_euclidean_division_equations.

(** ** Python results *)

Inductive PyExc : Type :=
  | ZeroDivisionError
  | ValueError
  | KeyError
  | IndexError
  | TypeError
  | RuntimeError.

Inductive PyResult (A : Type) : Type :=
  | Ret (a : A)
  | Raise (e : PyExc).
Arguments Ret {A} a.
Arguments Raise {A} e.

Definition py_bind {A B} (r : PyResult A) (k : A -> PyResult B) : PyResult B :=
  match r with
  | Ret a => k a
  | Raise e => Raise e
  end.

Notation "'do' x <- r ; k" := (py_bind r (fun x => k))
  (at level 10, x name, r at level 100, k at level 200).

(** [sequence] for [PyResult]: a list comprehension whose body may raise. *)
Fixpoint py_mapM {A B} (f : A -> PyResult B) (l : list A) : PyResult (list B) :=
  match l with
  | [] => Ret []
  | x :: l' => do y <- f x; do ys <- py_mapM f l'; Ret (y :: ys)
  end.

(** The three ways a fuelled loop can end. *)
Inductive Outcome (A : Type) : Type :=
  | Returned (a : A)
  | Raised (e : PyExc)
  | Running (a : A).
Arguments Returned {A} a.
Arguments Raised {A} e.
Arguments Running {A} a.

(** ** [heapq] on Python lists

    [Arena.task_queue] is a plain list handled with [heapq.heappush] and
    [heapq.heappop]; the ordering of tasks is whatever these two functions make of
    [Task.__lt__].  The functions below follow CPython's [heapq.py] line by line. *)

Module Heapq.
Section Heapq.
Context {A : Type} (lt : A -> A -> bool).

  (** [_siftdown(heap, startpos, pos)], the loop; [n] bounds [pos]. *)
Fixpoint siftdown_loop (n : nat) (heap : list A) (startpos pos : nat) (newitem : A)
    : list A :=
    match n with
    | O => <[pos := newitem]> heap
    | S n' =>
        if decide (startpos < pos)%nat then
          let parentpos := ((pos - 1) / 2)%nat in
          match heap !! parentpos with
          | Some parent =>
              if lt newitem parent
              then siftdown_loop n' (<[pos := parent]> heap) startpos parentpos newitem
              else <[pos := newitem]> heap
          | None => heap
          end
        else <[pos := newitem]> heap
    end.

Definition _siftdown (heap : list A) (startpos pos : nat) : list A :=
    match heap !! pos with
    | Some newitem => siftdown_loop pos heap startpos pos newitem
    | None => heap
    end.

  (** The loop of [_siftup(heap, pos)]: the smaller child moves up until a leaf is
      reached; the answer is the list and the position of that leaf. *)
Fixpoint siftup_loop (n : nat) (heap : list A) (endpos pos : nat) : list A * nat :=
    match n with
    | O => (heap, pos)
    | S n' =>
        let childpos := (2 * pos + 1)%nat in
        if decide (childpos < endpos)%nat then
          let rightpos := (childpos + 1)%nat in
          match heap !! childpos with
          | Some lchild =>
              let childpos' :=
                match heap !! rightpos with
                | Some rchild =>
                    if bool_decide (rightpos < endpos)%nat && negb (lt lchild rchild)
                    then rightpos else childpos
                | None => childpos
                end in
              match heap !! childpos' with
              | Some c => siftup_loop n' (<[pos := c]> heap) endpos childpos'
              | None => (heap, pos)
              end
          | None => (heap, pos)
          end
        else (heap, pos)
    end.

Definition _siftup (heap : list A) (pos : nat) : list A :=
    match heap !! pos with
    | Some newitem =>
        let '(heap', leaf) := siftup_loop (length heap) heap (length heap) pos in
        _siftdown (<[leaf := newitem]> heap') pos leaf
    | None => heap
    end.

  (** [heappush(heap, item)] *)
Definition heappush (heap : list A) (item : A) : list A :=
    _siftdown (heap ++ [item]) 0 (length heap).

  (** [heappop(heap)]: the popped item and the list left behind; [None] stands for
      the [IndexError] of popping an empty list. *)
Definition heappop (heap : list A) : option (A * list A) :=
    match reverse heap with
    | [] => None
    | lastelt :: rest_rev =>
        let heap' := reverse rest_rev in
        match heap' with
        | [] => Some (lastelt, [])
        | returnitem :: _ => Some (returnitem, _siftup (<[0%nat := lastelt]> heap') 0)
        end
    end.
End Heapq.
End Heapq.

(** ** [xivcore/common.py]: the enumerations the core reads *)

Module ActionID.
  (** The members of the [IntEnum], in the order of the class body.  Two names of
      the class body repeat an earlier value ([MELEE = 7], [BROTHERHOOD_BUFF = 7396]);
      Python makes them aliases of the first member with that value, so they are
      definitions here, not constructors. *)
Inductive t : Type :=
    | NONE | ATTACK | SPRINT | SHOT | POTION | FOOD | RAMPART | PROVOKE | REPRISAL
    | SHIRK | INTERJECT | LOW_BLOW | ESUNA | RESCUE | REPOSE | SECOND_WIND | BLOOD_BATH
    | TRUE_NORTH | ARMS_LENGTH | FEINT | LEG_SWEEP | SURE_CAST | ADDLE | SWIFT_CAST
    | LUCID_DREAMING | SLEEP | HEAVY_SWING | MAIM | STORMS_PATH | STORMS_EYE
    | INNER_BEAST | FAST_BLADE | RIOT_BLADE | ROYAL_AUTHORITY | GLARE | DIA | ASSIZE
    | HAKAZE | GYOFU | JINPU | SHIFU | YUKIKAZE | GEKKO | KASHA | MANGETSU | OKA | ENPI
    | MIDARE_SETSUGEKKA | TENKA_GOKEN | HIGANBANA | HISSATSU_SHINTEN | HISSATSU_GYOTEN
    | HISSATSU_YATEN | HAGAKURE | MEDITATE | THIRD_EYE | MEIKYO_SHISUI
    | KAESHI_SETSUGEKKA | HISSATSU_SENEI | IKISHOTEN | SHOHA | KAESHI_GOKEN | FUKO
    | OGI_NAMIKIRI | KAESHI_NAMIKIRI | DOOM_OF_THE_LIVING | ZANSHIN | TENDO_GOKEN
    | TENDO_SETSUGEKKA | TENDO_KAESHI_GOKEN | TENDO_KAESHI_SETSUGEKKA | BOOTSHINE
    | TRUE_STRIKE | SNAP_PUNCH | TWIN_SNAKES | MANTRA | DEMOLISH | PERFECT_BALANCE
    | DRAGON_KICK | ELIXIR_FIELD | FORBIDDEN_CHAKRA | FORM_SHIFT | RIDDLE_OF_EARTH
    | RIDDLE_OF_FIRE | BROTHERHOOD_ACTION | RIDDLE_OF_WIND | SIX_SIDED_STAR
    | THUNDERCLAP | MASTERFUL_BLITZ | CELESTIAL_REVOLUTION | RISING_PHOENIX
    | PHANTOM_RUSH | SLICE | WAXING_SLICE | INFERNAL_SLICE | SHADOW_OF_DEATH
    | SOUL_SLICE | GIBBET | GALLOWS | PLENTIFUL_HARVEST | HARPE | SOULSOW | HARVEST_MOON
    | BLOOD_STALK | UNVEILED_GIBBET | UNVEILED_GALLOWS | GLUTTONY | ENSHROUD
    | VOID_REAPING | CROSS_REAPING | COMMUNIO | LEMURES_SLICE | HELLS_INGRESS
    | HELLS_EGRESS | REGRESS | ARCANE_CREST | ARCANE_CIRCLE | STEEL_FANGS
    | REAVING_FANGS | HUNTERS_STING | SWIFTSKINS_STING | FLANKSTING_STRIKE
    | FLANKSBANE_FANG | HINDSTING_STRIKE | HINDSBANE_FANG | VICEWINDER | HUNTERS_COIL
    | SWIFTSKINS_COIL | FIRE_IN_RED | AERO_IN_GREEN | WATER_IN_BLUE | BLIZZARD_IN_CYAN
    | STONE_IN_YELLOW | THUNDER_IN_MAGENTA | FIRE_II_IN_RED | AERO_II_IN_GREEN
    | WATER_II_IN_BLUE | BLIZZARD_II_IN_CYAN | STONE_II_IN_YELLOW
    | THUNDER_II_IN_MAGENTA | HOLY_IN_WHITE | COMET_IN_BLACK | BATTLE_LITANY
    | CHAIN_STRATAGEM | EMBOLDEN | DIVINATION | TECHNICAL_STEP | STANDARD_STEP.

Definition MELEE : t := ATTACK.
Definition BROTHERHOOD_BUFF : t := BROTHERHOOD_ACTION.

  (** [member.value] *)
Definition value (a : t) : Z :=
    match a with
    | NONE => 0 | ATTACK => 7 | SPRINT => 3 | SHOT => 8 | POTION => 846 | FOOD => 847
    | RAMPART => 7531 | PROVOKE => 7533 | REPRISAL => 7535 | SHIRK => 7537
    | INTERJECT => 7538 | LOW_BLOW => 7540 | ESUNA => 7568 | RESCUE => 7571
    | REPOSE => 16560 | SECOND_WIND => 7541 | BLOOD_BATH => 7542 | TRUE_NORTH => 7546
    | ARMS_LENGTH => 7548 | FEINT => 7549 | LEG_SWEEP => 7863 | SURE_CAST => 7559
    | ADDLE => 7560 | SWIFT_CAST => 7561 | LUCID_DREAMING => 7562 | SLEEP => 25880
    | HEAVY_SWING => 31 | MAIM => 37 | STORMS_PATH => 42 | STORMS_EYE => 45
    | INNER_BEAST => 49 | FAST_BLADE => 9 | RIOT_BLADE => 15 | ROYAL_AUTHORITY => 3539
    | GLARE => 16533 | DIA => 16532 | ASSIZE => 3571 | HAKAZE => 7477 | GYOFU => 36963
    | JINPU => 7478 | SHIFU => 7479 | YUKIKAZE => 7480 | GEKKO => 7481 | KASHA => 7482
    | MANGETSU => 7484 | OKA => 7485 | ENPI => 7486 | MIDARE_SETSUGEKKA => 7487
    | TENKA_GOKEN => 7488 | HIGANBANA => 7489 | HISSATSU_SHINTEN => 7490
    | HISSATSU_GYOTEN => 7492 | HISSATSU_YATEN => 7493 | HAGAKURE => 7495
    | MEDITATE => 7497 | THIRD_EYE => 7498 | MEIKYO_SHISUI => 7499
    | KAESHI_SETSUGEKKA => 16486 | HISSATSU_SENEI => 16481 | IKISHOTEN => 16482
    | SHOHA => 16487 | KAESHI_GOKEN => 16485 | FUKO => 25780 | OGI_NAMIKIRI => 25781
    | KAESHI_NAMIKIRI => 25782 | DOOM_OF_THE_LIVING => 7861 | ZANSHIN => 36964
    | TENDO_GOKEN => 36965 | TENDO_SETSUGEKKA => 36966 | TENDO_KAESHI_GOKEN => 36967
    | TENDO_KAESHI_SETSUGEKKA => 36968 | BOOTSHINE => 53 | TRUE_STRIKE => 54
    | SNAP_PUNCH => 56 | TWIN_SNAKES => 61 | MANTRA => 65 | DEMOLISH => 66
    | PERFECT_BALANCE => 69 | DRAGON_KICK => 74 | ELIXIR_FIELD => 3545
    | FORBIDDEN_CHAKRA => 3547 | FORM_SHIFT => 4262 | RIDDLE_OF_EARTH => 7394
    | RIDDLE_OF_FIRE => 7395 | BROTHERHOOD_ACTION => 7396 | RIDDLE_OF_WIND => 25766
    | SIX_SIDED_STAR => 16476 | THUNDERCLAP => 25762 | MASTERFUL_BLITZ => 25764
    | CELESTIAL_REVOLUTION => 25765 | RISING_PHOENIX => 25768 | PHANTOM_RUSH => 25769
    | SLICE => 24373 | WAXING_SLICE => 24374 | INFERNAL_SLICE => 24375
    | SHADOW_OF_DEATH => 24378 | SOUL_SLICE => 24380 | GIBBET => 24382
    | GALLOWS => 24383 | PLENTIFUL_HARVEST => 24385 | HARPE => 24386 | SOULSOW => 24387
    | HARVEST_MOON => 24388 | BLOOD_STALK => 24389 | UNVEILED_GIBBET => 24390
    | UNVEILED_GALLOWS => 24391 | GLUTTONY => 24393 | ENSHROUD => 24394
    | VOID_REAPING => 24395 | CROSS_REAPING => 24396 | COMMUNIO => 24398
    | LEMURES_SLICE => 24399 | HELLS_INGRESS => 24401 | HELLS_EGRESS => 24402
    | REGRESS => 24403 | ARCANE_CREST => 24404 | ARCANE_CIRCLE => 24405
    | STEEL_FANGS => 34606 | REAVING_FANGS => 34607 | HUNTERS_STING => 34608
    | SWIFTSKINS_STING => 34609 | FLANKSTING_STRIKE => 34610 | FLANKSBANE_FANG => 34611
    | HINDSTING_STRIKE => 34612 | HINDSBANE_FANG => 34613 | VICEWINDER => 34620
    | HUNTERS_COIL => 34621 | SWIFTSKINS_COIL => 34622 | FIRE_IN_RED => 34650
    | AERO_IN_GREEN => 34651 | WATER_IN_BLUE => 34652 | BLIZZARD_IN_CYAN => 34653
    | STONE_IN_YELLOW => 34654 | THUNDER_IN_MAGENTA => 34655 | FIRE_II_IN_RED => 34656
    | AERO_II_IN_GREEN => 34657 | WATER_II_IN_BLUE => 34658
    | BLIZZARD_II_IN_CYAN => 34659 | STONE_II_IN_YELLOW => 34660
    | THUNDER_II_IN_MAGENTA => 34661 | HOLY_IN_WHITE => 34662 | COMET_IN_BLACK => 34663
    | BATTLE_LITANY => 116 | CHAIN_STRATAGEM => 7436 | EMBOLDEN => 7520
    | DIVINATION => 16552 | TECHNICAL_STEP => 16004 | STANDARD_STEP => 15997
    end.

  (** [member.name] *)
Definition name (a : t) : string :=
    match a with
    | NONE => "NONE" | ATTACK => "ATTACK" | SPRINT => "SPRINT" | SHOT => "SHOT"
    | POTION => "POTION" | FOOD => "FOOD" | RAMPART => "RAMPART" | PROVOKE => "PROVOKE"
    | REPRISAL => "REPRISAL" | SHIRK => "SHIRK" | INTERJECT => "INTERJECT"
    | LOW_BLOW => "LOW_BLOW" | ESUNA => "ESUNA" | RESCUE => "RESCUE"
    | REPOSE => "REPOSE" | SECOND_WIND => "SECOND_WIND" | BLOOD_BATH => "BLOOD_BATH"
    | TRUE_NORTH => "TRUE_NORTH" | ARMS_LENGTH => "ARMS_LENGTH" | FEINT => "FEINT"
    | LEG_SWEEP => "LEG_SWEEP" | SURE_CAST => "SURE_CAST" | ADDLE => "ADDLE"
    | SWIFT_CAST => "SWIFT_CAST" | LUCID_DREAMING => "LUCID_DREAMING" | SLEEP => "SLEEP"
    | HEAVY_SWING => "HEAVY_SWING" | MAIM => "MAIM" | STORMS_PATH => "STORMS_PATH"
    | STORMS_EYE => "STORMS_EYE" | INNER_BEAST => "INNER_BEAST"
    | FAST_BLADE => "FAST_BLADE" | RIOT_BLADE => "RIOT_BLADE"
    | ROYAL_AUTHORITY => "ROYAL_AUTHORITY" | GLARE => "GLARE" | DIA => "DIA"
    | ASSIZE => "ASSIZE" | HAKAZE => "HAKAZE" | GYOFU => "GYOFU" | JINPU => "JINPU"
    | SHIFU => "SHIFU" | YUKIKAZE => "YUKIKAZE" | GEKKO => "GEKKO" | KASHA => "KASHA"
    | MANGETSU => "MANGETSU" | OKA => "OKA" | ENPI => "ENPI"
    | MIDARE_SETSUGEKKA => "MIDARE_SETSUGEKKA" | TENKA_GOKEN => "TENKA_GOKEN"
    | HIGANBANA => "HIGANBANA" | HISSATSU_SHINTEN => "HISSATSU_SHINTEN"
    | HISSATSU_GYOTEN => "HISSATSU_GYOTEN" | HISSATSU_YATEN => "HISSATSU_YATEN"
    | HAGAKURE => "HAGAKURE" | MEDITATE => "MEDITATE" | THIRD_EYE => "THIRD_EYE"
    | MEIKYO_SHISUI => "MEIKYO_SHISUI" | KAESHI_SETSUGEKKA => "KAESHI_SETSUGEKKA"
    | HISSATSU_SENEI => "HISSATSU_SENEI" | IKISHOTEN => "IKISHOTEN" | SHOHA => "SHOHA"
    | KAESHI_GOKEN => "KAESHI_GOKEN" | FUKO => "FUKO" | OGI_NAMIKIRI => "OGI_NAMIKIRI"
    | KAESHI_NAMIKIRI => "KAESHI_NAMIKIRI" | DOOM_OF_THE_LIVING => "DOOM_OF_THE_LIVING"
    | ZANSHIN => "ZANSHIN" | TENDO_GOKEN => "TENDO_GOKEN"
    | TENDO_SETSUGEKKA => "TENDO_SETSUGEKKA"
    | TENDO_KAESHI_GOKEN => "TENDO_KAESHI_GOKEN"
    | TENDO_KAESHI_SETSUGEKKA => "TENDO_KAESHI_SETSUGEKKA" | BOOTSHINE => "BOOTSHINE"
    | TRUE_STRIKE => "TRUE_STRIKE" | SNAP_PUNCH => "SNAP_PUNCH"
    | TWIN_SNAKES => "TWIN_SNAKES" | MANTRA => "MANTRA" | DEMOLISH => "DEMOLISH"
    | PERFECT_BALANCE => "PERFECT_BALANCE" | DRAGON_KICK => "DRAGON_KICK"
    | ELIXIR_FIELD => "ELIXIR_FIELD" | FORBIDDEN_CHAKRA => "FORBIDDEN_CHAKRA"
    | FORM_SHIFT => "FORM_SHIFT" | RIDDLE_OF_EARTH => "RIDDLE_OF_EARTH"
    | RIDDLE_OF_FIRE => "RIDDLE_OF_FIRE" | BROTHERHOOD_ACTION => "BROTHERHOOD_ACTION"
    | RIDDLE_OF_WIND => "RIDDLE_OF_WIND" | SIX_SIDED_STAR => "SIX_SIDED_STAR"
    | THUNDERCLAP => "THUNDERCLAP" | MASTERFUL_BLITZ => "MASTERFUL_BLITZ"
    | CELESTIAL_REVOLUTION => "CELESTIAL_REVOLUTION"
    | RISING_PHOENIX => "RISING_PHOENIX" | PHANTOM_RUSH => "PHANTOM_RUSH"
    | SLICE => "SLICE" | WAXING_SLICE => "WAXING_SLICE"
    | INFERNAL_SLICE => "INFERNAL_SLICE" | SHADOW_OF_DEATH => "SHADOW_OF_DEATH"
    | SOUL_SLICE => "SOUL_SLICE" | GIBBET => "GIBBET" | GALLOWS => "GALLOWS"
    | PLENTIFUL_HARVEST => "PLENTIFUL_HARVEST" | HARPE => "HARPE" | SOULSOW => "SOULSOW"
    | HARVEST_MOON => "HARVEST_MOON" | BLOOD_STALK => "BLOOD_STALK"
    | UNVEILED_GIBBET => "UNVEILED_GIBBET" | UNVEILED_GALLOWS => "UNVEILED_GALLOWS"
    | GLUTTONY => "GLUTTONY" | ENSHROUD => "ENSHROUD" | VOID_REAPING => "VOID_REAPING"
    | CROSS_REAPING => "CROSS_REAPING" | COMMUNIO => "COMMUNIO"
    | LEMURES_SLICE => "LEMURES_SLICE" | HELLS_INGRESS => "HELLS_INGRESS"
    | HELLS_EGRESS => "HELLS_EGRESS" | REGRESS => "REGRESS"
    | ARCANE_CREST => "ARCANE_CREST" | ARCANE_CIRCLE => "ARCANE_CIRCLE"
    | STEEL_FANGS => "STEEL_FANGS" | REAVING_FANGS => "REAVING_FANGS"
    | HUNTERS_STING => "HUNTERS_STING" | SWIFTSKINS_STING => "SWIFTSKINS_STING"
    | FLANKSTING_STRIKE => "FLANKSTING_STRIKE" | FLANKSBANE_FANG => "FLANKSBANE_FANG"
    | HINDSTING_STRIKE => "HINDSTING_STRIKE" | HINDSBANE_FANG => "HINDSBANE_FANG"
    | VICEWINDER => "VICEWINDER" | HUNTERS_COIL => "HUNTERS_COIL"
    | SWIFTSKINS_COIL => "SWIFTSKINS_COIL" | FIRE_IN_RED => "FIRE_IN_RED"
    | AERO_IN_GREEN => "AERO_IN_GREEN" | WATER_IN_BLUE => "WATER_IN_BLUE"
    | BLIZZARD_IN_CYAN => "BLIZZARD_IN_CYAN" | STONE_IN_YELLOW => "STONE_IN_YELLOW"
    | THUNDER_IN_MAGENTA => "THUNDER_IN_MAGENTA" | FIRE_II_IN_RED => "FIRE_II_IN_RED"
    | AERO_II_IN_GREEN => "AERO_II_IN_GREEN" | WATER_II_IN_BLUE => "WATER_II_IN_BLUE"
    | BLIZZARD_II_IN_CYAN => "BLIZZARD_II_IN_CYAN"
    | STONE_II_IN_YELLOW => "STONE_II_IN_YELLOW"
    | THUNDER_II_IN_MAGENTA => "THUNDER_II_IN_MAGENTA"
    | HOLY_IN_WHITE => "HOLY_IN_WHITE" | COMET_IN_BLACK => "COMET_IN_BLACK"
    | BATTLE_LITANY => "BATTLE_LITANY" | CHAIN_STRATAGEM => "CHAIN_STRATAGEM"
    | EMBOLDEN => "EMBOLDEN" | DIVINATION => "DIVINATION"
    | TECHNICAL_STEP => "TECHNICAL_STEP" | STANDARD_STEP => "STANDARD_STEP"
    end.

  (** [ActionID.__members__]: every name of the class body, aliases included. *)
Definition members : list (string * t) :=
    [("NONE", NONE); ("ATTACK", ATTACK); ("SPRINT", SPRINT); ("MELEE", ATTACK)
     ; ("SHOT", SHOT); ("POTION", POTION); ("FOOD", FOOD); ("RAMPART", RAMPART)
     ; ("PROVOKE", PROVOKE); ("REPRISAL", REPRISAL); ("SHIRK", SHIRK)
     ; ("INTERJECT", INTERJECT); ("LOW_BLOW", LOW_BLOW); ("ESUNA", ESUNA)
     ; ("RESCUE", RESCUE); ("REPOSE", REPOSE); ("SECOND_WIND", SECOND_WIND)
     ; ("BLOOD_BATH", BLOOD_BATH); ("TRUE_NORTH", TRUE_NORTH)
     ; ("ARMS_LENGTH", ARMS_LENGTH); ("FEINT", FEINT); ("LEG_SWEEP", LEG_SWEEP)
     ; ("SURE_CAST", SURE_CAST); ("ADDLE", ADDLE); ("SWIFT_CAST", SWIFT_CAST)
     ; ("LUCID_DREAMING", LUCID_DREAMING); ("SLEEP", SLEEP); ("HEAVY_SWING", HEAVY_SWING)
     ; ("MAIM", MAIM); ("STORMS_PATH", STORMS_PATH); ("STORMS_EYE", STORMS_EYE)
     ; ("INNER_BEAST", INNER_BEAST); ("FAST_BLADE", FAST_BLADE)
     ; ("RIOT_BLADE", RIOT_BLADE); ("ROYAL_AUTHORITY", ROYAL_AUTHORITY); ("GLARE", GLARE)
     ; ("DIA", DIA); ("ASSIZE", ASSIZE); ("HAKAZE", HAKAZE); ("GYOFU", GYOFU)
     ; ("JINPU", JINPU); ("SHIFU", SHIFU); ("YUKIKAZE", YUKIKAZE); ("GEKKO", GEKKO)
     ; ("KASHA", KASHA); ("MANGETSU", MANGETSU); ("OKA", OKA); ("ENPI", ENPI)
     ; ("MIDARE_SETSUGEKKA", MIDARE_SETSUGEKKA); ("TENKA_GOKEN", TENKA_GOKEN)
     ; ("HIGANBANA", HIGANBANA); ("HISSATSU_SHINTEN", HISSATSU_SHINTEN)
     ; ("HISSATSU_GYOTEN", HISSATSU_GYOTEN); ("HISSATSU_YATEN", HISSATSU_YATEN)
     ; ("HAGAKURE", HAGAKURE); ("MEDITATE", MEDITATE); ("THIRD_EYE", THIRD_EYE)
     ; ("MEIKYO_SHISUI", MEIKYO_SHISUI); ("KAESHI_SETSUGEKKA", KAESHI_SETSUGEKKA)
     ; ("HISSATSU_SENEI", HISSATSU_SENEI); ("IKISHOTEN", IKISHOTEN); ("SHOHA", SHOHA)
     ; ("KAESHI_GOKEN", KAESHI_GOKEN); ("FUKO", FUKO); ("OGI_NAMIKIRI", OGI_NAMIKIRI)
     ; ("KAESHI_NAMIKIRI", KAESHI_NAMIKIRI); ("DOOM_OF_THE_LIVING", DOOM_OF_THE_LIVING)
     ; ("ZANSHIN", ZANSHIN); ("TENDO_GOKEN", TENDO_GOKEN)
     ; ("TENDO_SETSUGEKKA", TENDO_SETSUGEKKA); ("TENDO_KAESHI_GOKEN", TENDO_KAESHI_GOKEN)
     ; ("TENDO_KAESHI_SETSUGEKKA", TENDO_KAESHI_SETSUGEKKA); ("BOOTSHINE", BOOTSHINE)
     ; ("TRUE_STRIKE", TRUE_STRIKE); ("SNAP_PUNCH", SNAP_PUNCH)
     ; ("TWIN_SNAKES", TWIN_SNAKES); ("MANTRA", MANTRA); ("DEMOLISH", DEMOLISH)
     ; ("PERFECT_BALANCE", PERFECT_BALANCE); ("DRAGON_KICK", DRAGON_KICK)
     ; ("ELIXIR_FIELD", ELIXIR_FIELD); ("FORBIDDEN_CHAKRA", FORBIDDEN_CHAKRA)
     ; ("FORM_SHIFT", FORM_SHIFT); ("RIDDLE_OF_EARTH", RIDDLE_OF_EARTH)
     ; ("RIDDLE_OF_FIRE", RIDDLE_OF_FIRE); ("BROTHERHOOD_ACTION", BROTHERHOOD_ACTION)
     ; ("RIDDLE_OF_WIND", RIDDLE_OF_WIND); ("SIX_SIDED_STAR", SIX_SIDED_STAR)
     ; ("THUNDERCLAP", THUNDERCLAP); ("MASTERFUL_BLITZ", MASTERFUL_BLITZ)
     ; ("CELESTIAL_REVOLUTION", CELESTIAL_REVOLUTION); ("RISING_PHOENIX", RISING_PHOENIX)
     ; ("PHANTOM_RUSH", PHANTOM_RUSH); ("SLICE", SLICE); ("WAXING_SLICE", WAXING_SLICE)
     ; ("INFERNAL_SLICE", INFERNAL_SLICE); ("SHADOW_OF_DEATH", SHADOW_OF_DEATH)
     ; ("SOUL_SLICE", SOUL_SLICE); ("GIBBET", GIBBET); ("GALLOWS", GALLOWS)
     ; ("PLENTIFUL_HARVEST", PLENTIFUL_HARVEST); ("HARPE", HARPE); ("SOULSOW", SOULSOW)
     ; ("HARVEST_MOON", HARVEST_MOON); ("BLOOD_STALK", BLOOD_STALK)
     ; ("UNVEILED_GIBBET", UNVEILED_GIBBET); ("UNVEILED_GALLOWS", UNVEILED_GALLOWS)
     ; ("GLUTTONY", GLUTTONY); ("ENSHROUD", ENSHROUD); ("VOID_REAPING", VOID_REAPING)
     ; ("CROSS_REAPING", CROSS_REAPING); ("COMMUNIO", COMMUNIO)
     ; ("LEMURES_SLICE", LEMURES_SLICE); ("HELLS_INGRESS", HELLS_INGRESS)
     ; ("HELLS_EGRESS", HELLS_EGRESS); ("REGRESS", REGRESS)
     ; ("ARCANE_CREST", ARCANE_CREST); ("ARCANE_CIRCLE", ARCANE_CIRCLE)
     ; ("STEEL_FANGS", STEEL_FANGS); ("REAVING_FANGS", REAVING_FANGS)
     ; ("HUNTERS_STING", HUNTERS_STING); ("SWIFTSKINS_STING", SWIFTSKINS_STING)
     ; ("FLANKSTING_STRIKE", FLANKSTING_STRIKE); ("FLANKSBANE_FANG", FLANKSBANE_FANG)
     ; ("HINDSTING_STRIKE", HINDSTING_STRIKE); ("HINDSBANE_FANG", HINDSBANE_FANG)
     ; ("VICEWINDER", VICEWINDER); ("HUNTERS_COIL", HUNTERS_COIL)
     ; ("SWIFTSKINS_COIL", SWIFTSKINS_COIL); ("FIRE_IN_RED", FIRE_IN_RED)
     ; ("AERO_IN_GREEN", AERO_IN_GREEN); ("WATER_IN_BLUE", WATER_IN_BLUE)
     ; ("BLIZZARD_IN_CYAN", BLIZZARD_IN_CYAN); ("STONE_IN_YELLOW", STONE_IN_YELLOW)
     ; ("THUNDER_IN_MAGENTA", THUNDER_IN_MAGENTA); ("FIRE_II_IN_RED", FIRE_II_IN_RED)
     ; ("AERO_II_IN_GREEN", AERO_II_IN_GREEN); ("WATER_II_IN_BLUE", WATER_II_IN_BLUE)
     ; ("BLIZZARD_II_IN_CYAN", BLIZZARD_II_IN_CYAN)
     ; ("STONE_II_IN_YELLOW", STONE_II_IN_YELLOW)
     ; ("THUNDER_II_IN_MAGENTA", THUNDER_II_IN_MAGENTA); ("HOLY_IN_WHITE", HOLY_IN_WHITE)
     ; ("COMET_IN_BLACK", COMET_IN_BLACK); ("BATTLE_LITANY", BATTLE_LITANY)
     ; ("CHAIN_STRATAGEM", CHAIN_STRATAGEM); ("BROTHERHOOD_BUFF", BROTHERHOOD_ACTION)
     ; ("EMBOLDEN", EMBOLDEN); ("DIVINATION", DIVINATION)
     ; ("TECHNICAL_STEP", TECHNICAL_STEP); ("STANDARD_STEP", STANDARD_STEP)].

  (** [getattr(ActionID, name, None)] for the names of the members and of their
      aliases, and for names the class does not have.  Python answers the other
      attributes of the class (dunder names, methods and properties of [int] such
      as [real]) with the attribute; these are answered [None] here and are
      outside what is stated on [getattr]: [to_dict] writes member names only. *)
Fixpoint lookup_member (name : string) (l : list (string * t)) : option t :=
    match l with
    | [] => None
    | (n, a) :: l' => if String.eqb name n then Some a else lookup_member name l'
    end.

Definition getattr (name : string) : option t := lookup_member name members.

  (** [a == b] on an [IntEnum] is the comparison of the integer values. *)
Definition eqb (a b : t) : bool := value a =? value b.
End ActionID.

Module DamageType.
Inductive t : Type := WEAPON_SKILL | SPELL | DOT | AUTO_ATTACK.
Definition value (d : t) : Z :=
    match d with WEAPON_SKILL => 0 | SPELL => 1 | DOT => 2 | AUTO_ATTACK => 3 end.
End DamageType.

Module SpeedFlags.
  (** A [Flag] enumeration: a bit set. *)
Definition t : Type := Z.
Definition NONE : t := 0.
Definition CAST : t := 1.
Definition RECAST : t := 2.
Definition AUTO_ATTACK : t := 4.
Definition ALL : t := Z.lor (Z.lor CAST RECAST) AUTO_ATTACK.
  (** [bool(a & b)] *)
Definition intersects (a b : t) : bool := negb (Z.land a b =? 0).
End SpeedFlags.

Module ComboFlag.
Inductive t : Type := NONE | SUCCESS | RESET.
End ComboFlag.

Definition ANIMATION_LOCK : Z := 700.
Definition RECAST_GROUP_GCD : Z := 57.

(** ** [xivcore/xivstats.py] *)

Local Open Scope Q_scope.

(** [sum(iterable)]: a left fold from the integer 0. *)
Definition py_sum (l : list Q) : Q := fold_left Qplus l 0.

(** [a / b] on numbers: raises on a zero divisor. *)
Definition py_truediv (a b : Q) : PyResult Q :=
  if Qeq_bool b 0 then Raise ZeroDivisionError else Ret (a / b).

Definition Qabs' (a : Q) : Q := if Qle_bool 0 a then a else - a.

(** [np.isclose(a, b, rtol=rtol)] with numpy's default [atol = 1e-8]:
    [|a - b| <= atol + rtol * |b|]. *)
Definition np_isclose (a b rtol : Q) : bool :=
  Qle_bool (Qabs' (a - b)) ((1 # 100000000) + rtol * Qabs' b).

(** [min(iterable)] and [max(iterable)] on a non-empty iterable; the first of
    several equal candidates is kept, as in Python. *)
Definition py_min (x : Q) (l : list Q) : Q :=
  fold_left (fun m y => if Qlt_le_dec y m then y else m) l x.
Definition py_max (x : Q) (l : list Q) : Q :=
  fold_left (fun m y => if Qlt_le_dec m y then y else m) l x.

(** The abstract base class [BoundedDistribution]: its four abstract properties. *)
Class BoundedDistribution (D : Type) : Type := {
  dist_min : D -> Q;
  dist_max : D -> Q;
  dist_mean : D -> Q;
  dist_var : D -> Q
}.

Module UniformDistribution.
Record t : Type := mk { _min : Q; _max : Q; _mean : Q; _var : Q }.

  (** [__init__(min_value, max_value)] *)
Definition init (min_value max_value : Q) : t :=
    {| _min := min_value;
       _max := max_value;
       _mean := (min_value + max_value) / 2;
       _var := ((max_value - min_value) ^ 2) / 12 |}.
End UniformDistribution.

#[export] Instance UniformDistribution_bounded : BoundedDistribution UniformDistribution.t := {
  dist_min := UniformDistribution._min;
  dist_max := UniformDistribution._max;
  dist_mean := UniformDistribution._mean;
  dist_var := UniformDistribution._var
}.

Module MixtureDistribution.
Record t : Type := mk {
    _components : list UniformDistribution.t;
    _weights : list Q;
    _nonzero_components : list UniformDistribution.t;
    _nonzero_weights : list Q;
    _min_value : Q;
    _max_value : Q;
    _mean_value : Q;
    _var_value : Q
  }.

  (** The renormalisation at the head of [__init__]:
      [[w / total for w in weights]] when the sum is not close to 1. *)
Definition normalize (weights : list Q) : PyResult (list Q) :=
    if negb (np_isclose (py_sum weights) 1 (1 # 100000)) then
      let total := py_sum weights in
      py_mapM (fun w => py_truediv w total) weights
    else Ret weights.

  (** [[i for i, w in enumerate(weights) if w > 0]], applied to both lists. *)
Fixpoint nonzero {X : Type} (xs : list X) (weights : list Q) : list X :=
    match xs, weights with
    | x :: xs', w :: ws' =>
        if Qlt_le_dec 0 w then x :: nonzero xs' ws' else nonzero xs' ws'
    | _, _ => []
    end.

  (** [_calculate_stats]: the four moments from the non-zero part, with exact
      sums (the code's sums are rounded to binary64 term by term). *)
Definition _calculate_stats (nzc : list UniformDistribution.t) (nzw : list Q)
    : Q * Q * Q * Q :=
    match nzc with
    | [] => (0, 0, 0, 0)
    | c :: cs =>
        let min_value := py_min (dist_min c) (map dist_min cs) in
        let max_value := py_max (dist_max c) (map dist_max cs) in
        let mean_value :=
          py_sum (map (fun wc => fst wc * dist_mean (snd wc)) (combine nzw nzc)) in
        let var_term1 :=
          py_sum (map (fun wc => fst wc * dist_var (snd wc)) (combine nzw nzc)) in
        let var_term2 :=
          py_sum (map (fun wc => fst wc * (dist_mean (snd wc) - mean_value) ^ 2)
                      (combine nzw nzc)) in
        (min_value, max_value, mean_value, var_term1 + var_term2)
    end.

  (** [__init__(components, weights)] *)
Definition init (components : list UniformDistribution.t) (weights : list Q)
    : PyResult t :=
    if negb (length components =? length weights)%nat then Raise ValueError
    else
      do weights' <- normalize weights;
      let nzc := nonzero components weights' in
      let nzw := nonzero weights' weights' in
      let '(mn, mx, mean, var) := _calculate_stats nzc nzw in
      Ret {| _components := components;
             _weights := weights';
             _nonzero_components := nzc;
             _nonzero_weights := nzw;
             _min_value := mn;
             _max_value := mx;
             _mean_value := mean;
             _var_value := var |}.
End MixtureDistribution.

#[export] Instance MixtureDistribution_bounded : BoundedDistribution MixtureDistribution.t := {
  dist_min := MixtureDistribution._min_value;
  dist_max := MixtureDistribution._max_value;
  dist_mean := MixtureDistribution._mean_value;
  dist_var := MixtureDistribution._var_value
}.

Module SumDistribution.
Section SumDistribution.
  (** [D]: the class of the summands; [Grid]: the numpy arrays of the convolution. *)
Context {D : Type} `{BoundedDistribution D} {Grid : Type}.

Record t : Type := mk {
    _distributions : list D;
    _min_value : Q;
    _max_value : Q;
    _mean_value : Q;
    _var_value : Q;
    _pmf_computed : bool;
    _x_values : option Grid;
    _pmf : option Grid;
    _domain_step : Z
  }.

  (** [__init__(distributions)] *)
Definition init (distributions : list D) : t :=
    {| _distributions := distributions;
       _min_value := py_sum (map dist_min distributions);
       _max_value := py_sum (map dist_max distributions);
       _mean_value := py_sum (map dist_mean distributions);
       _var_value := py_sum (map dist_var distributions);
       _pmf_computed := false;
       _x_values := None;
       _pmf := None;
       _domain_step := 1 |}.

  (** [_compute_pmf()].  The grid and the probabilities come out of random sampling
      and an FFT convolution; they are an input here.  What matters is which
      attributes the method assigns. *)
Definition _compute_pmf (x_values pmf : Grid) (self : t) : t :=
    if _pmf_computed self then self
    else
      {| _distributions := _distributions self;
         _min_value := _min_value self;
         _max_value := _max_value self;
         _mean_value := _mean_value self;
         _var_value := _var_value self;
         _pmf_computed := true;
         _x_values := Some x_values;
         _pmf := Some pmf;
         _domain_step := _domain_step self |}.
End SumDistribution.
Arguments t D Grid : clear implicits.
End SumDistribution.

#[export] Instance SumDistribution_bounded {D Grid} `{BoundedDistribution D}
  : BoundedDistribution (SumDistribution.t D Grid) := {
  dist_min := SumDistribution._min_value;
  dist_max := SumDistribution._max_value;
  dist_mean := SumDistribution._mean_value;
  dist_var := SumDistribution._var_value
}.

Module DamageResult.
Record t : Type := mk {
    action_id : ActionID.t;
    potency : Q;
    normal_hit : UniformDistribution.t;
    critical_hit : UniformDistribution.t;
    direct_hit : UniformDistribution.t;
    critical_direct_hit : UniformDistribution.t;
    distrib : MixtureDistribution.t
  }.

  (** [__init__]: every hit is a triple (probability, min, max). *)
Definition init (action_id : ActionID.t) (potency : Q)
      (normal critical direct critical_direct : Q * Q * Q) : PyResult t :=
    let u (h : Q * Q * Q) := UniformDistribution.init (snd (fst h)) (snd h) in
    let p (h : Q * Q * Q) := fst (fst h) in
    do m <- MixtureDistribution.init
              [u normal; u critical; u direct; u critical_direct]
              [p normal; p critical; p direct; p critical_direct];
    Ret {| action_id := action_id;
           potency := potency;
           normal_hit := u normal;
           critical_hit := u critical;
           direct_hit := u direct;
           critical_direct_hit := u critical_direct;
           distrib := m |}.
End DamageResult.

Local Close Scope Q_scope.

(** ** [xivcore/task.py] *)

Module Task.
Section Task.
Context {Cb : Type}.

  (** [Task]: the callback together with its bound arguments is one token. *)
Record t : Type := mk { time : Z; callback : Cb }.

  (** [__lt__] *)
Definition lt (self other : t) : bool := time self <? time other.
End Task.
Arguments t Cb : clear implicits.
End Task.

(** ** [xivcore/core.py] *)

Definition update_step_size (step_size new_step : option Z) : option Z :=
  match new_step with
  | Some n =>
      match step_size with
      | None => Some n
      | Some s => if n <? s then Some n else Some s
      end
  | None => step_size
  end.

(** [int(math.floor(x / 10) * 10)], on the exact product [x].  The code has
    [x = recast_time * speed_modifier] and [x / 10] rounded to binary64 before
    [math.floor]: the same number when the product is a whole number below
    [2 ^ 53], as with a speed multiplier of 1, and possibly the ten below or
    above otherwise (1500 * 0.58 is 869.99... in binary64). *)
Definition floor_to_10 (x : Q) : Z := Qfloor (x / 10) * 10.

Module RecastDetail.
Record t : Type := mk { action_id : ActionID.t; time_elapsed : Z; total : Z }.

  (** [__init__] *)
Definition init : t := mk ActionID.NONE 0 0.

Definition remaining (self : t) : Z := total self - time_elapsed self.

Definition is_active (self : t) : bool :=
    (0 <? total self) && ((0 <=? time_elapsed self) && (time_elapsed self <? total self)).

  (** [is_charge_exhausted(max_charges)]:
      [self.total / max_charges >= self.time_elapsed] when [max_charges > 1]. *)
Definition is_charge_exhausted (max_charges : Z) (self : t) : bool :=
    if 1 <? max_charges
    then Qle_bool (inject_Z (time_elapsed self))
                  (inject_Z (total self) / inject_Z max_charges)
    else is_active self.

Definition step (delta_time : Z) (self : t) : t :=
    let elapsed := time_elapsed self + delta_time in
    if total self <=? elapsed
    then mk (action_id self) 0 0
    else mk (action_id self) elapsed (total self).
End RecastDetail.

Module PvEAction.
  (** The data of an action.  [can_use], [execute] and [_apply_effect] belong to
      the job modules that subclass it. *)
Record t : Type := mk {
    action_id : ActionID.t;
    name : string;
    cast_time : Z;
    recast_time : Z;
    cooldown_group : Z;
    additional_recast_time : Z;
    additional_cooldown_group : Z;
    max_charges : Z;
    animation_lock : Z
  }.
End PvEAction.

Module ActionManager.
Section ActionManager.
Context {Cb : Type}.

  (** The dicts are keyed by [IntEnum] members and ints: by integers. *)
Record t : Type := mk {
    actions : gmap Z PvEAction.t;
    cooldowns : gmap Z RecastDetail.t;
    animation_lock : Z;
    casting_action_id : ActionID.t;
    casting_time : Z;
    casting_time_max : Z;
    casting_apply_callback : option Cb;
    last_combo_action_id : ActionID.t;
    last_combo_time : Z;
    last_action_id : ActionID.t;
    time_since_last_action : Z
  }.

  (** [__init__] *)
Definition init : t :=
    {| actions := ∅; cooldowns := ∅; animation_lock := 0;
       casting_action_id := ActionID.NONE; casting_time := 0; casting_time_max := 0;
       casting_apply_callback := None;
       last_combo_action_id := ActionID.NONE; last_combo_time := 0;
       last_action_id := ActionID.NONE; time_since_last_action := 0 |}.

  (** Attribute assignments. *)
Definition set_actions (v : gmap Z PvEAction.t) (s : t) : t :=
    mk v (cooldowns s) (animation_lock s) (casting_action_id s) (casting_time s)
       (casting_time_max s) (casting_apply_callback s) (last_combo_action_id s)
       (last_combo_time s) (last_action_id s) (time_since_last_action s).
Definition set_cooldowns (v : gmap Z RecastDetail.t) (s : t) : t :=
    mk (actions s) v (animation_lock s) (casting_action_id s) (casting_time s)
       (casting_time_max s) (casting_apply_callback s) (last_combo_action_id s)
       (last_combo_time s) (last_action_id s) (time_since_last_action s).
Definition set_animation_lock (v : Z) (s : t) : t :=
    mk (actions s) (cooldowns s) v (casting_action_id s) (casting_time s)
       (casting_time_max s) (casting_apply_callback s) (last_combo_action_id s)
       (last_combo_time s) (last_action_id s) (time_since_last_action s).
Definition set_casting (id : ActionID.t) (ct ctmax : Z) (s : t) : t :=
    mk (actions s) (cooldowns s) (animation_lock s) id ct ctmax
       (casting_apply_callback s) (last_combo_action_id s)
       (last_combo_time s) (last_action_id s) (time_since_last_action s).
Definition set_casting_time (v : Z) (s : t) : t :=
    set_casting (casting_action_id s) v (casting_time_max s) s.
Definition set_casting_apply_callback (v : option Cb) (s : t) : t :=
    mk (actions s) (cooldowns s) (animation_lock s) (casting_action_id s)
       (casting_time s) (casting_time_max s) v (last_combo_action_id s)
       (last_combo_time s) (last_action_id s) (time_since_last_action s).
Definition set_combo (id : ActionID.t) (v : Z) (s : t) : t :=
    mk (actions s) (cooldowns s) (animation_lock s) (casting_action_id s)
       (casting_time s) (casting_time_max s) (casting_apply_callback s) id v
       (last_action_id s) (time_since_last_action s).
Definition set_last_action (id : ActionID.t) (v : Z) (s : t) : t :=
    mk (actions s) (cooldowns s) (animation_lock s) (casting_action_id s)
       (casting_time s) (casting_time_max s) (casting_apply_callback s)
       (last_combo_action_id s) (last_combo_time s) id v.

  (** [is_casting] *)
Definition is_casting (self : t) : bool :=
    negb (ActionID.eqb (casting_action_id self) ActionID.NONE)
    && ((0 <? casting_time_max self)
        && ((0 <=? casting_time self) && (casting_time self <? casting_time_max self))).

Definition get_casting_time_remaining (self : t) : Z :=
    if is_casting self then casting_time_max self - casting_time self else 0.

Definition is_locked (tolerance : Z) (self : t) : bool :=
    (tolerance <? animation_lock self) || (tolerance <? get_casting_time_remaining self).

Definition start_casting (action_id : ActionID.t) (cast_time : Z) (on_apply : option Cb)
      (self : t) : t :=
    set_casting_apply_callback on_apply (set_casting action_id 0 cast_time self).

Definition cancel_casting (self : t) : t :=
    set_casting_apply_callback None (set_casting ActionID.NONE 0 0 self).

Definition start_combo (action_id : ActionID.t) (combo_time : Z) (self : t) : t :=
    set_combo action_id combo_time self.

Definition reset_combo (self : t) : t := set_combo ActionID.NONE 0 self.

Definition set_last_cast (action_id : ActionID.t) (combo_flag : ComboFlag.t) (self : t) : t :=
    let self := set_last_action action_id 0 self in
    match combo_flag with
    | ComboFlag.RESET => reset_combo self
    | ComboFlag.SUCCESS => start_combo action_id 30000 self
    | ComboFlag.NONE => self
    end.

Definition check_combo_chain (precombo_action_id : ActionID.t) (self : t) : bool :=
    ActionID.eqb (last_combo_action_id self) precombo_action_id
    && (0 <? last_combo_time self).

  (** [register_action(action)] *)
Definition register_action (action : PvEAction.t) (self : t) : t :=
    let self :=
      set_actions (<[ActionID.value (PvEAction.action_id action) := action]> (actions self))
                  self in
    let fresh := RecastDetail.mk (PvEAction.action_id action) 0 0 in
    let g := PvEAction.cooldown_group action in
    let self :=
      if (0 <? g) && bool_decide (cooldowns self !! g = None)
      then set_cooldowns (<[g := fresh]> (cooldowns self)) self else self in
    let g2 := PvEAction.additional_cooldown_group action in
    if (0 <? g2) && bool_decide (cooldowns self !! g2 = None)
    then set_cooldowns (<[g2 := fresh]> (cooldowns self)) self else self.

Definition get_action (action_id : ActionID.t) (self : t) : option PvEAction.t :=
    actions self !! ActionID.value action_id.

Definition get_recast_group (action_id : ActionID.t) (self : t) : Z :=
    match get_action action_id self with
    | Some action => PvEAction.cooldown_group action
    | None => 0
    end.

Definition get_additional_recast_group (action_id : ActionID.t) (self : t) : Z :=
    match get_action action_id self with
    | Some action => PvEAction.additional_cooldown_group action
    | None => 0
    end.

Definition get_recast_detail (action_id : ActionID.t) (self : t) : option RecastDetail.t :=
    cooldowns self !! get_recast_group action_id self.

  (** [if add_recast_group and add_recast_group in self.cooldowns] *)
Definition get_additional_recast_detail (action_id : ActionID.t) (self : t)
    : option RecastDetail.t :=
    let add_recast_group := get_additional_recast_group action_id self in
    if add_recast_group =? 0 then None else cooldowns self !! add_recast_group.

Definition get_max_charges (action_id : ActionID.t) (self : t) : Z :=
    match get_action action_id self with
    | Some action => PvEAction.max_charges action
    | None => 1
    end.

  (** The owner's [status_manager.get_speed_multiplier] is the argument [speed]. *)
Definition get_adjusted_recast_time (speed : SpeedFlags.t -> Q) (action_id : ActionID.t)
      (self : t) : Z :=
    match get_action action_id self with
    | None => 0
    | Some action =>
        if PvEAction.cooldown_group action =? RECAST_GROUP_GCD
        then floor_to_10 (inject_Z (PvEAction.recast_time action) * speed SpeedFlags.RECAST)
        else PvEAction.recast_time action
    end.

Definition get_adjusted_cast_time (speed : SpeedFlags.t -> Q) (action_id : ActionID.t)
      (self : t) : Z :=
    match get_action action_id self with
    | None => 0
    | Some action =>
        if PvEAction.cooldown_group action =? RECAST_GROUP_GCD
        then floor_to_10 (inject_Z (PvEAction.cast_time action) * speed SpeedFlags.CAST)
        else PvEAction.cast_time action
    end.

  (** The source reads [action.recast_time] here too (marked FIXME there). *)
Definition get_adjusted_additional_recast_time (speed : SpeedFlags.t -> Q)
      (action_id : ActionID.t) (self : t) : Z :=
    match get_action action_id self with
    | None => 0
    | Some action =>
        if PvEAction.additional_cooldown_group action =? RECAST_GROUP_GCD
        then floor_to_10 (inject_Z (PvEAction.recast_time action) * speed SpeedFlags.RECAST)
        else PvEAction.recast_time action
    end.

  (** [is_action_offcooldown(action_id, tolerance)] *)
Definition is_action_offcooldown (action_id : ActionID.t) (tolerance : option Z)
      (self : t) : PyResult bool :=
    match get_recast_detail action_id self with
    | None => Ret false
    | Some recast_detail =>
        let time_tolerance :=
          match tolerance with
          | Some tol => if 0 <=? tol then tol else 0
          | None => 0
          end in
        let blocked_by_additional :=
          match get_additional_recast_detail action_id self with
          | Some add_recast_detail =>
              RecastDetail.is_active add_recast_detail
              && (time_tolerance <? RecastDetail.remaining add_recast_detail)
          | None => false
          end in
        if blocked_by_additional then Ret false
        else if RecastDetail.is_active recast_detail then
          let max_charges := get_max_charges action_id self in
          do first_charge <-
            py_truediv (inject_Z (RecastDetail.total recast_detail)) (inject_Z max_charges);
          if negb (Qle_bool first_charge
                     (inject_Z (RecastDetail.time_elapsed recast_detail + time_tolerance)))
          then Ret false else Ret true
        else Ret true
    end.

Definition get_gcd_remaining (self : t) : Z :=
    match cooldowns self !! RECAST_GROUP_GCD with
    | Some rd => RecastDetail.remaining rd
    | None => 0
    end.

  (** [is_charge_exhausted(action_id)] *)
Definition is_charge_exhausted (action_id : ActionID.t) (self : t) : bool :=
    match get_recast_detail action_id self with
    | None => false
    | Some recast_detail =>
        match get_additional_recast_detail action_id self with
        | Some add_recast_detail =>
            if RecastDetail.is_active add_recast_detail then true
            else if RecastDetail.is_active recast_detail then false
            else RecastDetail.is_charge_exhausted (get_max_charges action_id self) recast_detail
        | None =>
            if RecastDetail.is_active recast_detail then false
            else RecastDetail.is_charge_exhausted (get_max_charges action_id self) recast_detail
        end
    end.

  (** [start_cooldown(action_id)] *)
Definition start_cooldown (speed : SpeedFlags.t -> Q) (action_id : ActionID.t) (self : t)
    : t :=
    match get_recast_detail action_id self with
    | None => self
    | Some recast_detail =>
        let addjusted_recast_time := get_adjusted_recast_time speed action_id self in
        let max_charges := get_max_charges action_id self in
        let '(elapsed, total) :=
          if max_charges <=? 1 then (0, addjusted_recast_time)
          else
            let adjusted_total := max_charges * addjusted_recast_time in
            if negb (RecastDetail.is_active recast_detail)
               || (adjusted_total <? RecastDetail.total recast_detail)
            then (adjusted_total - addjusted_recast_time, adjusted_total)
            else
              let e := RecastDetail.time_elapsed recast_detail - addjusted_recast_time in
              (if e <? 0 then 0 else e, RecastDetail.total recast_detail) in
        let recast_detail := RecastDetail.mk (RecastDetail.action_id recast_detail) elapsed total in
        let self :=
          set_cooldowns (<[get_recast_group action_id self := recast_detail]> (cooldowns self))
                        self in
        let self :=
          match get_additional_recast_detail action_id self with
          | Some add_recast_detail =>
              let add_total := get_adjusted_additional_recast_time speed action_id self in
              set_cooldowns
                (<[get_additional_recast_group action_id self :=
                     RecastDetail.mk (RecastDetail.action_id add_recast_detail) 0 add_total]>
                   (cooldowns self))
                self
          | None => self
          end in
        (* recast_detail.action_id = action_id *)
        match cooldowns self !! get_recast_group action_id self with
        | Some rd =>
            set_cooldowns
              (<[get_recast_group action_id self :=
                   RecastDetail.mk action_id (RecastDetail.time_elapsed rd) (RecastDetail.total rd)]>
                 (cooldowns self))
              self
        | None => self
        end
    end.

  (** [_update_combo_state(step_size)] *)
Definition _update_combo_state (step_size : Z) (self : t) : t :=
    if negb (ActionID.eqb (last_combo_action_id self) ActionID.NONE) then
      let remaining := Z.max 0 (last_combo_time self - step_size) in
      if remaining <=? 0 then set_combo ActionID.NONE 0 self
      else set_combo (last_combo_action_id self) remaining self
    else set_combo (last_combo_action_id self) 0 self.

  (** [calc_step_size()] *)
Definition calc_step_size (self : t) : option Z :=
    let step_size : option Z :=
      if 0 <? animation_lock self then Some (animation_lock self) else None in
    let step_size :=
      if is_casting self then
        let remaining_cast_time := casting_time_max self - casting_time self in
        match casting_apply_callback self with
        | Some _ =>
            let time_for_apply := Z.max 0 (remaining_cast_time - 400) in
            match step_size with
            | None => Some time_for_apply
            | Some s => if time_for_apply <? s then Some time_for_apply else Some s
            end
        | None => Some remaining_cast_time
        end
      else step_size in
    let step_size :=
      if negb (ActionID.eqb (last_combo_action_id self) ActionID.NONE) then
        let combo_expirery_time := last_combo_time self - casting_time self in
        match step_size with
        | None => Some combo_expirery_time
        | Some s => if combo_expirery_time <? s then Some combo_expirery_time else Some s
        end
      else step_size in
    map_fold
      (fun (_ : Z) (recast_detail : RecastDetail.t) (step_size : option Z) =>
         if RecastDetail.is_active recast_detail then
           match step_size with
           | None => Some (RecastDetail.remaining recast_detail)
           | Some s =>
               if RecastDetail.remaining recast_detail <? s
               then Some (RecastDetail.remaining recast_detail) else Some s
           end
         else step_size)
      step_size (cooldowns self).

  (** *** The stepping methods

      [step] calls the cast callback, a closure that may change anything it can
      reach, this manager included.  The methods that call it therefore act on a
      state [W] in which the manager sits ([get], [set]); they also answer the list
      of callbacks they called. *)
Section Stepping.
Context {W : Type} (get : W -> t) (set : t -> W -> W) (invoke : Cb -> W -> W).

Definition modify (f : t -> t) (w : W) : W := set (f (get w)) w.

    (** [_update_action_cast(step_size)] *)
Definition _update_action_cast (step_size : Z) (w : W) : W * list Cb :=
      if is_casting (get w) then
        let w :=
          modify (fun self =>
                    set_casting_time
                      (Z.min (casting_time self + step_size) (casting_time_max self)) self) w in
        let remaining_cast_time := casting_time_max (get w) - casting_time (get w) in
        let '(w, called) :=
          match casting_apply_callback (get w) with
          | Some cb =>
              if remaining_cast_time <=? 400
              then (modify (set_casting_apply_callback None) (invoke cb w), [cb])
              else (w, [])
          | None => (w, [])
          end in
        let w :=
          if remaining_cast_time <=? 0
          then modify (set_casting ActionID.NONE 0 0) w else w in
        (w, called)
      else (modify cancel_casting w, []).

    (** [step(step_size)] *)
Definition step (step_size : Z) (w : W) : W * list Cb :=
      let w :=
        modify (fun self =>
                  set_last_action (last_action_id self)
                    (time_since_last_action self + step_size) self) w in
      let w :=
        modify (fun self =>
                  set_animation_lock (Z.max 0 (animation_lock self - step_size)) self) w in
      let '(w, called) := _update_action_cast step_size w in
      let w := modify (_update_combo_state step_size) w in
      let w :=
        modify (fun self =>
                  set_cooldowns (RecastDetail.step step_size <$> cooldowns self) self) w in
      (w, called).

    (** Successive [step] calls; the answer lists what each call invoked. *)
Fixpoint steps (sizes : list Z) (w : W) : W * list (list Cb) :=
      match sizes with
      | [] => (w, [])
      | d :: sizes' =>
          let '(w, called) := step d w in
          let '(w, log) := steps sizes' w in
          (w, called :: log)
      end.
End Stepping.
End ActionManager.
Arguments t Cb : clear implicits.
End ActionManager.

(** A reference to a Python object (a character): its address in the object
    store. *)
Definition Ref : Type := nat.

Module DamageRecord.
Record t : Type := mk { time : Z; damage : DamageResult.t }.
End DamageRecord.

Module StatusEffect.
  (** The classes of [core.py]: [StatusEffect] itself (and [StackableStatus], which
      adds no attribute), [DoTStatus] and [BuffStatus] with theirs. *)
Inductive cls : Type :=
    | Plain
    | DoTStatus (potency : Q) (snapshot_damage : option DamageResult.t)
    | BuffStatus (_main_stat_bonus : Q) (_main_stat_bonus_max : Z)
                 (_damage_multiplier _speed_multiplier : Q) (_speed_scope : SpeedFlags.t)
                 (_critical_hit_bonus _direct_hit_bonus : Q).

Record t : Type := mk {
    status_id : Z;
    action_id : ActionID.t;
    target : option Ref;
    source : option Ref;
    initial_duration : Z;
    duration : Z;
    time_elapsed : Z;
    is_buff : bool;
    has_stacks : bool;
    stacks : Z;
    max_stacks : Z;
    class : cls
  }.

  (** [StatusEffect.__init__] *)
Definition init (status_id : Z) (action_id : ActionID.t) (target source : option Ref)
      (duration : Z) (has_stacks : bool) (stacks max_stacks : Z) (is_buff : bool) : t :=
    {| status_id := status_id; action_id := action_id; target := target; source := source;
       initial_duration := duration; duration := duration; time_elapsed := 0;
       is_buff := is_buff; has_stacks := has_stacks; stacks := stacks;
       max_stacks := max_stacks; class := Plain |}.

Definition set_class (c : cls) (self : t) : t :=
    mk (status_id self) (action_id self) (target self) (source self)
       (initial_duration self) (duration self) (time_elapsed self) (is_buff self)
       (has_stacks self) (stacks self) (max_stacks self) c.

Definition set_duration (d : Z) (self : t) : t :=
    mk (status_id self) (action_id self) (target self) (source self)
       (initial_duration self) d (time_elapsed self) (is_buff self)
       (has_stacks self) (stacks self) (max_stacks self) (class self).

  (** [step(delta_time)] *)
Definition step (delta_time : Z) (self : t) : t :=
    mk (status_id self) (action_id self) (target self) (source self)
       (initial_duration self) (Z.max 0 (duration self - delta_time))
       (time_elapsed self + delta_time) (is_buff self)
       (has_stacks self) (stacks self) (max_stacks self) (class self).

  (** [StatusEffect.refresh(other)] *)
Definition refresh_base (other : t) (self : t) : t :=
    mk (status_id self) (action_id self) (target self) (source other)
       (initial_duration other) (duration other) (time_elapsed self) (is_buff self)
       (has_stacks self)
       (if has_stacks self then Z.min (max_stacks self) (stacks other) else stacks self)
       (max_stacks self) (class self).

Definition is_expired (tolerance : Z) (self : t) : bool :=
    (duration self <=? tolerance) || (has_stacks self && (stacks self <=? 0)).

Definition remaining_duration (self : t) : Z := Z.max 0 (duration self).

Definition extend (additional_duration : Z) (self : t) : t :=
    set_duration (duration self + additional_duration) self.

Definition reset_duration (self : t) : t := set_duration (initial_duration self) self.

  (** [StackableStatus.consume_stack], [add_stack] *)
Definition set_stacks (v : Z) (self : t) : t :=
    mk (status_id self) (action_id self) (target self) (source self)
       (initial_duration self) (duration self) (time_elapsed self) (is_buff self)
       (has_stacks self) v (max_stacks self) (class self).
Definition consume_stack (self : t) : t :=
    if 0 <? stacks self then set_stacks (stacks self - 1) self else self.
Definition add_stack (count : Z) (self : t) : t :=
    if stacks self <? max_stacks self
    then set_stacks (Z.min (max_stacks self) (stacks self + count)) self else self.

  (** The properties, overridden by [BuffStatus]. *)
Definition damage_multiplier (self : t) : Q :=
    match class self with BuffStatus _ _ m _ _ _ _ => m | _ => 1%Q end.
Definition speed_multiplier (self : t) : Q :=
    match class self with BuffStatus _ _ _ m _ _ _ => m | _ => 1%Q end.
Definition speed_flags (self : t) : SpeedFlags.t :=
    match class self with BuffStatus _ _ _ _ f _ _ => f | _ => SpeedFlags.NONE end.
Definition critical_hit_bonus (self : t) : Q :=
    match class self with BuffStatus _ _ _ _ _ b _ => b | _ => 0%Q end.
Definition direct_hit_bonus (self : t) : Q :=
    match class self with BuffStatus _ _ _ _ _ _ b => b | _ => 0%Q end.

  (** *** [DoTStatus]

      [calc] is [source.calculate_potency_damage] as it answers at the moment of the
      call: the abstract method of [BattleCharacter], looked up on the object the
      reference points to.  An exception it raises leaves the caller. *)
Section DoT.
Variable calc : Ref -> ActionID.t -> Q -> DamageType.t -> PyResult DamageResult.t.

    (** [take_snapshot()]; [if self.source:] tests for [None], the character
        classes define neither [__bool__] nor [__len__]. *)
Definition take_snapshot (self : t) : PyResult t :=
      match class self, source self with
      | DoTStatus potency _, Some src =>
          do dmg <- calc src (action_id self) potency DamageType.DOT;
          Ret (set_class (DoTStatus potency (Some dmg)) self)
      | _, _ => Ret self
      end.

    (** [DoTStatus.__init__] *)
Definition init_dot (status_id : Z) (action_id : ActionID.t) (target source : option Ref)
        (duration : Z) (potency : Q) (is_buff : bool) : PyResult t :=
      take_snapshot
        (set_class (DoTStatus potency None)
           (init status_id action_id target source duration false 0 0 is_buff)).

    (** [refresh(other)], dispatched on the class of [self]. *)
Definition refresh (other : t) (self : t) : PyResult t :=
      match class self with
      | DoTStatus _ _ => take_snapshot (refresh_base other self)
      | _ => Ret (refresh_base other self)
      end.
End DoT.

Definition snapshot_damage (self : t) : option DamageResult.t :=
    match class self with DoTStatus _ snap => snap | _ => None end.
End StatusEffect.

Module StatusManager.
  (** [statuses]: a dict keyed by [StatusID], an [IntEnum]. *)
Definition t : Type := gmap Z StatusEffect.t.

Definition init : t := ∅.

  (** [add_status(status)]; the [on_apply] hook of the classes above does nothing. *)
Definition add_status
      (calc : Ref -> ActionID.t -> Q -> DamageType.t -> PyResult DamageResult.t)
      (status : StatusEffect.t) (self : t) : PyResult t :=
    match self !! StatusEffect.status_id status with
    | Some existing_status =>
        do refreshed <- StatusEffect.refresh calc status existing_status;
        Ret (<[StatusEffect.status_id status := refreshed]> self)
    | None => Ret (<[StatusEffect.status_id status := status]> self)
    end.

Definition has_status (status_id : Z) (tolerance : Z) (self : t) : bool :=
    match self !! status_id with
    | Some st => negb (StatusEffect.is_expired tolerance st)
    | None => false
    end.

Definition get_status (status_id : Z) (self : t) : option StatusEffect.t :=
    if has_status status_id 0 self then self !! status_id else None.

  (** [remove_status(status_id)]; [on_remove] does nothing. *)
Definition remove_status (status_id : Z) (self : t) : t := delete status_id self.

  (** [step(delta_time)]: every status advances, then the expired ones go. *)
Definition step (delta_time : Z) (self : t) : t :=
    filter (fun kv => StatusEffect.is_expired 0 (snd kv) = false)
           (StatusEffect.step delta_time <$> self).

Definition calc_step_size (self : t) : option Z :=
    map_fold
      (fun (_ : Z) (status : StatusEffect.t) (step_size : option Z) =>
         if StatusEffect.is_expired 0 status then Some 0
         else
           match step_size with
           | None => Some (StatusEffect.duration status)
           | Some s =>
               if StatusEffect.duration status <? s
               then Some (StatusEffect.duration status) else Some s
           end)
      None self.

Definition get_damage_multiplier (self : t) : Q :=
    map_fold
      (fun (_ : Z) (status : StatusEffect.t) (multiplier : Q) =>
         if StatusEffect.is_expired 0 status then multiplier
         else (multiplier * StatusEffect.damage_multiplier status)%Q)
      1%Q self.

Definition get_speed_multiplier (flags : SpeedFlags.t) (self : t) : Q :=
    map_fold
      (fun (_ : Z) (status : StatusEffect.t) (multiplier : Q) =>
         if negb (StatusEffect.is_expired 0 status)
            && SpeedFlags.intersects (StatusEffect.speed_flags status) flags
         then (multiplier * StatusEffect.speed_multiplier status)%Q
         else multiplier)
      1%Q self.

Definition get_critical_hit_bonus (self : t) : Q :=
    map_fold
      (fun (_ : Z) (status : StatusEffect.t) (bonus : Q) =>
         if StatusEffect.is_expired 0 status then bonus
         else (bonus + StatusEffect.critical_hit_bonus status)%Q)
      0%Q self.

Definition get_direct_hit_bonus (self : t) : Q :=
    map_fold
      (fun (_ : Z) (status : StatusEffect.t) (bonus : Q) =>
         if StatusEffect.is_expired 0 status then bonus
         else (bonus + StatusEffect.direct_hit_bonus status)%Q)
      0%Q self.
End StatusManager.

Module BattleCharacter.
Section BattleCharacter.
  (** [Ext]: the attributes a subclass adds ([Enemy]: level and stats; [Player]:
      gearset, gauge, rotation). *)
Context {Cb Ext : Type}.

Record t : Type := mk {
    entity_id : Z;
    world : bool;             (* [self.world is not None] *)
    local_time : Z;
    damage_dealt : list DamageRecord.t;
    damage_taken : list DamageRecord.t;
    status_manager : StatusManager.t;
    action_manager : ActionManager.t Cb;
    current_target : option Ref;
    ext : Ext
  }.

  (** [__init__(entity_id)] *)
Definition init (entity_id : Z) (ext : Ext) : t :=
    {| entity_id := entity_id; world := false; local_time := 0;
       damage_dealt := []; damage_taken := [];
       status_manager := StatusManager.init; action_manager := ActionManager.init;
       current_target := None; ext := ext |}.

Definition set_world (b : bool) (now : Z) (self : t) : t :=
    mk (entity_id self) b now (damage_dealt self) (damage_taken self)
       (status_manager self) (action_manager self) (current_target self) (ext self).
Definition set_local_time (v : Z) (self : t) : t :=
    mk (entity_id self) (world self) v (damage_dealt self) (damage_taken self)
       (status_manager self) (action_manager self) (current_target self) (ext self).
Definition set_damage_taken (v : list DamageRecord.t) (self : t) : t :=
    mk (entity_id self) (world self) (local_time self) (damage_dealt self) v
       (status_manager self) (action_manager self) (current_target self) (ext self).
Definition set_status_manager (v : StatusManager.t) (self : t) : t :=
    mk (entity_id self) (world self) (local_time self) (damage_dealt self)
       (damage_taken self) v (action_manager self) (current_target self) (ext self).
Definition set_action_manager (v : ActionManager.t Cb) (self : t) : t :=
    mk (entity_id self) (world self) (local_time self) (damage_dealt self)
       (damage_taken self) (status_manager self) v (current_target self) (ext self).
Definition set_target (v : option Ref) (self : t) : t :=
    mk (entity_id self) (world self) (local_time self) (damage_dealt self)
       (damage_taken self) (status_manager self) (action_manager self) v (ext self).

  (** [Entity.current_time]; [arena_time] is [self.world.current_time]. *)
Definition current_time (arena_time : Z) (self : t) : Z :=
    if world self then arena_time else local_time self.

  (** [take_damage(damage)] *)
Definition take_damage (arena_time : Z) (damage : DamageResult.t) (self : t) : t :=
    set_damage_taken
      (damage_taken self ++ [DamageRecord.mk (current_time arena_time self) damage]) self.

  (** [calc_step_size()]; [Entity.calc_step_size] answers [None]. *)
Definition calc_step_size (self : t) : option Z :=
    let step_size : option Z := None in
    let step_size := update_step_size step_size (StatusManager.calc_step_size (status_manager self)) in
    update_step_size step_size (ActionManager.calc_step_size (action_manager self)).
End BattleCharacter.
Arguments t Cb Ext : clear implicits.
End BattleCharacter.

(** The Python values [Arena.get_player] compares: an [int] and character
    objects. *)
Inductive PyVal : Type :=
  | PyInt (z : Z)
  | PyObj (r : Ref).

(** [a == b].  [int.__eq__] answers [NotImplemented] for a character; no class of
    [core.py] defines [__eq__], so the reflected call is [object.__eq__], which
    answers [NotImplemented] unless both are the same object: what is left is
    identity. *)
Definition py_eq (a b : PyVal) : bool :=
  match a, b with
  | PyInt x, PyInt y => x =? y
  | PyObj r, PyObj r' => Nat.eqb r r'
  | _, _ => false
  end.

(** [x in l] on a list: [any(x is e or x == e for e in l)]. *)
Definition py_in (x : PyVal) (l : list PyVal) : bool := existsb (py_eq x) l.

(** [l[i]] on a list, negative positions included. *)
Definition py_getitem {X : Type} (l : list X) (i : Z) : PyResult X :=
  let n := Z.of_nat (length l) in
  let j := if i <? 0 then i + n else i in
  if (j <? 0) || (n <=? j) then Raise IndexError
  else match l !! Z.to_nat j with
       | Some x => Ret x
       | None => Raise IndexError
       end.

Module Arena.
Section Arena.
  (** [Chr]: the class of the characters, known to the arena only through [step]
      and [calc_step_size]. *)
Context {Cb Chr : Type}.

Record t : Type := mk {
    task_queue : list (Task.t Cb);
    current_time : Z;
    players : list Ref;
    enemies : list Ref
  }.

  (** The arena together with the objects its lists point to. *)
Record State : Type := mkState { arena : t; objects : gmap Ref Chr }.

  (** [Arena(time)] *)
Definition init (time : Z) : t :=
    {| task_queue := []; current_time := time; players := []; enemies := [] |}.

Definition set_task_queue (q : list (Task.t Cb)) (s : State) : State :=
    mkState (mk q (current_time (arena s)) (players (arena s)) (enemies (arena s)))
            (objects s).
Definition set_current_time (v : Z) (s : State) : State :=
    mkState (mk (task_queue (arena s)) v (players (arena s)) (enemies (arena s)))
            (objects s).
Definition set_objects (o : gmap Ref Chr) (s : State) : State := mkState (arena s) o.

  (** [get_player(player_id)] *)
Definition get_player (player_id : Z) (s : State) : PyResult (option Ref) :=
    if py_in (PyInt player_id) (map PyObj (players (arena s)))
    then do p <- py_getitem (players (arena s)) player_id; Ret (Some p)
    else Ret None.

  (** [schedule_task(delay, callback, *args, **kwargs)] *)
Definition schedule_task (delay : Z) (callback : Cb) (s : State) : State :=
    set_task_queue
      (Heapq.heappush Task.lt (task_queue (arena s))
         (Task.mk (current_time (arena s) + delay) callback))
      s.

Section Run.
    (** What calling a callback does; [c.calc_step_size()] and [c.step(step_size)]
        for the object behind a reference. *)
Variable invoke : Cb -> State -> State.
Variable chr_calc_step_size : Ref -> State -> option Z.
Variable chr_step : Z -> Ref -> State -> State.

    (** [_process_events()]: the tasks executed, in order, and how the loop ended. *)
Fixpoint _process_events (fuel : nat) (s : State)
      : list (Task.t Cb) * Outcome State :=
      match task_queue (arena s) with
      | [] => ([], Returned s)
      | event :: _ =>
          if current_time (arena s) <? Task.time event then ([], Returned s)
          else
            match fuel with
            | O => ([], Running s)
            | S fuel' =>
                let s := invoke (Task.callback event) s in
                match Heapq.heappop Task.lt (task_queue (arena s)) with
                | None => ([event], Raised IndexError)
                | Some (_, q) =>
                    let '(trace, out) := _process_events fuel' (set_task_queue q s) in
                    (event :: trace, out)
                end
            end
      end.

    (** [_calc_step_size()] *)
Definition _calc_step_size (s : State) : option Z :=
      let step_size : option Z :=
        match task_queue (arena s) with
        | event :: _ => Some (Task.time event - current_time (arena s))
        | [] => None
        end in
      let over (refs : list Ref) (step_size : option Z) : option Z :=
        fold_left (fun acc r => update_step_size acc (chr_calc_step_size r s)) refs step_size in
      over (enemies (arena s)) (over (players (arena s)) step_size).

    (** The body of the loop of [step(frame_delta)]: the choice of the step size,

        [if step_size is None or step_size > remaining_time: step_size = remaining_time] *)
Definition next_step_size (remaining_time : Z) (s : State) : Z :=
      match _calc_step_size s with
      | None => remaining_time
      | Some sz => if remaining_time <? sz then remaining_time else sz
      end.

    (** and the advance by it.  The two [for] loops run over the lists as they are
        when the loops start. *)
Definition advance (step_size : Z) (s : State) : State :=
      let s := set_current_time (current_time (arena s) + step_size) s in
      let s := fold_left (fun s r => chr_step step_size r s) (players (arena s)) s in
      fold_left (fun s r => chr_step step_size r s) (enemies (arena s)) s.

    (** The loop of [step(frame_delta)]. *)
Fixpoint step_loop (fuel : nat) (remaining_time : Z) (s : State) : Outcome State :=
      match snd (_process_events fuel s) with
      | Returned s =>
          if remaining_time <=? 0 then Returned s
          else
            match fuel with
            | O => Running s
            | S fuel' =>
                let step_size := next_step_size remaining_time s in
                step_loop fuel' (remaining_time - step_size) (advance step_size s)
            end
      | Raised e => Raised e
      | Running s => Running s
      end.

Definition step (fuel : nat) (frame_delta : Z) (s : State) : Outcome State :=
      step_loop fuel frame_delta s.

    (** Successive [step] calls. *)
Fixpoint steps (fuel : nat) (frame_deltas : list Z) (s : State) : Outcome State :=
      match frame_deltas with
      | [] => Returned s
      | d :: ds =>
          match step fuel d s with
          | Returned s => steps fuel ds s
          | out => out
          end
      end.
End Run.
End Arena.
Arguments t Cb : clear implicits.
Arguments State Cb Chr : clear implicits.
End Arena.

(** ** Characters of class [BattleCharacter] inside an arena *)

Module World.
Section World.
Context {Cb Ext : Type}.

Abbreviation Chr := (BattleCharacter.t Cb Ext).
Abbreviation State := (Arena.State Cb Chr).

Definition modify_obj (r : Ref) (f : Chr -> Chr) (s : State) : State :=
    match Arena.objects s !! r with
    | Some c => Arena.set_objects (<[r := f c]> (Arena.objects s)) s
    | None => s
    end.

  (** [Arena.add_enemy(enemy)] for an enemy that has a target already, or an arena
      without players: the object is appended, told its world and the time. *)
Definition add_enemy (r : Ref) (s : State) : State :=
    let a := Arena.arena s in
    let s :=
      Arena.mkState
        (Arena.mk (Arena.task_queue a) (Arena.current_time a) (Arena.players a)
                  (Arena.enemies a ++ [r]))
        (Arena.objects s) in
    modify_obj r (BattleCharacter.set_world true (Arena.current_time a)) s.

  (** The action manager of the object at [r]. *)
Definition am_get (r : Ref) (s : State) : ActionManager.t Cb :=
    match Arena.objects s !! r with
    | Some c => BattleCharacter.action_manager c
    | None => ActionManager.init
    end.
Definition am_set (r : Ref) (am : ActionManager.t Cb) (s : State) : State :=
    modify_obj r (BattleCharacter.set_action_manager am) s.

Variable invoke : Cb -> State -> State.

  (** [BattleCharacter.step(step_size)] on the object at [r]:
      [Entity.step], then the status manager, then the action manager. *)
Definition step (step_size : Z) (r : Ref) (s : State) : State :=
    let s :=
      modify_obj r (fun c =>
        BattleCharacter.set_local_time (BattleCharacter.local_time c + step_size) c) s in
    let s :=
      modify_obj r (fun c =>
        BattleCharacter.set_status_manager
          (StatusManager.step step_size (BattleCharacter.status_manager c)) c) s in
    fst (ActionManager.step (am_get r) (am_set r) invoke step_size s).

Definition calc_step_size (r : Ref) (s : State) : option Z :=
    match Arena.objects s !! r with
    | Some c => BattleCharacter.calc_step_size c
    | None => None
    end.

  (** [calculate_potency_damage] is abstract in [BattleCharacter]: a function of
      the object it is called on (its statuses, and the stats its subclass keeps). *)
Variable calculate_potency_damage :
    Chr -> ActionID.t -> Q -> DamageType.t -> PyResult DamageResult.t.

  (** [source.calculate_potency_damage] in state [s].  Python has no reference to
      nothing; one reads as a fresh character here. *)
Definition calc_in `{Inhabited Ext} (s : State)
    : Ref -> ActionID.t -> Q -> DamageType.t -> PyResult DamageResult.t :=
    fun src =>
      calculate_potency_damage
        (default (BattleCharacter.init 0 inhabitant) (Arena.objects s !! src)).

  (** [DoTStatus.tick()]: [if self.target and self.snapshot_damage:
      self.target.take_damage(self.snapshot_damage)]. *)
Definition tick (self : StatusEffect.t) (s : State) : State :=
    match StatusEffect.target self, StatusEffect.snapshot_damage self with
    | Some tgt, Some dmg =>
        modify_obj tgt
          (BattleCharacter.take_damage (Arena.current_time (Arena.arena s)) dmg) s
    | _, _ => s
    end.
End World.
End World.

(** [Enemy]: the subclass with the simplified damage formula. *)
Module Enemy.
Record ext : Type := mkExt { level : Z; stats : gmap string Q }.

#[global] Instance ext_inhabited : Inhabited ext := populate (mkExt 0 ∅).

  (** [int(x)] on a float: truncation toward zero. *)
Definition py_int (x : Q) : Z := Z.quot (Qnum x) (Z.pos (Qden x)).

Section Enemy.
Context {Cb : Type}.

    (** [calculate_potency_damage(action_id, potency, damage_type)], on exact
        products.  The code truncates the binary64 products, which are the exact
        ones where they are whole numbers below [2 ^ 53] (potency 50, level 100,
        attack power 100, no damage status), and its [int()] raises on an
        infinite or undefined product; neither the rounding nor that error is
        modelled, and nothing is stated where they matter. *)
Definition calculate_potency_damage (self : BattleCharacter.t Cb ext)
        (action_id : ActionID.t) (potency : Q) (damage_type : DamageType.t)
      : PyResult DamageResult.t :=
      let e := BattleCharacter.ext self in
      let base_damage :=
        py_int (potency * (inject_Z (level e) / 100)
                * default 100%Q (stats e !! "attack_power"%string))%Q in
      let damage_multiplier :=
        StatusManager.get_damage_multiplier (BattleCharacter.status_manager self) in
      let final_damage := inject_Z (py_int (inject_Z base_damage * damage_multiplier)%Q) in
      DamageResult.init action_id potency
        (1%Q, final_damage, final_damage) (0%Q, 0%Q, 0%Q) (0%Q, 0%Q, 0%Q) (0%Q, 0%Q, 0%Q).
End Enemy.
End Enemy.

(** ** [Rotation] and its dictionary form *)

Module TargetType.
Inductive t : Type :=
    CURRENT | MAIN_TANK | OFF_TANK | SELF | NEAREST | LOWEST_HP | HEALER | DPS | SPECIFIC.
End TargetType.

Module RotationAction.
Section RotationAction.
  (** [Cond]: the condition callables. *)
Context {Cond : Type}.

Record t : Type := mk {
    action_id : ActionID.t;
    time : option Z;
    condition : option Cond;
    target_type : TargetType.t;
    target_id : option Z
  }.
End RotationAction.
Arguments t Cond : clear implicits.
End RotationAction.

(** The dictionary of the rotation file:
    [{"name": str, "actions": [{NAME: {"id": int, "time": int|null,
    "has_condition": bool}}, ...]}].  A key may be missing ([None]); an entry is a
    dict and may hold any number of keys, in insertion order. *)
Module RotationDict.
Record details : Type := mkDetails {
    id : option Z;
    time : option (option Z);
    has_condition : option bool
  }.

Record t : Type := mk {
    name : option string;
    actions : option (list (list (string * details)))
  }.
End RotationDict.

Module Rotation.
Section Rotation.
Context {Cond : Type}.

Record t : Type := mk {
    name : string;
    actions : list (RotationAction.t Cond);
    owner : option Ref;
    current_index : Z;
    enabled : bool;
    last_cast_time : option Z;
    gcd_used : option Z
  }.

  (** [__init__(name)] *)
Definition init (name : string) : t :=
    {| name := name; actions := []; owner := None; current_index := 0;
       enabled := false; last_cast_time := None; gcd_used := None |}.

  (** [add_action(action_id, time, condition, target_type, target_id)] *)
Definition add_action (action_id : ActionID.t) (time : option Z)
      (condition : option Cond) (target_type : TargetType.t) (target_id : option Z)
      (self : t) : t :=
    mk (name self)
       (actions self ++ [RotationAction.mk action_id time condition target_type target_id])
       (owner self) (current_index self) (enabled self) (last_cast_time self)
       (gcd_used self).

  (** [to_dict()] *)
Definition to_dict (self : t) : RotationDict.t :=
    {| RotationDict.name := Some (name self);
       RotationDict.actions :=
         Some (map (fun a =>
                      [(ActionID.name (RotationAction.action_id a),
                        {| RotationDict.id := Some (ActionID.value (RotationAction.action_id a));
                           RotationDict.time := Some (RotationAction.time a);
                           RotationDict.has_condition :=
                             Some (bool_decide (RotationAction.condition a <> None)) |})])
                   (actions self)) |}.

  (** The inner loop of [from_dict]: [for action_name, action_details in
      action_entry.items()]. *)
Definition add_entry (action_entry : list (string * RotationDict.details)) (rotation : t)
    : t :=
    fold_left
      (fun rotation kv =>
         match ActionID.getattr (fst kv) with
         | Some action_id =>
             let time := default None (RotationDict.time (snd kv)) in
             add_action action_id time None TargetType.CURRENT None rotation
         | None => rotation
         end)
      action_entry rotation.

  (** [from_dict(data)]; a missing ["name"] or ["actions"] is a [KeyError]. *)
Definition from_dict (data : RotationDict.t) : PyResult t :=
    match RotationDict.name data with
    | None => Raise KeyError
    | Some n =>
        let rotation := init n in
        match RotationDict.actions data with
        | None => Raise KeyError
        | Some entries => Ret (fold_left (fun r e => add_entry e r) entries rotation)
        end
    end.
End Rotation.
Arguments t Cond : clear implicits.
End Rotation.


(** ** [xivcore/common.py]: [Sen] and [GameVersion] *)

Module Sen.
  (** A [Flag]: the value of a member or of a combination of members; the members
      cover the bits 1, 2 and 4. *)
Definition t : Type := Z.
Definition NONE : t := 0.
Definition SETSU : t := 1.
Definition GETSU : t := 2.
Definition KA : t := 4.

  (** [a | b], [a & b], [~a] (the flags of the class that are not in [a]) and
      [bool(a)]. *)
Definition or (a b : t) : t := Z.lor a b.
Definition and (a b : t) : t := Z.land a b.
Definition invert (a : t) : t := Z.land (Z.lnot a) 7.
Definition bool (a : t) : bool := negb (a =? 0).
End Sen.

Module GameVersion.
Record t : Type := mk { major : Z; minor : Z }.

  (** [__int__] *)
Definition to_int (self : t) : Z := major self * 100 + minor self.

  (** [from_int(version_int)]; [//] and [%] round towards minus infinity. *)
Definition from_int (version_int : Z) : t :=
    mk (version_int / 100) (version_int mod 100).

  (** The comparisons with another [GameVersion]. *)
Definition lt (self other : t) : bool :=
    if negb (major self =? major other) then major self <? major other
    else minor self <? minor other.
Definition le (self other : t) : bool :=
    if negb (major self =? major other) then major self <? major other
    else minor self <=? minor other.
Definition eq (self other : t) : bool :=
    (major self =? major other) && (minor self =? minor other).
Definition gt (self other : t) : bool :=
    if negb (major self =? major other) then major other <? major self
    else minor other <? minor self.
Definition ge (self other : t) : bool :=
    if negb (major self =? major other) then major other <? major self
    else minor other <=? minor self.
End GameVersion.

(** ** [xivcore/core.py]: [SamuraiGauge] *)

Module SamuraiGauge.
Record t : Type := mk {
    kenki : Z;
    sen : Sen.t;
    meditation_stacks : Z;
    meditation_timer : Z;
    kaeshi_namikiri_ready : bool;
    kaeshi_namikiri_timer : Z;
    tsubamegaeshi_action : ActionID.t;
    tsubamegaeshi_timer : Z
  }.

  (** [__init__] and [reset()] *)
Definition init : t :=
    {| kenki := 0; sen := Sen.NONE; meditation_stacks := 0; meditation_timer := 0;
       kaeshi_namikiri_ready := false; kaeshi_namikiri_timer := 0;
       tsubamegaeshi_action := ActionID.NONE; tsubamegaeshi_timer := 0 |}.
Definition reset (self : t) : t := init.

Definition set_kenki (v : Z) (self : t) : t :=
    mk v (sen self) (meditation_stacks self) (meditation_timer self)
       (kaeshi_namikiri_ready self) (kaeshi_namikiri_timer self)
       (tsubamegaeshi_action self) (tsubamegaeshi_timer self).
Definition set_sen (v : Sen.t) (self : t) : t :=
    mk (kenki self) v (meditation_stacks self) (meditation_timer self)
       (kaeshi_namikiri_ready self) (kaeshi_namikiri_timer self)
       (tsubamegaeshi_action self) (tsubamegaeshi_timer self).
Definition set_meditation_stacks (v : Z) (self : t) : t :=
    mk (kenki self) (sen self) v (meditation_timer self)
       (kaeshi_namikiri_ready self) (kaeshi_namikiri_timer self)
       (tsubamegaeshi_action self) (tsubamegaeshi_timer self).
Definition set_meditation_timer (v : Z) (self : t) : t :=
    mk (kenki self) (sen self) (meditation_stacks self) v
       (kaeshi_namikiri_ready self) (kaeshi_namikiri_timer self)
       (tsubamegaeshi_action self) (tsubamegaeshi_timer self).
Definition set_kaeshi_namikiri (ready : bool) (timer : Z) (self : t) : t :=
    mk (kenki self) (sen self) (meditation_stacks self) (meditation_timer self)
       ready timer (tsubamegaeshi_action self) (tsubamegaeshi_timer self).
Definition set_tsubamegaeshi_action (v : ActionID.t) (self : t) : t :=
    mk (kenki self) (sen self) (meditation_stacks self) (meditation_timer self)
       (kaeshi_namikiri_ready self) (kaeshi_namikiri_timer self)
       v (tsubamegaeshi_timer self).
Definition set_tsubamegaeshi_timer (v : Z) (self : t) : t :=
    mk (kenki self) (sen self) (meditation_stacks self) (meditation_timer self)
       (kaeshi_namikiri_ready self) (kaeshi_namikiri_timer self)
       (tsubamegaeshi_action self) v.

  (** [step(step_size)] *)
Definition step (step_size : Z) (self : t) : t :=
    let self :=
      if 0 <? meditation_timer self
      then set_meditation_timer (Z.max 0 (meditation_timer self - step_size)) self
      else self in
    let self :=
      if 0 <? tsubamegaeshi_timer self
      then set_tsubamegaeshi_timer (Z.max 0 (tsubamegaeshi_timer self - step_size)) self
      else self in
    if tsubamegaeshi_timer self <=? 0
    then set_tsubamegaeshi_action ActionID.NONE self
    else self.

  (** [calc_step_size()] *)
Definition calc_step_size (self : t) : option Z :=
    let step_size : option Z :=
      if 0 <? meditation_timer self then Some (meditation_timer self) else None in
    if 0 <? tsubamegaeshi_timer self then
      match step_size with
      | None => Some (tsubamegaeshi_timer self)
      | Some s =>
          if tsubamegaeshi_timer self <? s then Some (tsubamegaeshi_timer self) else Some s
      end
    else step_size.

  (** [add_kenki(amount, allow_overflow=True)] *)
Definition add_kenki (amount : Z) (allow_overflow : bool) (self : t) : t :=
    let new_kenki := kenki self + amount in
    if allow_overflow then set_kenki new_kenki self
    else set_kenki (Z.min 100 new_kenki) self.

  (** [spend_kenki(amount)]: the answer and the gauge. *)
Definition spend_kenki (amount : Z) (self : t) : bool * t :=
    if amount <=? kenki self then (true, set_kenki (kenki self - amount) self)
    else (false, self).

Definition add_sen (sen_flag : Sen.t) (self : t) : t :=
    set_sen (Sen.or (sen self) sen_flag) self.
Definition remove_sen (sen_flag : Sen.t) (self : t) : t :=
    set_sen (Sen.and (sen self) (Sen.invert sen_flag)) self.
Definition clear_sen (self : t) : t := set_sen Sen.NONE self.
Definition has_sen (sen_flag : Sen.t) (self : t) : bool :=
    Sen.bool (Sen.and (sen self) sen_flag).

  (** [count_sen()] *)
Definition count_sen (self : t) : Z :=
    let count := 0 in
    let count := if has_sen Sen.SETSU self then count + 1 else count in
    let count := if has_sen Sen.GETSU self then count + 1 else count in
    if has_sen Sen.KA self then count + 1 else count.

  (** [add_meditation(stacks=1)] *)
Definition add_meditation (stacks : Z) (self : t) : t :=
    set_meditation_stacks (Z.min 3 (meditation_stacks self + stacks)) self.

  (** [use_meditation()]: the answer and the gauge. *)
Definition use_meditation (self : t) : bool * t :=
    if 3 <=? meditation_stacks self
    then (true, set_meditation_stacks (meditation_stacks self - 3) self)
    else (false, self).

Definition set_tsubamegaeshi (action_id : ActionID.t) (duration : Z) (self : t) : t :=
    set_tsubamegaeshi_timer duration (set_tsubamegaeshi_action action_id self).

  (** [check_tsubamegaeshi(action_id, tolerance=0)] *)
Definition check_tsubamegaeshi (action_id : ActionID.t) (tolerance : Z) (self : t) : bool :=
    if negb (ActionID.eqb (tsubamegaeshi_action self) action_id) then false
    else tolerance <? tsubamegaeshi_timer self.

Definition reset_tsubamegaeshi (self : t) : t :=
    set_tsubamegaeshi_timer 0 (set_tsubamegaeshi_action ActionID.NONE self).

Definition set_kaeshi_namikiri_ready (duration : Z) (self : t) : t :=
    set_kaeshi_namikiri true duration self.
Definition reset_kaeshi_namikiri (self : t) : t := set_kaeshi_namikiri false 0 self.
End SamuraiGauge.
(** ** Vocabulary of the properties and the scenarios they are checked on *)

Section RotationVocabulary.
Context {Cond : Type}.

(** What [from_dict] rebuilds of an entry: the identifier and the time. *)
Definition reloaded (a : RotationAction.t Cond) : RotationAction.t Cond :=
  RotationAction.mk (RotationAction.action_id a) (RotationAction.time a)
                    None TargetType.CURRENT None.

(** The ordered (action_id, time) pairs of a rotation. *)
Definition pairs (r : Rotation.t Cond) : list (ActionID.t * option Z) :=
  map (fun a => (RotationAction.action_id a, RotationAction.time a)) (Rotation.actions r).

(** The one-key dict [to_dict] writes for an entry. *)
Definition entry_of (a : RotationAction.t Cond) : list (string * RotationDict.details) :=
  [(ActionID.name (RotationAction.action_id a),
    {| RotationDict.id := Some (ActionID.value (RotationAction.action_id a));
       RotationDict.time := Some (RotationAction.time a);
       RotationDict.has_condition :=
         Some (bool_decide (RotationAction.condition a <> None)) |})].
End RotationVocabulary.

(** The sum of a list of numbers, as mathematics has it. *)
Definition Qsum (l : list Q) : Q := fold_right Qplus 0%Q l.

(** Two [UniformDistribution(10, 20)]. *)
Definition two_uniforms : list UniformDistribution.t :=
  [UniformDistribution.init 10 20; UniformDistribution.init 10 20].

(** A mixture of one component with weight 0.0. *)
Definition zero_weight_components : list UniformDistribution.t :=
  [UniformDistribution.init 10 20].
Definition zero_weights : list Q := [0%Q].

(** What may happen to a status object between two snapshots: the methods of
    [StatusEffect] other than [refresh]. *)
Inductive StatusOp : Type :=
  | OpStep (delta_time : Z)
  | OpExtend (additional_duration : Z)
  | OpResetDuration
  | OpConsumeStack
  | OpAddStack (count : Z).

Definition apply_op (o : StatusOp) (self : StatusEffect.t) : StatusEffect.t :=
  match o with
  | OpStep d => StatusEffect.step d self
  | OpExtend d => StatusEffect.extend d self
  | OpResetDuration => StatusEffect.reset_duration self
  | OpConsumeStack => StatusEffect.consume_stack self
  | OpAddStack n => StatusEffect.add_stack n self
  end.

Definition apply_ops (ops : list StatusOp) (self : StatusEffect.t) : StatusEffect.t :=
  fold_left (fun s o => apply_op o s) ops self.

(** [self.potency] of a [DoTStatus]. *)
Definition dot_potency (self : StatusEffect.t) : Q :=
  match StatusEffect.class self with
  | StatusEffect.DoTStatus p _ => p
  | _ => 0%Q
  end.

Definition is_dot (self : StatusEffect.t) : bool :=
  match StatusEffect.class self with
  | StatusEffect.DoTStatus _ _ => true
  | _ => false
  end.

(** [d] is a [DoTStatus] as its constructor or its [refresh] leaves it, [calc]
    being what [calculate_potency_damage] answers at that moment. *)
Inductive snapshot_event
    (calc : Ref -> ActionID.t -> Q -> DamageType.t -> PyResult DamageResult.t)
  : StatusEffect.t -> Prop :=
  | applied status_id action_id target source duration potency is_buff d :
      StatusEffect.init_dot calc status_id action_id target source duration potency is_buff
      = Ret d ->
      snapshot_event calc d
  | refreshed other d0 d :
      is_dot d0 = true ->
      StatusEffect.refresh calc other d0 = Ret d ->
      snapshot_event calc d.

(** The scenario of the snapshot: an enemy of level 100 puts a DoT of potency 50 on
    a second enemy; later the first one gains a buff of 13% damage. *)
Definition dot_source : BattleCharacter.t unit Enemy.ext :=
  BattleCharacter.init 1 (Enemy.mkExt 100 ∅).
Definition dot_target : BattleCharacter.t unit Enemy.ext :=
  BattleCharacter.init 2 (Enemy.mkExt 100 ∅).
Definition dot_state0 : Arena.State unit (BattleCharacter.t unit Enemy.ext) :=
  Eval vm_compute in
  Arena.mkState (Arena.init 0) (<[1%nat := dot_source]> (<[2%nat := dot_target]> ∅)).
Definition damage_buff : StatusEffect.t :=
  StatusEffect.set_class
    (StatusEffect.BuffStatus 0 0 (113 # 100) 1 SpeedFlags.NONE 0 0)
    (StatusEffect.init 1000 ActionID.BATTLE_LITANY (Some 1%nat) (Some 1%nat) 20000 false 0 0 true).
Definition dot_state1 : Arena.State unit (BattleCharacter.t unit Enemy.ext) :=
  Eval vm_compute in
  Arena.set_current_time 3000
    (World.modify_obj 1%nat
       (BattleCharacter.set_status_manager (<[1000 := damage_buff]> ∅)) dot_state0).
Definition dot_status : PyResult StatusEffect.t :=
  StatusEffect.init_dot (World.calc_in Enemy.calculate_potency_damage dot_state0)
    1228 ActionID.HIGANBANA (Some 2%nat) (Some 1%nat) 60000 50 false.

Definition dot_d : StatusEffect.t :=
  Eval vm_compute in
  match dot_status with
  | Ret d => d
  | Raise _ => StatusEffect.init 0 ActionID.NONE None None 0 false 0 0 false
  end.
(** No status on the owner: what [get_speed_multiplier] answers then. *)
Definition no_speed_modifiers : SpeedFlags.t -> Q :=
  fun flags => StatusManager.get_speed_multiplier flags StatusManager.init.

(** The first charge of a group is there: the group is not active, or
    [time_elapsed + tolerance] has reached [total / max_charges]. *)
Definition charge_available (rd : RecastDetail.t) (max_charges tolerance : Z) : Prop :=
  RecastDetail.is_active rd = false
  \/ (inject_Z (RecastDetail.total rd) / inject_Z max_charges
      <= inject_Z (RecastDetail.time_elapsed rd + tolerance))%Q.

(** An action manager on its own: the state the stepping methods act on is the
    manager itself. *)
Definition own_get {Cb : Type} (w : ActionManager.t Cb) : ActionManager.t Cb := w.
Definition own_set {Cb : Type} (a : ActionManager.t Cb) (_ : ActionManager.t Cb)
  : ActionManager.t Cb := a.

(** The scenario of the two charges: the cooldown of a use, and waiting. *)
Definition use {Cb : Type} (id : ActionID.t) (am : ActionManager.t Cb) : ActionManager.t Cb :=
  ActionManager.start_cooldown no_speed_modifiers id am.
Definition wait {Cb : Type} (invoke : Cb -> ActionManager.t Cb -> ActionManager.t Cb)
    (d : Z) (am : ActionManager.t Cb) : ActionManager.t Cb :=
  fst (ActionManager.step own_get own_set invoke d am).

(** An action of two charges and 5000 ms of recast, on a group of its own. *)
Definition two_charge_action : PvEAction.t :=
  {| PvEAction.action_id := ActionID.MEIKYO_SHISUI;
     PvEAction.name := "Meikyo Shisui";
     PvEAction.cast_time := 0;
     PvEAction.recast_time := 5000;
     PvEAction.cooldown_group := 19;
     PvEAction.additional_recast_time := 0;
     PvEAction.additional_cooldown_group := 0;
     PvEAction.max_charges := 2;
     PvEAction.animation_lock := ANIMATION_LOCK |}.

(** Used at t = 0 and again at t = 100. *)
Definition two_charges_used : ActionManager.t unit :=
  use (PvEAction.action_id two_charge_action)
    (wait (fun _ w => w) 100
       (use (PvEAction.action_id two_charge_action)
          (ActionManager.register_action two_charge_action ActionManager.init))).

(** An action with a secondary group, used once on a fresh manager. *)
Definition two_group_action : PvEAction.t :=
  {| PvEAction.action_id := ActionID.HISSATSU_GYOTEN;
     PvEAction.name := "Hissatsu: Gyoten";
     PvEAction.cast_time := 0;
     PvEAction.recast_time := 5000;
     PvEAction.cooldown_group := 10;
     PvEAction.additional_recast_time := 1000;
     PvEAction.additional_cooldown_group := 11;
     PvEAction.max_charges := 2;
     PvEAction.animation_lock := ANIMATION_LOCK |}.

Definition two_group_used : ActionManager.t unit :=
  Eval vm_compute in
  use ActionID.HISSATSU_GYOTEN
    (ActionManager.register_action two_group_action ActionManager.init).

(** An action that has been given no charge at all, used once, and an action
    without a cooldown group, registered. *)
Definition no_charge_action : PvEAction.t :=
  {| PvEAction.action_id := ActionID.IKISHOTEN;
     PvEAction.name := "Ikishoten";
     PvEAction.cast_time := 0;
     PvEAction.recast_time := 60000;
     PvEAction.cooldown_group := 20;
     PvEAction.additional_recast_time := 0;
     PvEAction.additional_cooldown_group := 0;
     PvEAction.max_charges := 0;
     PvEAction.animation_lock := ANIMATION_LOCK |}.

Definition no_charge_used : ActionManager.t unit :=
  Eval vm_compute in
  use ActionID.IKISHOTEN (ActionManager.register_action no_charge_action ActionManager.init).

Definition groupless_action : PvEAction.t :=
  {| PvEAction.action_id := ActionID.SPRINT;
     PvEAction.name := "Sprint";
     PvEAction.cast_time := 0;
     PvEAction.recast_time := 60000;
     PvEAction.cooldown_group := 0;
     PvEAction.additional_recast_time := 0;
     PvEAction.additional_cooldown_group := 0;
     PvEAction.max_charges := 1;
     PvEAction.animation_lock := ANIMATION_LOCK |}.

Definition groupless_registered : ActionManager.t unit :=
  Eval vm_compute in ActionManager.register_action groupless_action ActionManager.init.

(** The words of the specification on the cooldowns, said on the fields of the
    manager.  A group is active: it has a total, and its time elapsed lies within
    it. *)
Definition group_active (rd : RecastDetail.t) : Prop :=
  0 < RecastDetail.total rd
  /\ 0 <= RecastDetail.time_elapsed rd < RecastDetail.total rd.

(** [time_elapsed + tolerance] has reached the boundary [total / max_charges]. *)
Definition first_charge_reached (rd : RecastDetail.t) (max_charges tolerance : Z) : Prop :=
  (inject_Z (RecastDetail.total rd) / inject_Z max_charges
   <= inject_Z (RecastDetail.time_elapsed rd + tolerance))%Q.

(** The action has a secondary group, that group is active and has more than the
    tolerance to go. *)
Definition secondary_blocks {Cb : Type} (am : ActionManager.t Cb) (act : PvEAction.t)
    (tolerance : Z) : Prop :=
  exists rd2,
    PvEAction.additional_cooldown_group act <> 0
    /\ ActionManager.cooldowns am !! PvEAction.additional_cooldown_group act = Some rd2
    /\ group_active rd2
    /\ tolerance < RecastDetail.total rd2 - RecastDetail.time_elapsed rd2.

(** The tolerance a call works with: no tolerance and a negative one count as 0. *)
Definition effective_tolerance (tolerance : option Z) : Z :=
  match tolerance with
  | Some tol => Z.max 0 tol
  | None => 0
  end.

(** A cast is under way with its callback still to be called: [c] of [m]
    milliseconds are done. *)
Definition cast_pending {Cb : Type} (cb : Cb) (m c : Z) (a : ActionManager.t Cb) : Prop :=
  ActionID.eqb (ActionManager.casting_action_id a) ActionID.NONE = false
  /\ ActionManager.casting_time_max a = m
  /\ ActionManager.casting_time a = c
  /\ 0 <= c < m
  /\ ActionManager.casting_apply_callback a = Some cb.

(** What each of the successive steps calls when [to_go] milliseconds are left
    before the remaining cast time is down to 400: nothing until a step covers
    them, the callback at that step, nothing afterwards. *)
Fixpoint expected_calls {Cb : Type} (cb : Cb) (to_go : Z) (sizes : list Z) : list (list Cb) :=
  match sizes with
  | [] => []
  | d :: sizes' =>
      if to_go <=? d then [cb] :: map (fun _ => []) sizes'
      else [] :: expected_calls cb (to_go - d) sizes'
  end.

Definition Zsum (l : list Z) : Z := fold_right Z.add 0 l.

(** The remaining cast time is down to 400 ms or less after step [k] (the steps
    are numbered from 0): the steps up to [k] cover all of the cast but 400 ms. *)
Definition dropped_to_400 (cast_time : Z) (sizes : list Z) (k : nat) : Prop :=
  cast_time - Zsum (take (S k) sizes) <= 400.

(** [k] is the first such step. *)
Definition first_dropped (cast_time : Z) (sizes : list Z) (k : nat) : Prop :=
  (k < length sizes)%nat
  /\ dropped_to_400 cast_time sizes k
  /\ forall j, (j < k)%nat -> ~ dropped_to_400 cast_time sizes j.

(** A callback in the manner of [PvEAction._on_casting_ready_to_finish]: it sets
    the animation lock to the remaining cast time plus 100. *)
Definition ready_to_finish (_ : unit) (w : ActionManager.t unit) : ActionManager.t unit :=
  ActionManager.set_animation_lock
    (ActionManager.casting_time_max w - ActionManager.casting_time w + 100) w.

(** A cast of 1800 ms, a cast of 0 ms, both with a callback. *)
Definition casting_1800 : ActionManager.t unit :=
  ActionManager.start_casting ActionID.HIGANBANA 1800 (Some tt) ActionManager.init.
Definition casting_0 : ActionManager.t unit :=
  ActionManager.start_casting ActionID.HIGANBANA 0 (Some tt) ActionManager.init.

(** The scenario of the arena that stops advancing: an enemy with a combo window
    of 1400 ms open starts a cast of 1800 ms (no callback) and joins an arena at
    t = -30000. *)
Definition stuck_enemy : BattleCharacter.t unit Enemy.ext :=
  let e := BattleCharacter.init 1 (Enemy.mkExt 1 ∅) in
  BattleCharacter.set_action_manager
    (ActionManager.start_casting ActionID.HIGANBANA 1800 None
       (ActionManager.start_combo ActionID.HAKAZE 1400 (BattleCharacter.action_manager e)))
    e.

Definition stuck_arena0 : Arena.State unit (BattleCharacter.t unit Enemy.ext) :=
  Eval vm_compute in
  World.add_enemy 1%nat (Arena.mkState (Arena.init (-30000)) {[ 1%nat := stuck_enemy ]}).

Definition no_callbacks {S : Type} (_ : unit) (s : S) : S := s.

(** [Arena.step] for an arena of [BattleCharacter] objects. *)
Definition arena_step (fuel : nat) (frame_delta : Z)
    (s : Arena.State unit (BattleCharacter.t unit Enemy.ext))
  : Outcome (Arena.State unit (BattleCharacter.t unit Enemy.ext)) :=
  Arena.step no_callbacks World.calc_step_size (World.step no_callbacks) fuel frame_delta s.

(** The state after the first [step(700)]: 700 ms of the cast done, 700 ms of the
    combo window left. *)
Definition stuck_arena1 : Arena.State unit (BattleCharacter.t unit Enemy.ext) :=
  Eval vm_compute in
  match arena_step 1 700 stuck_arena0 with
  | Returned s => s
  | _ => stuck_arena0
  end.

(** The binary heap in an array: the parent of position [i]. *)
Definition parent (i : nat) : nat := ((i - 1) / 2)%nat.

Section HeapVocabulary.
Context {A : Type} (key : A -> Z).

(** [a < b] by the key, as [Task.__lt__] does with [time]. *)
Definition key_lt (a b : A) : bool := key a <? key b.

(** The invariant of [heapq]: every item is at least its parent. *)
Definition heap_ordered (h : list A) : Prop :=
  forall i x y,
    (0 < i)%nat -> h !! i = Some x -> h !! parent i = Some y -> key y <= key x.

(** The same, as a test. *)
Definition is_heap (h : list A) : bool :=
  forallb
    (fun i =>
       match h !! i, h !! parent i with
       | Some x, Some y => key y <=? key x
       | _, _ => true
       end)
    (seq 1 (length h - 1)).

(** While an item is sifted, position [pos] is a hole: the order holds between
    all positions other than [pos], *)
Definition ordered_but (h : list A) (pos : nat) : Prop :=
  forall i x y,
    (0 < i)%nat -> i <> pos -> parent i <> pos ->
    h !! i = Some x -> h !! parent i = Some y -> key y <= key x.

(** across the hole, from the parent of [pos] to the children of [pos], *)
Definition grand_ordered (h : list A) (pos : nat) : Prop :=
  forall c x y,
    (0 < pos)%nat -> (0 < c)%nat -> parent c = pos ->
    h !! c = Some x -> h !! parent pos = Some y -> key y <= key x.

(** and [v] may sit above the children of [pos]. *)
Definition children_above (h : list A) (pos : nat) (v : A) : Prop :=
  forall c x, (0 < c)%nat -> parent c = pos -> h !! c = Some x -> key v <= key x.
End HeapVocabulary.

Section TaskVocabulary.
Context {Cb Chr : Type}.

(** Tasks in the order of their times. *)
Definition time_le (a b : Task.t Cb) : Prop := Task.time a <= Task.time b.

(** A run of [schedule_task(delay, callback)] calls. *)
Definition schedules (new : list (Z * Cb)) (s : Arena.State Cb Chr) : Arena.State Cb Chr :=
  fold_left (fun s dc => Arena.schedule_task (fst dc) (snd dc) s) new s.

(** The callbacks of the simulation touch the arena through [schedule_task] only,
    and with delays that are not negative (the jobs use [ANIMATION_LOCK]). *)
Definition schedules_ahead (invoke : Cb -> Arena.State Cb Chr -> Arena.State Cb Chr)
  : Prop :=
  forall c s, exists new,
    Forall (fun dc => 0 <= fst dc) new
    /\ Arena.arena (invoke c s) = Arena.arena (schedules new s).
End TaskVocabulary.

(** Four tasks for the same time, scheduled in the order 1, 2, 3, 4. *)
Definition same_time_tasks : Arena.State nat unit :=
  Eval vm_compute in
  schedules [(0, 1%nat); (0, 2%nat); (0, 3%nat); (0, 4%nat)]
            (Arena.mkState (Arena.init 0) ∅).

(** Tasks of several times, all but one due at 1000; callback 0 schedules one more
    task for the current time. *)
Definition mixed_tasks : Arena.State nat unit :=
  Eval vm_compute in
  Arena.set_current_time 1000
    (schedules [(300, 1%nat); (100, 0%nat); (200, 2%nat); (100, 3%nat); (2000, 4%nat)]
               (Arena.mkState (Arena.init 0) ∅)).

Definition chained (c : nat) (s : Arena.State nat unit) : Arena.State nat unit :=
  match c with
  | O => Arena.schedule_task 0 5%nat s
  | _ => s
  end.


(** ** Vocabulary of the further properties *)

Section ArenaVocabulary.
Context {Cb Chr : Type}.

(** Callbacks that leave the arena itself (queue, clock, lists) as it is. *)
Definition inert (invoke : Cb -> Arena.State Cb Chr -> Arena.State Cb Chr) : Prop :=
  forall c s, Arena.arena (invoke c s) = Arena.arena s.

(** Characters that never ask for a step and whose [step] leaves the arena as it
    is. *)
Definition passive (chr_calc_step_size : Ref -> Arena.State Cb Chr -> option Z)
    (chr_step : Z -> Ref -> Arena.State Cb Chr -> Arena.State Cb Chr) : Prop :=
  (forall r s, chr_calc_step_size r s = None)
  /\ (forall d r s, Arena.arena (chr_step d r s) = Arena.arena s).

(** What [_calc_step_size] chooses from: the time to the first task of the queue
    and the answers of the players and of the enemies. *)
Definition step_candidates (chr_calc_step_size : Ref -> Arena.State Cb Chr -> option Z)
    (s : Arena.State Cb Chr) : list (option Z) :=
  match Arena.task_queue (Arena.arena s) with
  | event :: _ => [Some (Task.time event - Arena.current_time (Arena.arena s))]
  | [] => []
  end
  ++ map (fun r => chr_calc_step_size r s) (Arena.players (Arena.arena s))
  ++ map (fun r => chr_calc_step_size r s) (Arena.enemies (Arena.arena s)).
End ArenaVocabulary.

(** [answer] is the least of the candidates that are not [None]. *)
Definition least_of (candidates : list (option Z)) (answer : option Z) : Prop :=
  match answer with
  | None => Forall (fun c => c = None) candidates
  | Some z =>
      In (Some z) candidates
      /\ Forall (fun c => match c with Some y => z <= y | None => True end) candidates
  end.

(** Five tasks scheduled at time 0. *)
Definition timed_tasks : Arena.State nat unit :=
  Eval vm_compute in
  schedules [(300, 1%nat); (100, 2%nat); (200, 3%nat); (100, 4%nat); (2000, 5%nat)]
            (Arena.mkState (Arena.init 0) ∅).

(** The same, 1000 ms later. *)
Definition timed_tasks_late : Arena.State nat unit :=
  Eval vm_compute in Arena.set_current_time 1000 timed_tasks.

Definition no_effect {Cb S : Type} (_ : Cb) (s : S) : S := s.
Definition never_asks {S : Type} (_ : Ref) (_ : S) : option Z := None.
Definition stands_still {S : Type} (_ : Z) (_ : Ref) (s : S) : S := s.

(** Waiting through successive steps. *)
Definition waits {Cb : Type} (invoke : Cb -> ActionManager.t Cb -> ActionManager.t Cb)
    (sizes : list Z) (am : ActionManager.t Cb) : ActionManager.t Cb :=
  fold_left (fun am d => wait invoke d am) sizes am.

(** No speed modifier changes the recast time of the action: it is not of the
    global cooldown group, or the speed multiplier is 1 and the recast time is a
    whole number a float holds exactly. *)
Definition unmodified_recast (speed : SpeedFlags.t -> Q) (act : PvEAction.t) : Prop :=
  PvEAction.cooldown_group act <> RECAST_GROUP_GCD
  \/ ((speed SpeedFlags.RECAST == 1)%Q /\ Z.abs (PvEAction.recast_time act) < 2 ^ 53).

(** The recast time then: in whole tens of milliseconds for the global cooldown
    group. *)
Definition plain_recast_time (act : PvEAction.t) : Z :=
  if PvEAction.cooldown_group act =? RECAST_GROUP_GCD
  then PvEAction.recast_time act / 10 * 10
  else PvEAction.recast_time act.

(** What is done to a manager that casts nothing: actions are registered,
    cooldowns started, time passes. *)
Inductive ManagerOp : Type :=
  | OpRegister (action : PvEAction.t)
  | OpStartCooldown (action_id : ActionID.t)
  | OpWait (step_size : Z).

Definition manager_op {Cb : Type} (invoke : Cb -> ActionManager.t Cb -> ActionManager.t Cb)
    (speed : SpeedFlags.t -> Q) (o : ManagerOp) (am : ActionManager.t Cb)
  : ActionManager.t Cb :=
  match o with
  | OpRegister action => ActionManager.register_action action am
  | OpStartCooldown action_id => ActionManager.start_cooldown speed action_id am
  | OpWait step_size => wait invoke step_size am
  end.

Definition manager_ops {Cb : Type} (invoke : Cb -> ActionManager.t Cb -> ActionManager.t Cb)
    (speed : SpeedFlags.t -> Q) (ops : list ManagerOp) (am : ActionManager.t Cb)
  : ActionManager.t Cb :=
  fold_left (fun am o => manager_op invoke speed o am) ops am.

(** An action of one charge and 60 s of recast, and the same with no charge. *)
Definition one_charge_action : PvEAction.t :=
  {| PvEAction.action_id := ActionID.IKISHOTEN;
     PvEAction.name := "Ikishoten";
     PvEAction.cast_time := 0;
     PvEAction.recast_time := 60000;
     PvEAction.cooldown_group := 20;
     PvEAction.additional_recast_time := 0;
     PvEAction.additional_cooldown_group := 0;
     PvEAction.max_charges := 1;
     PvEAction.animation_lock := ANIMATION_LOCK |}.

(** Hakaze, an action of the global cooldown group. *)
Definition global_cooldown_action : PvEAction.t :=
  {| PvEAction.action_id := ActionID.HAKAZE;
     PvEAction.name := "Hakaze";
     PvEAction.cast_time := 0;
     PvEAction.recast_time := 2500;
     PvEAction.cooldown_group := RECAST_GROUP_GCD;
     PvEAction.additional_recast_time := 0;
     PvEAction.additional_cooldown_group := 0;
     PvEAction.max_charges := 1;
     PvEAction.animation_lock := ANIMATION_LOCK |}.

Definition global_cooldown_registered : ActionManager.t unit :=
  Eval vm_compute in
  ActionManager.register_action global_cooldown_action ActionManager.init.

Definition one_charge_registered : ActionManager.t unit :=
  Eval vm_compute in ActionManager.register_action one_charge_action ActionManager.init.

(** A manager in a combo window of 30 s, 700 ms into an animation lock. *)
Definition in_combo : ActionManager.t unit :=
  Eval vm_compute in
  ActionManager.set_animation_lock 700
    (ActionManager.start_combo ActionID.HAKAZE 30000 one_charge_registered).

(** The stacks a sequence of operations adds are not negative. *)
Definition adds_not_negative (ops : list StatusOp) : Prop :=
  Forall (fun o => match o with OpAddStack n => 0 <= n | _ => True end) ops.

(** Successive steps of a status. *)
Definition status_steps (sizes : list Z) (self : StatusEffect.t) : StatusEffect.t :=
  fold_left (fun s d => StatusEffect.step d s) sizes self.

(** A status of three stacks at most, holding one; a buff of 15 s; a manager holding
    both, the first one 14 s old. *)
Definition stacked_status : StatusEffect.t :=
  StatusEffect.init 1001 ActionID.MEIKYO_SHISUI (Some 1%nat) (Some 1%nat) 20000 true 1 3 true.
Definition plain_status : StatusEffect.t :=
  StatusEffect.init 1002 ActionID.FUKO (Some 1%nat) (Some 1%nat) 15000 false 0 0 true.
Definition two_statuses : StatusManager.t :=
  Eval vm_compute in
  <[1001 := StatusEffect.step 14000 stacked_status]> (<[1002 := plain_status]> ∅).
Definition never_raises (_ : Ref) (a : ActionID.t) (p : Q) (_ : DamageType.t)
  : PyResult DamageResult.t :=
  DamageResult.init a p (1%Q, 100%Q, 100%Q) (0%Q, 0%Q, 0%Q) (0%Q, 0%Q, 0%Q) (0%Q, 0%Q, 0%Q).

(** The calls that assign to a gauge: every method of [SamuraiGauge] but the
    queries [calc_step_size], [has_sen], [count_sen] and [check_tsubamegaeshi]. *)
Inductive GaugeOp : Type :=
  | GReset
  | GStep (step_size : Z)
  | GAddKenki (amount : Z) (allow_overflow : bool)
  | GSpendKenki (amount : Z)
  | GAddSen (sen_flag : Sen.t)
  | GRemoveSen (sen_flag : Sen.t)
  | GClearSen
  | GAddMeditation (stacks : Z)
  | GUseMeditation
  | GSetTsubamegaeshi (action_id : ActionID.t) (duration : Z)
  | GResetTsubamegaeshi
  | GSetKaeshiNamikiriReady (duration : Z)
  | GResetKaeshiNamikiri.

Definition gauge_op (o : GaugeOp) (g : SamuraiGauge.t) : SamuraiGauge.t :=
  match o with
  | GReset => SamuraiGauge.reset g
  | GStep step_size => SamuraiGauge.step step_size g
  | GAddKenki amount allow_overflow => SamuraiGauge.add_kenki amount allow_overflow g
  | GSpendKenki amount => snd (SamuraiGauge.spend_kenki amount g)
  | GAddSen sen_flag => SamuraiGauge.add_sen sen_flag g
  | GRemoveSen sen_flag => SamuraiGauge.remove_sen sen_flag g
  | GClearSen => SamuraiGauge.clear_sen g
  | GAddMeditation stacks => SamuraiGauge.add_meditation stacks g
  | GUseMeditation => snd (SamuraiGauge.use_meditation g)
  | GSetTsubamegaeshi action_id duration => SamuraiGauge.set_tsubamegaeshi action_id duration g
  | GResetTsubamegaeshi => SamuraiGauge.reset_tsubamegaeshi g
  | GSetKaeshiNamikiriReady duration => SamuraiGauge.set_kaeshi_namikiri_ready duration g
  | GResetKaeshiNamikiri => SamuraiGauge.reset_kaeshi_namikiri g
  end.

Definition gauge_ops (ops : list GaugeOp) (g : SamuraiGauge.t) : SamuraiGauge.t :=
  fold_left (fun g o => gauge_op o g) ops g.

(** The arguments are as the job passes them: amounts and stacks are not
    negative, flags are flags of [Sen]. *)
Definition gauge_op_sound (o : GaugeOp) : Prop :=
  match o with
  | GAddKenki amount _ => 0 <= amount
  | GSpendKenki amount => 0 <= amount
  | GAddMeditation stacks => 0 <= stacks
  | GAddSen sen_flag | GRemoveSen sen_flag => 0 <= sen_flag <= 7
  | _ => True
  end.

(** Kenki is added with [allow_overflow=False] only. *)
Definition gauge_op_capped (o : GaugeOp) : Prop :=
  match o with
  | GAddKenki _ allow_overflow => allow_overflow = false
  | _ => True
  end.

(** One of the three Sen. *)
Definition single_sen (f : Sen.t) : Prop := f = Sen.SETSU \/ f = Sen.GETSU \/ f = Sen.KA.

Definition gauge_steps (sizes : list Z) (g : SamuraiGauge.t) : SamuraiGauge.t :=
  fold_left (fun g d => SamuraiGauge.step d g) sizes g.

(** A gauge holding Setsu and Ka and 95 Kenki. *)
Definition two_sen_gauge : SamuraiGauge.t :=
  Eval vm_compute in
  gauge_ops [GAddKenki 95 true; GAddSen Sen.SETSU; GAddSen Sen.KA] SamuraiGauge.init.

(** Proof steps that recur: the dicts of a manager after an assignment, and the
    eight values of a small number. *)
Ltac tidy_cooldowns H :=
  repeat (progress (cbn [ActionManager.actions ActionManager.cooldowns
                         ActionManager.set_cooldowns];
                    rewrite ?H, ?lookup_insert_eq)).

Ltac eight_cases lem H :=
  apply lem in H;
  destruct H as [->|[->|[->|[->|[->|[->|[->| ->]]]]]]].

(** An entry as [add_action(action_id, time)] makes it, and a rotation as
    [__init__] and such calls leave it. *)
Definition plain_entry {Cond : Type} (a : RotationAction.t Cond) : Prop :=
  RotationAction.condition a = None
  /\ RotationAction.target_type a = TargetType.CURRENT
  /\ RotationAction.target_id a = None.

Definition plain_rotation {Cond : Type} (r : Rotation.t Cond) : Prop :=
  Rotation.owner r = None /\ Rotation.current_index r = 0
  /\ Rotation.enabled r = false /\ Rotation.last_cast_time r = None
  /\ Rotation.gcd_used r = None /\ Forall plain_entry (Rotation.actions r).
(** * Properties *)

(** ** [Arena.get_player] *)

Section GetPlayer.
Context {Cb Chr : Type}.

Lemma py_in_int_objects (x : Z) (refs : list Ref) :
  py_in (PyInt x) (map PyObj refs) = false.
Proof. induction refs as [|r refs IH]; simpl; auto. Qed.

(** C10. Whatever players the arena holds and whatever integer is asked for,
    [Arena.get_player] answers [None]: the membership test compares the integer
    with the player objects, never with their [entity_id]. *)
Theorem get_player_always_None (s : Arena.State Cb Chr) (player_id : Z) :
  Arena.get_player player_id s = Ret None.
Proof.
  unfold Arena.get_player. now rewrite py_in_int_objects.
Qed.
End GetPlayer.

(** ** [Arena.step] *)

Section ArenaLoop.
Context {Cb Chr : Type}.
Variable invoke : Cb -> Arena.State Cb Chr -> Arena.State Cb Chr.
Variable chr_calc_step_size : Ref -> Arena.State Cb Chr -> option Z.
Variable chr_step : Z -> Ref -> Arena.State Cb Chr -> Arena.State Cb Chr.

Lemma process_events_idle (fuel : nat) (s : Arena.State Cb Chr) :
  Arena.task_queue (Arena.arena s) = [] ->
  Arena._process_events invoke fuel s = ([], Returned s).
Proof. intros Hq. destruct fuel; cbn; now rewrite Hq. Qed.

Lemma step_loop_S (fuel : nat) (remaining_time : Z) (s : Arena.State Cb Chr) :
  Arena.step_loop invoke chr_calc_step_size chr_step (S fuel) remaining_time s
  = match snd (Arena._process_events invoke (S fuel) s) with
    | Returned s =>
        if remaining_time <=? 0 then Returned s
        else
          let step_size := Arena.next_step_size chr_calc_step_size remaining_time s in
          Arena.step_loop invoke chr_calc_step_size chr_step fuel
            (remaining_time - step_size)
            (Arena.advance chr_step step_size s)
    | Raised e => Raised e
    | Running s => Running s
    end.
Proof. reflexivity. Qed.

Lemma step_loop_done (fuel : nat) (remaining_time : Z) (s : Arena.State Cb Chr) :
  Arena.task_queue (Arena.arena s) = [] ->
  remaining_time <= 0 ->
  Arena.step_loop invoke chr_calc_step_size chr_step fuel remaining_time s = Returned s.
Proof.
  intros Hq Hr.
  destruct fuel; cbn [Arena.step_loop]; rewrite (process_events_idle _ s Hq); cbn [snd];
    now rewrite (proj2 (Z.leb_le _ _) Hr).
Qed.
End ArenaLoop.

Lemma stuck_step_size :
  Arena.next_step_size World.calc_step_size 700 stuck_arena1 = 0.
Proof. vm_compute. reflexivity. Qed.

Lemma stuck_advance :
  Arena.advance (World.step no_callbacks) 0 stuck_arena1 = stuck_arena1.
Proof. vm_compute. reflexivity. Qed.

Lemma first_step_size :
  Arena.next_step_size World.calc_step_size 700 stuck_arena0 = 700.
Proof. vm_compute. reflexivity. Qed.

Lemma first_advance :
  Arena.advance (World.step no_callbacks) 700 stuck_arena0 = stuck_arena1.
Proof. vm_compute. reflexivity. Qed.

(** C1. The first [step(700)] returns, with the clock 700 ms further; the second
    [step(700)] never returns: [ActionManager.calc_step_size] reports
    [last_combo_time - casting_time = 700 - 700 = 0], the arena advances by 0, and
    the state it reaches is the state it started from, with all 700 ms still to
    go. *)
Theorem arena_step_never_returns :
  (forall fuel, arena_step (S fuel) 700 stuck_arena0 = Returned stuck_arena1)
  /\ Arena.current_time (Arena.arena stuck_arena1)
     = Arena.current_time (Arena.arena stuck_arena0) + 700
  /\ (forall fuel, arena_step fuel 700 stuck_arena1 = Running stuck_arena1).
Proof.
  split; [|split].
  - intros fuel. unfold arena_step, Arena.step.
    rewrite step_loop_S, process_events_idle by reflexivity.
    cbn [snd]. change (700 <=? 0) with false. cbv iota zeta.
    rewrite first_step_size, first_advance.
    now apply step_loop_done.
  - reflexivity.
  - intros fuel. unfold arena_step, Arena.step.
    induction fuel as [|fuel IH].
    + reflexivity.
    + rewrite step_loop_S, process_events_idle by reflexivity.
      cbn [snd]. change (700 <=? 0) with false. cbv iota zeta.
      rewrite stuck_step_size, stuck_advance. exact IH.
Qed.

(** ** [heapq]: the order of the task queue *)

Section HeapTheory.
Context {A : Type} (key : A -> Z).
Implicit Types (h : list A) (pos i : nat) (x y v : A).

Lemma parent_lt i : (0 < i)%nat -> (parent i < i)%nat.
Proof. unfold parent. lia. Qed.

(** Writing the sifted item into the hole closes it. *)
Lemma close_hole h pos v :
  (pos < length h)%nat ->
  ordered_but key h pos ->
  children_above key h pos v ->
  (forall y, (0 < pos)%nat -> h !! parent pos = Some y -> key y <= key v) ->
  heap_ordered key (<[pos := v]> h).
Proof.
  intros Hlen Hbut Hch Hup i x y Hi Hx Hy.
  apply list_lookup_insert_Some in Hx. apply list_lookup_insert_Some in Hy.
  destruct Hx as [(<- & <- & _)|(Hne & Hx)]; destruct Hy as [(Hp & <- & _)|(Hnp & Hy)].
  - pose proof (parent_lt pos Hi). lia.
  - now apply Hup.
  - apply (Hch i x); auto.
  - apply (Hbut i x y); auto.
Qed.

Lemma siftdown_loop_ordered (n : nat) h pos v :
  (pos <= n)%nat ->
  (pos < length h)%nat ->
  ordered_but key h pos ->
  grand_ordered key h pos ->
  children_above key h pos v ->
  heap_ordered key (Heapq.siftdown_loop (key_lt key) n h 0 pos v).
Proof.
  revert h pos. induction n as [|n IH]; intros h pos Hn Hlen Hbut Hgr Hch.
  - cbn. apply close_hole; auto. intros y Hpos. lia.
  - cbn [Heapq.siftdown_loop]. destruct (decide (0 < pos)%nat) as [Hpos|Hpos].
    2:{ apply close_hole; auto. intros y Hp. lia. }
    fold (parent pos).
    pose proof (parent_lt pos Hpos) as Hpl.
    destruct (h !! parent pos) as [P|] eqn:HP.
    2:{ apply lookup_ge_None in HP. lia. }
    unfold key_lt at 1. destruct (Z.ltb_spec (key v) (key P)) as [Hlt|Hge].
    + apply IH.
      * lia.
      * rewrite length_insert. lia.
      * (* ordered_but, the hole one level up *)
        intros i x y Hi Hne Hnp Hx Hy.
        apply list_lookup_insert_Some in Hx. apply list_lookup_insert_Some in Hy.
        destruct Hx as [(<- & <- & _)|(Hne' & Hx)]; [congruence|].
        destruct Hy as [(Hp & <- & _)|(Hnp' & Hy)].
        -- apply (Hgr i x P); auto.
        -- apply (Hbut i x y); auto.
      * (* grand_ordered *)
        intros c x y Hpp Hc Hcp Hx Hy.
        apply list_lookup_insert_Some in Hx. apply list_lookup_insert_Some in Hy.
        pose proof (parent_lt (parent pos) Hpp) as Hppl.
        destruct Hy as [(Hp & _ & _)|(_ & Hy)]; [lia|].
        assert (Hpy : key y <= key P).
        { apply (Hbut (parent pos) P y); auto; lia. }
        destruct Hx as [(<- & <- & _)|(Hne' & Hx)]; [exact Hpy|].
        assert (key P <= key x); [|lia].
        apply (Hbut c x P); auto; try lia. now rewrite Hcp.
      * (* children_above *)
        intros c x Hc Hcp Hx.
        apply list_lookup_insert_Some in Hx.
        destruct Hx as [(<- & <- & _)|(Hne' & Hx)]; [lia|].
        assert (key P <= key x); [|lia].
        apply (Hbut c x P); auto; try lia. now rewrite Hcp.
    + apply close_hole; auto. intros y _ Hy. rewrite HP in Hy. inversion Hy; subst y. lia.
Qed.

Lemma heap_ordered_nil : heap_ordered key [].
Proof. intros i x y _ Hx. discriminate. Qed.

Lemma elem_of_insert h pos v x : x ∈ <[pos := v]> h -> x = v \/ x ∈ h.
Proof.
  intros (i & Hi)%list_elem_of_lookup. apply list_lookup_insert_Some in Hi.
  destruct Hi as [(_ & -> & _)|(_ & Hi)]; [now left|right].
  now apply list_elem_of_lookup_2 in Hi.
Qed.

Lemma siftdown_loop_elem (n : nat) h pos v x :
  x ∈ Heapq.siftdown_loop (key_lt key) n h 0 pos v -> x = v \/ x ∈ h.
Proof.
  revert h pos. induction n as [|n IH]; intros h pos; cbn [Heapq.siftdown_loop].
  - apply elem_of_insert.
  - destruct (decide (0 < pos)%nat); [|apply elem_of_insert].
    destruct (h !! ((pos - 1) / 2)%nat) as [P|] eqn:HP; [|now right].
    destruct (key_lt key v P); [|apply elem_of_insert].
    intros [->|Hx]%IH; [now left|].
    apply elem_of_insert in Hx as [->|Hx]; right; [|exact Hx].
    now apply list_elem_of_lookup_2 in HP.
Qed.

(** [heappush] keeps the order and adds the item, nothing else. *)
Lemma heappush_ordered h v :
  heap_ordered key h -> heap_ordered key (Heapq.heappush (key_lt key) h v).
Proof.
  intros Hh. unfold Heapq.heappush, Heapq._siftdown.
  rewrite (list_lookup_middle h [] v (length h) eq_refl).
  apply siftdown_loop_ordered.
  - lia.
  - rewrite length_app. cbn. lia.
  - intros i x y Hi Hne Hnp Hx Hy.
    apply lookup_snoc_Some in Hx as [(_ & Hx)|(-> & _)]; [|congruence].
    apply lookup_snoc_Some in Hy as [(_ & Hy)|(Hp & _)]; [|congruence].
    apply (Hh i x y); auto.
  - intros c x y Hpos Hc Hcp Hx Hy.
    apply lookup_lt_Some in Hx. rewrite length_app in Hx. cbn in Hx.
    unfold parent in Hcp. lia.
  - intros c x Hc Hcp Hx.
    apply lookup_lt_Some in Hx. rewrite length_app in Hx. cbn in Hx.
    unfold parent in Hcp. lia.
Qed.

Lemma heappush_elem h v x :
  x ∈ Heapq.heappush (key_lt key) h v -> x = v \/ x ∈ h.
Proof.
  unfold Heapq.heappush, Heapq._siftdown.
  rewrite (list_lookup_middle h [] v (length h) eq_refl).
  intros [->|Hx]%siftdown_loop_elem; [now left|].
  apply elem_of_app in Hx as [Hx|Hx]; [now right|].
  apply list_elem_of_singleton in Hx. now left.
Qed.

Lemma children_of pos i :
  (0 < i)%nat -> parent i = pos <-> (i = 2 * pos + 1 \/ i = 2 * pos + 2)%nat.
Proof. unfold parent. lia. Qed.

(** The child [_siftup] moves up is the smaller of the children. *)
Lemma smaller_child h pos (lchild : A) :
  h !! (2 * pos + 1)%nat = Some lchild ->
  let m :=
    match h !! (2 * pos + 1 + 1)%nat with
    | Some rchild =>
        if bool_decide (2 * pos + 1 + 1 < length h)%nat && negb (key_lt key lchild rchild)
        then (2 * pos + 1 + 1)%nat else (2 * pos + 1)%nat
    | None => (2 * pos + 1)%nat
    end in
  exists c,
    h !! m = Some c
    /\ parent m = pos /\ (pos < m)%nat
    /\ forall i x, (0 < i)%nat -> parent i = pos -> h !! i = Some x -> key c <= key x.
Proof.
  intros Hl m. subst m.
  destruct (h !! (2 * pos + 1 + 1)%nat) as [rchild|] eqn:Hr.
  - pose proof (lookup_lt_Some _ _ _ Hr) as Hlen.
    rewrite (bool_decide_eq_true_2 _ Hlen). cbn [andb]. unfold key_lt.
    destruct (Z.ltb_spec (key lchild) (key rchild)) as [Hlt|Hge]; cbn [negb].
    + exists lchild. split; [exact Hl|]. split; [unfold parent; lia|]. split; [lia|].
      intros i x Hi Hp Hx. apply children_of in Hp as [->| ->]; auto.
      * rewrite Hl in Hx. inversion Hx; subst. lia.
      * replace (2 * pos + 2)%nat with (2 * pos + 1 + 1)%nat in Hx by lia.
        rewrite Hr in Hx. inversion Hx; subst. lia.
    + exists rchild. split; [exact Hr|]. split; [unfold parent; lia|]. split; [lia|].
      intros i x Hi Hp Hx. apply children_of in Hp as [->| ->]; auto.
      * rewrite Hl in Hx. inversion Hx; subst. lia.
      * replace (2 * pos + 2)%nat with (2 * pos + 1 + 1)%nat in Hx by lia.
        rewrite Hr in Hx. inversion Hx; subst. lia.
  - exists lchild. split; [exact Hl|]. split; [unfold parent; lia|]. split; [lia|].
    intros i x Hi Hp Hx. apply children_of in Hp as [->| ->]; auto.
    + rewrite Hl in Hx. inversion Hx; subst. lia.
    + replace (2 * pos + 2)%nat with (2 * pos + 1 + 1)%nat in Hx by lia. congruence.
Qed.

Lemma siftup_loop_spec (n : nat) h pos h' leaf :
  (length h <= n + pos)%nat ->
  (pos < length h)%nat ->
  ordered_but key h pos ->
  grand_ordered key h pos ->
  Heapq.siftup_loop (key_lt key) n h (length h) pos = (h', leaf) ->
  length h' = length h
  /\ (leaf < length h)%nat
  /\ (length h <= 2 * leaf + 1)%nat
  /\ ordered_but key h' leaf
  /\ grand_ordered key h' leaf
  /\ (forall x, x ∈ h' -> x ∈ h).
Proof.
  revert h pos. induction n as [|n IH]; intros h pos Hn Hlen Hbut Hgr Hrun; [lia|].
  cbn [Heapq.siftup_loop] in Hrun.
  destruct (decide (2 * pos + 1 < length h)%nat) as [Hc|Hc].
  2:{ inversion Hrun; subst. repeat split; auto; lia. }
  destruct (h !! (2 * pos + 1)%nat) as [lchild|] eqn:Hl.
  2:{ apply lookup_ge_None in Hl. lia. }
  destruct (smaller_child h pos lchild Hl) as (c & Hm & Hpm & Hlt & Hmin).
  cbv zeta in Hm, Hpm, Hlt.
  match type of Hm with
  | h !! ?m = _ => set (mm := m) in *
  end.
  rewrite Hm in Hrun.
  pose proof (lookup_lt_Some _ _ _ Hm) as Hmlen.
  rewrite <- (length_insert h pos c) in Hrun.
  apply IH in Hrun.
  - rewrite !length_insert in Hrun.
    destruct Hrun as (H1 & H2 & H3 & H4 & H5 & H6).
    repeat split; auto.
    intros x Hx. apply H6 in Hx. apply elem_of_insert in Hx as [->|Hx]; auto.
    now apply list_elem_of_lookup_2 in Hm.
  - rewrite length_insert. lia.
  - rewrite length_insert. lia.
  - (* ordered_but, the hole one level down *)
    intros i x y Hi Hne Hnp Hx Hy.
    apply list_lookup_insert_Some in Hx. apply list_lookup_insert_Some in Hy.
    destruct Hx as [(<- & <- & _)|(Hne' & Hx)]; destruct Hy as [(Hp & <- & _)|(Hnp' & Hy)].
    + pose proof (parent_lt pos Hi). lia.
    + apply (Hgr mm c y); auto; lia.
    + apply (Hmin i x); auto.
    + apply (Hbut i x y); auto.
  - (* grand_ordered *)
    intros k x y Hpos Hk Hkp Hx Hy.
    rewrite Hpm in Hy.
    rewrite list_lookup_insert_eq in Hy by lia. inversion Hy; subst y.
    assert (k <> pos) by (pose proof (parent_lt k Hk); lia).
    rewrite list_lookup_insert_ne in Hx by congruence.
    apply (Hbut k x c); auto; try lia. now rewrite Hkp.
Qed.

Lemma siftup_ordered h :
  (0 < length h)%nat ->
  ordered_but key h 0 ->
  heap_ordered key (Heapq._siftup (key_lt key) h 0)
  /\ (forall x, x ∈ Heapq._siftup (key_lt key) h 0 -> x ∈ h).
Proof.
  intros Hlen Hbut. unfold Heapq._siftup.
  destruct (h !! 0%nat) as [v|] eqn:Hv.
  2:{ apply lookup_ge_None in Hv. lia. }
  destruct (Heapq.siftup_loop (key_lt key) (length h) h (length h) 0) as [h' leaf] eqn:Hrun.
  apply siftup_loop_spec in Hrun; [|lia|lia|exact Hbut|intros c x y Hpos; lia].
  destruct Hrun as (Hl' & Hleaf & Hbottom & Hbut' & _ & Hsub).
  unfold Heapq._siftdown.
  rewrite list_lookup_insert_eq by lia.
  split.
  - apply siftdown_loop_ordered.
    + lia.
    + rewrite length_insert. lia.
    + intros i x y Hi Hne Hnp Hx Hy.
      rewrite list_lookup_insert_ne in Hx by congruence.
      rewrite list_lookup_insert_ne in Hy by congruence.
      apply (Hbut' i x y); auto.
    + intros c x y Hpos Hc Hcp Hx Hy.
      apply lookup_lt_Some in Hx. rewrite length_insert in Hx.
      apply children_of in Hcp; lia.
    + intros c x Hc Hcp Hx.
      apply lookup_lt_Some in Hx. rewrite length_insert in Hx.
      apply children_of in Hcp; lia.
  - intros x [->|Hx]%siftdown_loop_elem.
    + now apply list_elem_of_lookup_2 in Hv.
    + apply elem_of_insert in Hx as [->|Hx]; [now apply list_elem_of_lookup_2 in Hv|].
      now apply Hsub.
Qed.

(** [heappop] keeps the order and brings in no item. *)
Lemma heappop_ordered h x h' :
  heap_ordered key h ->
  Heapq.heappop (key_lt key) h = Some (x, h') ->
  heap_ordered key h' /\ (forall y, y ∈ h' -> y ∈ h).
Proof.
  intros Hh. unfold Heapq.heappop.
  destruct (reverse h) as [|lastelt rest_rev] eqn:Hrev; [discriminate|].
  assert (Hsplit : h = reverse rest_rev ++ [lastelt]).
  { rewrite <- (reverse_involutive h), Hrev. apply reverse_cons. }
  destruct (reverse rest_rev) as [|returnitem tl] eqn:Hfront.
  - intros E. inversion E; subst x h'. split; [apply heap_ordered_nil|].
    intros y Hy. inversion Hy.
  - intros E. inversion E; subst x h'. clear E.
    destruct (siftup_ordered (<[0%nat := lastelt]> (returnitem :: tl))) as [Hord Hsub].
    + cbn. lia.
    + intros i a b Hi Hne Hnp Ha Hb.
      rewrite list_lookup_insert_ne in Ha by congruence.
      rewrite list_lookup_insert_ne in Hb by congruence.
      apply (Hh i a b Hi); rewrite Hsplit; now apply lookup_app_l_Some.
    + split; [exact Hord|].
      intros y Hy. apply Hsub in Hy. rewrite Hsplit.
      apply elem_of_insert in Hy as [->|Hy]; apply elem_of_app; [right|now left].
      now apply list_elem_of_singleton.
Qed.

(** In an ordered heap the first item is the least. *)
Lemma root_minimal h r :
  heap_ordered key h -> h !! 0%nat = Some r -> forall x, x ∈ h -> key r <= key x.
Proof.
  intros Hh Hr x (i & Hi)%list_elem_of_lookup. revert x Hi.
  induction i as [i IH] using lt_wf_ind. intros x Hi.
  destruct (decide (i = 0%nat)) as [->|Hne].
  - rewrite Hr in Hi. inversion Hi. lia.
  - assert (Hpos : (0 < i)%nat) by lia.
    pose proof (parent_lt i Hpos) as Hp.
    destruct (lookup_lt_is_Some_2 h (parent i)) as [y Hy].
    { apply lookup_lt_Some in Hi. lia. }
    specialize (IH (parent i) Hp y Hy).
    specialize (Hh i x y Hpos Hi Hy). lia.
Qed.

Lemma is_heap_ordered h : is_heap key h = true -> heap_ordered key h.
Proof.
  unfold is_heap. intros Hb i x y Hi Hx Hy.
  rewrite forallb_forall in Hb. specialize (Hb i).
  rewrite Hx, Hy in Hb. apply Z.leb_le, Hb, in_seq.
  apply lookup_lt_Some in Hx. lia.
Qed.
End HeapTheory.


(** ** [heapq]: what is in the queue *)

Section HeapContents.
Context {A : Type} (lt : A -> A -> bool).
Implicit Types (h : list A) (pos i j : nat) (x v w : A).

Lemma insert_swap_head (t : list A) j (a v : A) :
  (j < length t)%nat -> v :: <[j := a]> t ≡ₚ a :: <[j := v]> t.
Proof.
  revert j. induction t as [|b t IH]; intros [|j] Hj; cbn in *; try lia.
  - apply perm_swap.
  - rewrite (perm_swap b v), (IH j) by lia. apply perm_swap.
Qed.

(** Moving the item at [i] into the hole at [j] and filling [i] is filling [j]. *)
Lemma insert_swap_perm h i j (p v : A) :
  h !! i = Some p -> i <> j -> (j < length h)%nat ->
  <[i := v]> (<[j := p]> h) ≡ₚ <[j := v]> h.
Proof.
  revert i j. induction h as [|a t IH]; intros [|i] [|j] Hi Hne Hj; cbn in *;
    try lia; try discriminate.
  - inversion Hi; subst a. apply insert_swap_head. lia.
  - rewrite <- (insert_swap_head t i p v) by (apply lookup_lt_Some in Hi; lia).
    now rewrite (list_insert_id t i p Hi).
  - apply perm_skip, IH; auto; lia.
Qed.

Lemma siftdown_loop_perm (n : nat) :
  forall h start pos v,
    (pos < length h)%nat ->
    Heapq.siftdown_loop lt n h start pos v ≡ₚ <[pos := v]> h.
Proof.
  induction n as [|n IH]; intros h start pos v Hpos; cbn [Heapq.siftdown_loop].
  - reflexivity.
  - destruct (decide (start < pos)%nat) as [Hs|]; [|reflexivity].
    assert (Hp : ((pos - 1) / 2 < pos)%nat) by lia.
    destruct (lookup_lt_is_Some_2 h ((pos - 1) / 2)) as [p Hlook]; [lia|].
    rewrite Hlook. destruct (lt v p); [|reflexivity].
    rewrite IH by (rewrite length_insert; lia).
    apply insert_swap_perm; auto; lia.
Qed.

Lemma heappush_perm h v : Heapq.heappush lt h v ≡ₚ v :: h.
Proof.
  unfold Heapq.heappush, Heapq._siftdown.
  rewrite (list_lookup_middle h [] v (length h) eq_refl).
  rewrite siftdown_loop_perm by (rewrite length_app; cbn; lia).
  rewrite (list_insert_id (h ++ [v]) (length h) v)
    by apply (list_lookup_middle h [] v (length h) eq_refl).
  symmetry. apply Permutation_cons_append.
Qed.

Lemma siftup_loop_perm (n : nat) :
  forall h endpos pos h' leaf,
    (pos < length h)%nat ->
    Heapq.siftup_loop lt n h endpos pos = (h', leaf) ->
    (leaf < length h')%nat /\ forall w, <[leaf := w]> h' ≡ₚ <[pos := w]> h.
Proof.
  induction n as [|n IH]; intros h endpos pos h' leaf Hpos; cbn [Heapq.siftup_loop].
  - intros [= <- <-]. split; [lia|reflexivity].
  - destruct (decide (2 * pos + 1 < endpos)%nat); [|intros [= <- <-]; split; [lia|reflexivity]].
    destruct (h !! (2 * pos + 1)%nat) as [lchild|] eqn:Hl;
      [|intros [= <- <-]; split; [lia|reflexivity]].
    match goal with
    | |- context [h !! ?m] =>
        lazymatch m with
        | context [negb] => set (child := m)
        end
    end.
    assert (Hchild : (pos < child)%nat).
    { subst child. destruct (h !! (2 * pos + 1 + 1)%nat) as [rchild|];
        [destruct (bool_decide (2 * pos + 1 + 1 < endpos)%nat && negb (lt lchild rchild))|];
        lia. }
    destruct (h !! child) as [c|] eqn:Hc; [|intros [= <- <-]; split; [lia|reflexivity]].
    pose proof (lookup_lt_Some _ _ _ Hc) as Hclen.
    intros Hrun. apply IH in Hrun as [Hleaf Hperm]; [|rewrite length_insert; lia].
    split; [exact Hleaf|]. intros w. rewrite Hperm.
    apply insert_swap_perm; auto; lia.
Qed.

Lemma siftup_perm h : (0 < length h)%nat -> Heapq._siftup lt h 0 ≡ₚ h.
Proof.
  intros Hlen. unfold Heapq._siftup.
  destruct (h !! 0%nat) as [newitem|] eqn:Hroot; [|reflexivity].
  destruct (Heapq.siftup_loop lt (length h) h (length h) 0) as [h' leaf] eqn:Hrun.
  apply siftup_loop_perm in Hrun as [Hleaf Hperm]; [|exact Hlen].
  unfold Heapq._siftdown. rewrite list_lookup_insert_eq by exact Hleaf.
  rewrite siftdown_loop_perm by (rewrite length_insert; exact Hleaf).
  rewrite list_insert_insert_eq, Hperm.
  now rewrite (list_insert_id h 0 newitem Hroot).
Qed.

(** [heappop] answers the first item and keeps all the others. *)
Lemma heappop_perm h x h' :
  Heapq.heappop lt h = Some (x, h') -> h !! 0%nat = Some x /\ h ≡ₚ x :: h'.
Proof.
  unfold Heapq.heappop.
  destruct (reverse h) as [|lastelt rest_rev] eqn:Hrev; [discriminate|].
  assert (Hsplit : h = reverse rest_rev ++ [lastelt]).
  { rewrite <- (reverse_involutive h), Hrev. apply reverse_cons. }
  destruct (reverse rest_rev) as [|returnitem tl] eqn:Hfront.
  - intros [= <- <-]. rewrite Hsplit. split; reflexivity.
  - intros [= <- <-]. rewrite Hsplit. split; [reflexivity|].
    cbn [insert list_insert]. rewrite siftup_perm by (cbn; lia).
    cbn. apply perm_skip. symmetry. apply Permutation_cons_append.
Qed.

(** An item that is not less than the root leaves the root where it is. *)
Lemma siftdown_loop_root (n : nat) :
  forall h pos v r,
    h !! 0%nat = Some r -> lt v r = false -> (0 < pos)%nat ->
    Heapq.siftdown_loop lt n h 0 pos v !! 0%nat = Some r.
Proof.
  induction n as [|n IH]; intros h pos v r Hr Hlt Hpos; cbn [Heapq.siftdown_loop].
  - rewrite list_lookup_insert_ne by lia. exact Hr.
  - destruct (decide (0 < pos)%nat) as [_|]; [|lia].
    destruct (h !! ((pos - 1) / 2)%nat) as [p|] eqn:Hp; [|exact Hr].
    destruct (lt v p) eqn:Hvp.
    + destruct (decide (((pos - 1) / 2)%nat = 0%nat)) as [E|NE].
      * rewrite E in Hp. rewrite Hr in Hp. injection Hp as <-. congruence.
      * apply IH; [|exact Hlt|lia].
        rewrite list_lookup_insert_ne by lia. exact Hr.
    + rewrite list_lookup_insert_ne by lia. exact Hr.
Qed.

Lemma heappush_root h v r :
  h !! 0%nat = Some r -> lt v r = false -> Heapq.heappush lt h v !! 0%nat = Some r.
Proof.
  intros Hr Hlt. unfold Heapq.heappush, Heapq._siftdown.
  rewrite (list_lookup_middle h [] v (length h) eq_refl).
  apply siftdown_loop_root; [|exact Hlt|].
  - rewrite lookup_app_l; [exact Hr|]. apply lookup_lt_Some in Hr. exact Hr.
  - apply lookup_lt_Some in Hr. exact Hr.
Qed.
End HeapContents.
(** ** [Arena.schedule_task] and [Arena._process_events] *)

Section TaskOrder.
Context {Cb Chr : Type}.
Variable invoke : Cb -> Arena.State Cb Chr -> Arena.State Cb Chr.

Abbreviation queue s := (Arena.task_queue (Arena.arena s)).
Abbreviation now s := (Arena.current_time (Arena.arena s)).

Lemma siftdown_loop_length (lt : Task.t Cb -> Task.t Cb -> bool) (n : nat) :
  forall h start pos v, length (Heapq.siftdown_loop lt n h start pos v) = length h.
Proof.
  induction n as [|n IH]; intros h start pos v; cbn [Heapq.siftdown_loop].
  - apply length_insert.
  - destruct (decide (start < pos)%nat); [|apply length_insert].
    destruct (h !! _); [|reflexivity].
    destruct (lt v t); [|apply length_insert].
    rewrite IH. apply length_insert.
Qed.

Lemma heappush_length (lt : Task.t Cb -> Task.t Cb -> bool) h v :
  length (Heapq.heappush lt h v) = S (length h).
Proof.
  unfold Heapq.heappush, Heapq._siftdown.
  rewrite (list_lookup_middle h [] v (length h) eq_refl).
  rewrite siftdown_loop_length, length_app. cbn. lia.
Qed.

Lemma heappop_nonempty (lt : Task.t Cb -> Task.t Cb -> bool) h :
  (0 < length h)%nat -> Heapq.heappop lt h <> None.
Proof.
  intros Hlen. unfold Heapq.heappop.
  destruct (reverse h) as [|lastelt rest_rev] eqn:Hrev.
  - apply (f_equal length) in Hrev. rewrite length_reverse in Hrev. cbn in Hrev. lia.
  - now destruct (reverse rest_rev).
Qed.

(** A run of [schedule_task] calls with delays that are not negative. *)
Lemma schedules_spec (new : list (Z * Cb)) :
  forall s : Arena.State Cb Chr,
    Forall (fun dc => 0 <= fst dc) new ->
    heap_ordered Task.time (queue s) ->
    now (schedules new s) = now s
    /\ heap_ordered Task.time (queue (schedules new s))
    /\ (length (queue s) <= length (queue (schedules new s)))%nat
    /\ (forall x, x ∈ queue (schedules new s) -> x ∈ queue s \/ now s <= Task.time x).
Proof.
  induction new as [|[d c] new IH]; intros s Hnew Hheap; cbn [schedules fold_left].
  - repeat split; auto.
  - inversion Hnew as [|? ? Hd Hnew']; subst. cbn [fst snd] in *.
    destruct (IH (Arena.schedule_task d c s) Hnew') as (Hnow & Hord & Hlen & Helem).
    { cbn. apply (heappush_ordered Task.time), Hheap. }
    unfold schedules in *. cbn in Hnow, Hlen, Helem.
    repeat split.
    + exact Hnow.
    + exact Hord.
    + rewrite heappush_length in Hlen. lia.
    + intros x Hx. apply Helem in Hx as [Hx|Hx]; [|now right].
      apply (heappush_elem Task.time) in Hx as [->|Hx]; [right; cbn; lia|now left].
Qed.

(** The loop of [_process_events], for a queue whose times are at least [lo]. *)
Lemma process_events_from (fuel : nat) :
  schedules_ahead invoke ->
  forall (s : Arena.State Cb Chr) (lo : Z),
    heap_ordered Task.time (queue s) ->
    (forall x, x ∈ queue s -> lo <= Task.time x) ->
    StronglySorted time_le (fst (Arena._process_events invoke fuel s))
    /\ Forall (fun e => lo <= Task.time e <= now s)
              (fst (Arena._process_events invoke fuel s))
    /\ (forall e, snd (Arena._process_events invoke fuel s) <> Raised e)
    /\ (forall s', snd (Arena._process_events invoke fuel s) = Returned s' ->
        now s' = now s
        /\ heap_ordered Task.time (queue s')
        /\ Forall (fun e => now s' < Task.time e) (queue s')).
Proof.
  intros Hcb. induction fuel as [|fuel IH]; intros s lo Hheap Hlo.
  all: cbn [Arena._process_events].
  all: destruct (queue s) as [|event rest] eqn:Hq in |- *;
    [cbn [fst snd]; split; [constructor|]; split; [constructor|];
     split; [discriminate|]; intros s' [= <-];
     split; [reflexivity|]; split; [exact Hheap|]; rewrite Hq; constructor|].
  all: destruct (now s <? Task.time event) eqn:Hdue;
    [cbn [fst snd]; split; [constructor|]; split; [constructor|];
     split; [discriminate|]; intros s' [= <-];
     split; [reflexivity|]; split; [exact Hheap|];
     apply List.Forall_forall; intros x Hx; apply Z.ltb_lt in Hdue;
     assert (Hroot : queue s !! 0%nat = Some event) by (now rewrite Hq);
     apply list_elem_of_In in Hx;
     pose proof (root_minimal Task.time (queue s) event Hheap Hroot x Hx); lia|].
  - cbn [fst snd]. split; [constructor|]. split; [constructor|].
    split; [discriminate|]. intros s' [=].
  - apply Z.ltb_ge in Hdue.
    assert (Hroot : queue s !! 0%nat = Some event) by (now rewrite Hq).
    assert (Hevent : event ∈ queue s) by (rewrite Hq; constructor).
    destruct (Hcb (Task.callback event) s) as (new & Hnew & Harena).
    destruct (schedules_spec new s Hnew Hheap) as (Hnow & Hord & Hlen & Helem).
    rewrite Harena.
    destruct (Heapq.heappop Task.lt (queue (schedules new s))) as [[popped q]|] eqn:Hpop.
    2:{ apply heappop_nonempty in Hpop; [contradiction|]. rewrite Hq in Hlen. cbn in Hlen. lia. }
    destruct (heappop_ordered Task.time _ _ _ Hord Hpop) as (Hordq & Hsub).
    specialize (IH (Arena.set_task_queue q (invoke (Task.callback event) s))
                   (Task.time event)).
    cbn [Arena.set_task_queue Arena.arena Arena.task_queue Arena.current_time] in IH.
    rewrite Harena in IH. rewrite Hnow in IH.
    destruct IH as (Hsorted & Hbounds & Hraise & Hfinal).
    { exact Hordq. }
    { intros x Hx. apply Hsub, Helem in Hx as [Hx|Hx]; [|lia].
      apply (root_minimal Task.time (queue s) event Hheap Hroot x Hx). }
    destruct (Arena._process_events invoke fuel
                (Arena.set_task_queue q (invoke (Task.callback event) s)))
      as [trace out].
    cbn [fst snd] in *. repeat split.
    + constructor; [exact Hsorted|].
      eapply Forall_impl; [exact Hbounds|]. intros x Hx. unfold time_le. cbn in Hx. lia.
    + constructor.
      * split; [now apply Hlo|lia].
      * eapply Forall_impl; [exact Hbounds|]. intros x Hx. cbn in Hx.
        specialize (Hlo event Hevent). lia.
    + exact Hraise.
    + now apply Hfinal.
    + now apply Hfinal.
    + now apply Hfinal.
Qed.

(** What a run of [schedule_task] calls leaves in the queue: the tasks that were
    there and the new ones; a root that is due stays the root. *)
Lemma schedules_contents (new : list (Z * Cb)) :
  forall (s : Arena.State Cb Chr) (r : Task.t Cb),
    Forall (fun dc => 0 <= fst dc) new ->
    queue s !! 0%nat = Some r ->
    Task.time r <= now s ->
    now (schedules new s) = now s
    /\ queue (schedules new s) !! 0%nat = Some r
    /\ queue (schedules new s)
       ≡ₚ queue s ++ map (fun dc => Task.mk (now s + fst dc) (snd dc)) new.
Proof.
  induction new as [|[d c] new IH]; intros s r Hnew Hr Hdue; cbn [schedules fold_left map].
  - rewrite app_nil_r. auto.
  - inversion Hnew as [|? ? Hd Hnew']; subst. cbn [fst snd] in *.
    destruct (IH (Arena.schedule_task d c s) r Hnew') as (Hnow & Hroot & Hperm).
    { cbn. apply heappush_root; [exact Hr|]. unfold Task.lt. cbn. lia. }
    { cbn. exact Hdue. }
    unfold schedules in *. cbn in Hnow, Hroot, Hperm.
    split; [exact Hnow|]. split; [exact Hroot|].
    rewrite Hperm. cbn. rewrite (heappush_perm Task.lt).
    apply Permutation_middle.
Qed.

(** The loop of [_process_events] loses no task and makes none up: at every point
    where it stops, the tasks executed and the tasks in the queue are the tasks
    of the queue it started from and the tasks the callbacks scheduled. *)
Lemma process_events_conserves (fuel : nat) :
  schedules_ahead invoke ->
  forall s s' : Arena.State Cb Chr,
    snd (Arena._process_events invoke fuel s) = Returned s'
    \/ snd (Arena._process_events invoke fuel s) = Running s' ->
    exists added,
      fst (Arena._process_events invoke fuel s) ++ queue s' ≡ₚ queue s ++ added
      /\ Forall (fun e => now s <= Task.time e) added.
Proof.
  intros Hcb. induction fuel as [|fuel IH]; intros s s'.
  all: cbn [Arena._process_events].
  all: destruct (queue s) as [|event rest] eqn:Hq in |- *;
    [cbn [fst snd]; intros [[= <-]|[=]]; exists []; rewrite Hq; split;
       [reflexivity|constructor]|].
  all: destruct (now s <? Task.time event) eqn:Hdue;
    [cbn [fst snd]; intros [[= <-]|[=]]; exists []; rewrite Hq, app_nil_r; split;
       [reflexivity|constructor]|].
  - cbn [fst snd]. intros [[=]|[= <-]]. exists []. rewrite Hq, app_nil_r. split;
      [reflexivity|constructor].
  - apply Z.ltb_ge in Hdue.
    assert (Hroot : queue s !! 0%nat = Some event) by (now rewrite Hq).
    destruct (Hcb (Task.callback event) s) as (new & Hnew & Harena).
    destruct (schedules_contents new s event Hnew Hroot Hdue) as (Hnow & Hroot' & Hperm).
    rewrite Harena.
    destruct (Heapq.heappop Task.lt (queue (schedules new s))) as [[popped q]|] eqn:Hpop;
      [|cbn [fst snd]; intros [[=]|[=]]].
    destruct (heappop_perm Task.lt _ _ _ Hpop) as (Hpopped & Hrest).
    rewrite Hroot' in Hpopped. injection Hpopped as <-.
    specialize (IH (Arena.set_task_queue q (invoke (Task.callback event) s)) s').
    cbn [Arena.set_task_queue Arena.arena Arena.task_queue Arena.current_time] in IH.
    rewrite Harena, Hnow in IH.
    destruct (Arena._process_events invoke fuel
                (Arena.set_task_queue q (invoke (Task.callback event) s)))
      as [trace out].
    cbn [fst snd] in *. intros Hout.
    destruct (IH Hout) as (added & Hcons & Hadded).
    exists (map (fun dc => Task.mk (now s + fst dc) (snd dc)) new ++ added). split.
    + cbn [app]. rewrite Hcons.
      change (event :: q ++ added) with ((event :: q) ++ added).
      rewrite <- Hrest, Hperm, <- app_assoc, Hq. reflexivity.
    + apply Forall_app. split; [|exact Hadded].
      apply List.Forall_forall. intros e He. apply in_map_iff in He as ((d & c) & <- & Hin).
      rewrite List.Forall_forall in Hnew. specialize (Hnew _ Hin). cbn in *. lia.
Qed.

(** C2. One run of [_process_events], on a queue in heap order and with callbacks
    that schedule tasks with delays that are not negative and do nothing else to
    the arena: whatever the bound on the number of tasks run, the tasks executed
    come in non-decreasing order of their times and every one of them is due;
    no exception is raised, and when the run ends no due task is left in the
    queue.  No task is lost and none is made up: wherever the run stops, the
    tasks executed and the tasks in the queue are together the tasks of the
    queue at the start and the tasks the callbacks have scheduled, none of these
    for a time before the current one; so when the run ends every task of the
    queue at the start that was due has been executed.  Nothing is said on tasks
    of equal times: they run as the heap holds them, not in the order of their
    scheduling. *)
Theorem due_tasks_in_time_order (fuel : nat) (s : Arena.State Cb Chr) :
  schedules_ahead invoke ->
  is_heap Task.time (Arena.task_queue (Arena.arena s)) = true ->
  StronglySorted time_le (fst (Arena._process_events invoke fuel s))
  /\ Forall (fun e => Task.time e <= Arena.current_time (Arena.arena s))
            (fst (Arena._process_events invoke fuel s))
  /\ (forall e, snd (Arena._process_events invoke fuel s) <> Raised e)
  /\ (forall s', snd (Arena._process_events invoke fuel s) = Returned s' ->
      Forall (fun e => Arena.current_time (Arena.arena s') < Task.time e)
             (Arena.task_queue (Arena.arena s')))
  /\ (forall s',
        snd (Arena._process_events invoke fuel s) = Returned s'
        \/ snd (Arena._process_events invoke fuel s) = Running s' ->
        exists added,
          fst (Arena._process_events invoke fuel s) ++ Arena.task_queue (Arena.arena s')
          ≡ₚ Arena.task_queue (Arena.arena s) ++ added
          /\ Forall (fun e => Arena.current_time (Arena.arena s) <= Task.time e) added)
  /\ (forall s', snd (Arena._process_events invoke fuel s) = Returned s' ->
      forall e, e ∈ Arena.task_queue (Arena.arena s) ->
                Task.time e <= Arena.current_time (Arena.arena s) ->
                e ∈ fst (Arena._process_events invoke fuel s)).
Proof.
  intros Hcb Hheap%is_heap_ordered.
  assert (Hmain : exists lo,
             StronglySorted time_le (fst (Arena._process_events invoke fuel s))
             /\ Forall (fun e => lo <= Task.time e <= now s)
                       (fst (Arena._process_events invoke fuel s))
             /\ (forall e, snd (Arena._process_events invoke fuel s) <> Raised e)
             /\ (forall s', snd (Arena._process_events invoke fuel s) = Returned s' ->
                 now s' = now s
                 /\ heap_ordered Task.time (queue s')
                 /\ Forall (fun e => now s' < Task.time e) (queue s'))).
  { destruct (queue s) as [|event rest] eqn:Hq in |- *.
    - exists 0. apply (process_events_from fuel Hcb s 0 Hheap).
      rewrite Hq. intros x Hx. inversion Hx.
    - assert (Hroot : queue s !! 0%nat = Some event) by (now rewrite Hq).
      exists (Task.time event). apply (process_events_from fuel Hcb s _ Hheap).
      apply (root_minimal Task.time (queue s) event Hheap Hroot). }
  destruct Hmain as (lo & Hs & Hb & Hr & Hf).
  split; [exact Hs|]. split.
  { eapply Forall_impl; [exact Hb|]. intros x Hx. cbn in Hx. lia. }
  split; [exact Hr|]. split; [intros s' Hs'; now apply Hf|]. split.
  { intros s' Hs'. exact (process_events_conserves fuel Hcb s s' Hs'). }
  intros s' Hs' e He Hdue.
  destruct (process_events_conserves fuel Hcb s s' (or_introl Hs')) as (added & Hcons & _).
  destruct (Hf s' Hs') as (Hnow & _ & Hlate).
  assert (Hin : e ∈ fst (Arena._process_events invoke fuel s) ++ queue s').
  { rewrite Hcons. apply elem_of_app. now left. }
  apply elem_of_app in Hin as [Hin|Hin]; [exact Hin|].
  rewrite List.Forall_forall in Hlate. apply list_elem_of_In in Hin.
  specialize (Hlate e Hin). lia.
Qed.
End TaskOrder.

Lemma chained_schedules_ahead : schedules_ahead chained.
Proof.
  intros [|c] s.
  - exists [(0, 5%nat)]. split; [repeat constructor; cbn; lia|reflexivity].
  - exists []. split; [constructor|reflexivity].
Qed.

Lemma due_tasks_in_time_order_witness :
  is_heap Task.time (Arena.task_queue (Arena.arena mixed_tasks)) = true
  /\ StronglySorted time_le (fst (Arena._process_events chained 10 mixed_tasks))
  /\ Forall (fun e => Task.time e <= Arena.current_time (Arena.arena mixed_tasks))
            (fst (Arena._process_events chained 10 mixed_tasks))
  /\ (forall e, snd (Arena._process_events chained 10 mixed_tasks) <> Raised e)
  /\ (forall s', snd (Arena._process_events chained 10 mixed_tasks) = Returned s' ->
      Forall (fun e => Arena.current_time (Arena.arena s') < Task.time e)
             (Arena.task_queue (Arena.arena s')))
  /\ (forall s',
        snd (Arena._process_events chained 10 mixed_tasks) = Returned s'
        \/ snd (Arena._process_events chained 10 mixed_tasks) = Running s' ->
        exists added,
          fst (Arena._process_events chained 10 mixed_tasks)
            ++ Arena.task_queue (Arena.arena s')
          ≡ₚ Arena.task_queue (Arena.arena mixed_tasks) ++ added
          /\ Forall (fun e => Arena.current_time (Arena.arena mixed_tasks) <= Task.time e)
                    added)
  /\ (forall s', snd (Arena._process_events chained 10 mixed_tasks) = Returned s' ->
      forall e, e ∈ Arena.task_queue (Arena.arena mixed_tasks) ->
                Task.time e <= Arena.current_time (Arena.arena mixed_tasks) ->
                e ∈ fst (Arena._process_events chained 10 mixed_tasks)).
Proof.
  split; [vm_compute; reflexivity|].
  refine (due_tasks_in_time_order chained 10 mixed_tasks chained_schedules_ahead _).
  vm_compute. reflexivity.
Defined.

(** The tasks of the scenario run, and in which order. *)
Example mixed_tasks_trace :
  map (fun e => (Task.time e, Task.callback e))
      (fst (Arena._process_events chained 10 mixed_tasks))
  = [(100, 0%nat); (100, 3%nat); (200, 2%nat); (300, 1%nat); (1000, 5%nat)].
Proof. vm_compute. reflexivity. Qed.

(** C2, the order of tasks of equal times: of four tasks scheduled in the order
    1, 2, 3, 4 for the same time, the third runs before the second. *)
Lemma same_time_tasks_not_in_scheduling_order :
  same_time_tasks
  = Arena.schedule_task 0 4%nat
      (Arena.schedule_task 0 3%nat
         (Arena.schedule_task 0 2%nat
            (Arena.schedule_task 0 1%nat (Arena.mkState (Arena.init 0) ∅))))
  /\ Forall (fun e => Task.time e = 0) (Arena.task_queue (Arena.arena same_time_tasks))
  /\ map Task.callback
         (fst (Arena._process_events (fun _ s => s) 4 same_time_tasks))
     = [1%nat; 3%nat; 2%nat; 4%nat]
  /\ snd (Arena._process_events (fun _ s => s) 4 same_time_tasks)
     = Returned (Arena.mkState (Arena.init 0) ∅).
Proof.
  split; [vm_compute; reflexivity|].
  split; [repeat constructor|].
  split; vm_compute; reflexivity.
Qed.

(** ** [ActionManager]: cooldown groups *)

Section Cooldowns.
Context {Cb : Type}.
Implicit Types (am : ActionManager.t Cb) (act : PvEAction.t) (rd : RecastDetail.t).

Lemma start_cooldown_primary (speed : SpeedFlags.t -> Q) (id : ActionID.t) am act rd :
  ActionManager.get_action id am = Some act ->
  ActionManager.cooldowns am !! PvEAction.cooldown_group act = Some rd ->
  PvEAction.additional_cooldown_group act <> PvEAction.cooldown_group act ->
  let r := ActionManager.get_adjusted_recast_time speed id am in
  let mc := PvEAction.max_charges act in
  let e := RecastDetail.time_elapsed rd - r in
  ActionManager.get_action id (ActionManager.start_cooldown speed id am) = Some act
  /\ ActionManager.cooldowns (ActionManager.start_cooldown speed id am)
       !! PvEAction.cooldown_group act
     = Some (if mc <=? 1 then RecastDetail.mk id 0 r
             else if negb (RecastDetail.is_active rd) || (mc * r <? RecastDetail.total rd)
                  then RecastDetail.mk id (mc * r - r) (mc * r)
                  else RecastDetail.mk id (if e <? 0 then 0 else e) (RecastDetail.total rd)).
Proof.
  intros Hact Hrd Hne r mc e.
  unfold ActionManager.start_cooldown, ActionManager.get_recast_detail,
    ActionManager.get_recast_group, ActionManager.get_max_charges.
  rewrite Hact, Hrd. fold r. fold mc.
  match goal with
  | |- context [let '(elapsed, total) := ?X in _] => destruct X as [el to] eqn:E
  end.
  unfold ActionManager.get_additional_recast_detail,
    ActionManager.get_additional_recast_group, ActionManager.get_action in *.
  cbn [ActionManager.actions ActionManager.cooldowns ActionManager.set_cooldowns].
  rewrite Hact.
  rewrite !(lookup_insert_ne _ (PvEAction.cooldown_group act)
              (PvEAction.additional_cooldown_group act)) by congruence.
  assert (Hres : RecastDetail.mk id el to
                 = (if mc <=? 1 then RecastDetail.mk id 0 r
                    else if negb (RecastDetail.is_active rd) || (mc * r <? RecastDetail.total rd)
                         then RecastDetail.mk id (mc * r - r) (mc * r)
                         else RecastDetail.mk id (if e <? 0 then 0 else e)
                                (RecastDetail.total rd))).
  { destruct (mc <=? 1); [now inversion E|].
    destruct (negb _ || _); now inversion E. }
  rewrite <- Hres. clear Hres E.
  destruct (PvEAction.additional_cooldown_group act =? 0);
    [|destruct (ActionManager.cooldowns am !! PvEAction.additional_cooldown_group act)];
    repeat first
      [ rewrite Hact
      | rewrite lookup_insert_eq
      | rewrite (lookup_insert_ne _ (PvEAction.additional_cooldown_group act)
                   (PvEAction.cooldown_group act)) by congruence
      | progress cbn [ActionManager.actions ActionManager.cooldowns
                      ActionManager.set_cooldowns
                      RecastDetail.time_elapsed RecastDetail.total] ];
    (split; reflexivity).
Qed.

Lemma start_cooldown_sets_cooldowns (speed : SpeedFlags.t -> Q) (id : ActionID.t) am :
  exists c, ActionManager.start_cooldown speed id am = ActionManager.set_cooldowns c am.
Proof.
  unfold ActionManager.start_cooldown.
  destruct (ActionManager.get_recast_detail id am) as [rd|].
  2:{ exists (ActionManager.cooldowns am). now destruct am. }
  match goal with
  | |- context [let '(elapsed, total) := ?X in _] => destruct X as [el to]
  end.
  repeat match goal with
         | |- context [match ?X with Some _ => _ | None => _ end] => destruct X
         end;
    eexists; reflexivity.
Qed.

Lemma start_cooldown_is_casting (speed : SpeedFlags.t -> Q) (id : ActionID.t) am :
  ActionManager.is_casting (ActionManager.start_cooldown speed id am)
  = ActionManager.is_casting am.
Proof. destruct (start_cooldown_sets_cooldowns speed id am) as [c ->]. reflexivity. Qed.

(** A step of a manager that is not casting calls nothing. *)
Lemma step_not_casting (invoke : Cb -> ActionManager.t Cb -> ActionManager.t Cb)
    (d : Z) am :
  ActionManager.is_casting am = false ->
  exists am',
    ActionManager.step own_get own_set invoke d am = (am', [])
    /\ ActionManager.actions am' = ActionManager.actions am
    /\ ActionManager.cooldowns am' = RecastDetail.step d <$> ActionManager.cooldowns am
    /\ ActionManager.is_casting am' = false.
Proof.
  intros Hc.
  unfold ActionManager.step, ActionManager._update_action_cast, ActionManager.modify,
    own_get, own_set.
  change (ActionManager.is_casting
            (ActionManager.set_animation_lock _ (ActionManager.set_last_action _ _ am)))
    with (ActionManager.is_casting am).
  rewrite Hc. eexists. split; [reflexivity|].
  unfold ActionManager._update_combo_state.
  repeat split; try reflexivity;
    destruct (negb _); try destruct (_ <=? 0); reflexivity.
Qed.

Lemma register_fresh act :
  0 < PvEAction.cooldown_group act ->
  PvEAction.additional_cooldown_group act <> PvEAction.cooldown_group act ->
  let am0 : ActionManager.t Cb := ActionManager.register_action act ActionManager.init in
  ActionManager.get_action (PvEAction.action_id act) am0 = Some act
  /\ ActionManager.cooldowns am0 !! PvEAction.cooldown_group act
     = Some (RecastDetail.mk (PvEAction.action_id act) 0 0)
  /\ ActionManager.is_casting am0 = false.
Proof.
  intros Hg Hne am0. subst am0.
  unfold ActionManager.register_action, ActionManager.get_action.
  cbn [ActionManager.init ActionManager.actions ActionManager.cooldowns
       ActionManager.set_actions ActionManager.set_cooldowns].
  apply Z.ltb_lt in Hg. rewrite Hg, lookup_empty, (bool_decide_eq_true_2 _ eq_refl).
  cbn [andb ActionManager.actions ActionManager.cooldowns ActionManager.set_cooldowns].
  destruct (_ && _);
    cbn [ActionManager.actions ActionManager.cooldowns ActionManager.set_cooldowns
         ActionManager.set_actions ActionManager.init ActionManager.is_casting
         ActionManager.casting_action_id ActionManager.casting_time_max
         ActionManager.casting_time];
    rewrite ?lookup_insert_eq;
    rewrite ?(lookup_insert_ne _ (PvEAction.additional_cooldown_group act)
                (PvEAction.cooldown_group act)) by congruence;
    rewrite ?lookup_insert_eq; repeat split; reflexivity.
Qed.

Lemma adjusted_recast_no_modifiers (id : ActionID.t) am act :
  ActionManager.get_action id am = Some act ->
  PvEAction.recast_time act = 5000 ->
  ActionManager.get_adjusted_recast_time no_speed_modifiers id am = 5000.
Proof.
  intros Hact Hr. unfold ActionManager.get_adjusted_recast_time. rewrite Hact, Hr.
  destruct (_ =? RECAST_GROUP_GCD); reflexivity.
Qed.

Variable invoke : Cb -> ActionManager.t Cb -> ActionManager.t Cb.

(** The state of the group after the two uses, and after waiting [d] more. *)
Lemma two_uses act :
  PvEAction.max_charges act = 2 ->
  PvEAction.recast_time act = 5000 ->
  0 < PvEAction.cooldown_group act ->
  PvEAction.additional_cooldown_group act <> PvEAction.cooldown_group act ->
  let id := PvEAction.action_id act in
  let am3 := use id (wait invoke 100 (use id (ActionManager.register_action act ActionManager.init))) in
  ActionManager.get_action id am3 = Some act
  /\ ActionManager.is_casting am3 = false
  /\ ActionManager.cooldowns am3 !! PvEAction.cooldown_group act
     = Some (RecastDetail.mk id 100 10000).
Proof.
  intros Hmc Hr Hg Hne id am3.
  destruct (register_fresh act Hg Hne) as (Hact0 & Hrd0 & Hc0).
  set (am0 := ActionManager.register_action act ActionManager.init) in *.
  fold id in Hact0, Hrd0.
  (* first use *)
  destruct (start_cooldown_primary no_speed_modifiers id am0 act _ Hact0 Hrd0 Hne)
    as (Hact1 & Hrd1).
  rewrite (adjusted_recast_no_modifiers id am0 act Hact0 Hr), Hmc in Hrd1.
  cbn in Hrd1.
  pose proof (start_cooldown_is_casting no_speed_modifiers id am0) as Hc1.
  rewrite Hc0 in Hc1.
  fold (use id am0) in Hact1, Hrd1, Hc1. set (am1 := use id am0) in *.
  (* 100 ms *)
  destruct (step_not_casting invoke 100 am1 Hc1) as (am2 & Hstep & Ha2 & Hcd2 & Hc2).
  assert (Hw : wait invoke 100 am1 = am2) by (unfold wait; now rewrite Hstep).
  assert (Hact2 : ActionManager.get_action id am2 = Some act)
    by (unfold ActionManager.get_action in *; now rewrite Ha2).
  assert (Hrd2 : ActionManager.cooldowns am2 !! PvEAction.cooldown_group act
                 = Some (RecastDetail.mk id 5100 10000))
    by (rewrite Hcd2, lookup_fmap, Hrd1; reflexivity).
  (* second use *)
  destruct (start_cooldown_primary no_speed_modifiers id am2 act _ Hact2 Hrd2 Hne)
    as (Hact3 & Hrd3).
  rewrite (adjusted_recast_no_modifiers id am2 act Hact2 Hr), Hmc in Hrd3.
  cbn in Hrd3.
  subst am3. rewrite Hw.
  split; [exact Hact3|]. split; [|exact Hrd3].
  unfold use. now rewrite start_cooldown_is_casting.
Qed.

Lemma wait_detail (id : ActionID.t) (d : Z) am act rd :
  ActionManager.is_casting am = false ->
  ActionManager.get_action id am = Some act ->
  ActionManager.cooldowns am !! PvEAction.cooldown_group act = Some rd ->
  ActionManager.get_recast_detail id (wait invoke d am) = Some (RecastDetail.step d rd).
Proof.
  intros Hc Hact Hrd.
  destruct (step_not_casting invoke d am Hc) as (am' & Hstep & Ha & Hcd & _).
  unfold wait. rewrite Hstep. cbn [fst].
  unfold ActionManager.get_recast_detail, ActionManager.get_recast_group,
    ActionManager.get_action in *.
  rewrite Ha, Hact, Hcd, lookup_fmap, Hrd. reflexivity.
Qed.

Lemma step_detail_before (id : ActionID.t) (d : Z) :
  0 <= d < 9900 ->
  RecastDetail.step d (RecastDetail.mk id 100 10000) = RecastDetail.mk id (100 + d) 10000
  /\ RecastDetail.is_active (RecastDetail.mk id (100 + d) 10000) = true.
Proof.
  intros Hd. unfold RecastDetail.step, RecastDetail.is_active.
  cbn [RecastDetail.time_elapsed RecastDetail.total RecastDetail.action_id].
  destruct (Z.leb_spec 10000 (100 + d)); [lia|].
  split; [reflexivity|].
  apply andb_true_intro; split; [reflexivity|].
  apply andb_true_intro; split; [apply Z.leb_le|apply Z.ltb_lt]; lia.
Qed.

(** C3 (amended). An action of two charges and 5000 ms of recast, used on an idle
    group at t = 0 and, after a step of 100 ms, again at t = 100, leaves its group
    with [time_elapsed = 100] and [total = 10000] (the next charge is 4900 ms
    away); the group stays active until t = 10000 and is idle, both charges
    available, exactly then. *)
Theorem charge_banking_scenario act :
  PvEAction.max_charges act = 2 ->
  PvEAction.recast_time act = 5000 ->
  0 < PvEAction.cooldown_group act ->
  PvEAction.additional_cooldown_group act <> PvEAction.cooldown_group act ->
  let id := PvEAction.action_id act in
  let am3 := use id (wait invoke 100 (use id (ActionManager.register_action act ActionManager.init))) in
  ActionManager.get_recast_detail id am3 = Some (RecastDetail.mk id 100 10000)
  /\ (forall d, 0 <= d < 9900 ->
        ActionManager.get_recast_detail id (wait invoke d am3)
        = Some (RecastDetail.mk id (100 + d) 10000)
        /\ RecastDetail.is_active (RecastDetail.mk id (100 + d) 10000) = true)
  /\ ActionManager.get_recast_detail id (wait invoke 9900 am3) = Some (RecastDetail.mk id 0 0).
Proof.
  intros Hmc Hr Hg Hne id am3.
  destruct (two_uses act Hmc Hr Hg Hne) as (Hact & Hc & Hrd).
  subst am3 id.
  split.
  { unfold ActionManager.get_recast_detail, ActionManager.get_recast_group.
    rewrite Hact. exact Hrd. }
  split.
  - intros d Hd. rewrite (wait_detail _ d _ act _ Hc Hact Hrd).
    destruct (step_detail_before (PvEAction.action_id act) d Hd) as [-> ->].
    split; reflexivity.
  - rewrite (wait_detail _ 9900 _ act _ Hc Hact Hrd). reflexivity.
Qed.
End Cooldowns.

(** The scenario on the action of the vocabulary. *)
Lemma charge_banking_scenario_witness :
  let id := PvEAction.action_id two_charge_action in
  let am3 :=
    use id (wait (fun (_ : unit) w => w) 100
              (use id (ActionManager.register_action two_charge_action ActionManager.init))) in
  ActionManager.get_recast_detail id am3 = Some (RecastDetail.mk id 100 10000)
  /\ (forall d, 0 <= d < 9900 ->
        ActionManager.get_recast_detail id (wait (fun _ w => w) d am3)
        = Some (RecastDetail.mk id (100 + d) 10000)
        /\ RecastDetail.is_active (RecastDetail.mk id (100 + d) 10000) = true)
  /\ ActionManager.get_recast_detail id (wait (fun _ w => w) 9900 am3)
     = Some (RecastDetail.mk id 0 0).
Proof.
  refine (charge_banking_scenario (fun _ w => w) two_charge_action _ _ _ _).
  - reflexivity.
  - reflexivity.
  - reflexivity.
  - discriminate.
Defined.

(** C3, as stated, fails: after the second use [time_elapsed] is 100, not 4900. *)
Lemma charge_banking_counterexample :
  ~ (exists rd,
       ActionManager.get_recast_detail ActionID.MEIKYO_SHISUI two_charges_used = Some rd
       /\ RecastDetail.time_elapsed rd = 4900).
Proof.
  intros (rd & Hrd & He). vm_compute in Hrd. inversion Hrd; subst rd. discriminate.
Qed.

(** ** [ActionManager.is_action_offcooldown] *)

Section OffCooldown.
Context {Cb : Type}.
Implicit Types (am : ActionManager.t Cb) (act : PvEAction.t) (rd : RecastDetail.t).

Lemma inject_Z_nonzero (z : Z) : z <> 0 -> Qeq_bool (inject_Z z) 0 = false.
Proof.
  intros Hz. destruct (Qeq_bool (inject_Z z) 0) eqn:E; [|reflexivity].
  apply Qeq_bool_iff in E. unfold Qeq in E. cbn in E. lia.
Qed.

Lemma is_active_group_active rd : RecastDetail.is_active rd = true <-> group_active rd.
Proof.
  unfold RecastDetail.is_active, group_active.
  rewrite !andb_true_iff, !Z.ltb_lt, Z.leb_le. tauto.
Qed.

Lemma not_active_group rd : RecastDetail.is_active rd = false <-> ~ group_active rd.
Proof.
  rewrite <- is_active_group_active. destruct (RecastDetail.is_active rd); split; congruence.
Qed.

(** The tolerance the code works with. *)
Lemma time_tolerance_effective (tolerance : option Z) :
  match tolerance with
  | Some tol => if 0 <=? tol then tol else 0
  | None => 0
  end = effective_tolerance tolerance.
Proof.
  destruct tolerance as [tol|]; [|reflexivity]. cbn [effective_tolerance].
  destruct (Z.leb_spec 0 tol); lia.
Qed.

(** The test on the secondary group. *)
Lemma blocked_by_additional (id : ActionID.t) (tol : Z) am act :
  ActionManager.actions am !! ActionID.value id = Some act ->
  match ActionManager.get_additional_recast_detail id am with
  | Some add_recast_detail =>
      RecastDetail.is_active add_recast_detail
      && (tol <? RecastDetail.remaining add_recast_detail)
  | None => false
  end = true
  <-> secondary_blocks am act tol.
Proof.
  intros Hact.
  unfold ActionManager.get_additional_recast_detail,
    ActionManager.get_additional_recast_group, ActionManager.get_action, secondary_blocks.
  rewrite Hact.
  destruct (Z.eqb_spec (PvEAction.additional_cooldown_group act) 0) as [E|NE].
  - split; [discriminate|]. intros (rd2 & H0 & _). contradiction.
  - destruct (ActionManager.cooldowns am !! PvEAction.additional_cooldown_group act)
      as [rd2|] eqn:Hrd2.
    + rewrite andb_true_iff, is_active_group_active, Z.ltb_lt.
      unfold RecastDetail.remaining. split.
      * intros (Ha & Hr). exists rd2. auto.
      * intros (rd2' & _ & [= <-] & Ha & Hr). auto.
    + split; [discriminate|]. intros (rd2' & _ & [=] & _).
Qed.

(** What the call does once the primary group is there. *)
Lemma offcooldown_cases (id : ActionID.t) (tolerance : option Z) am act rd :
  ActionManager.actions am !! ActionID.value id = Some act ->
  ActionManager.cooldowns am !! PvEAction.cooldown_group act = Some rd ->
  ActionManager.is_action_offcooldown id tolerance am
  = if match ActionManager.get_additional_recast_detail id am with
       | Some add_recast_detail =>
           RecastDetail.is_active add_recast_detail
           && (effective_tolerance tolerance <? RecastDetail.remaining add_recast_detail)
       | None => false
       end
    then Ret false
    else if RecastDetail.is_active rd then
      if PvEAction.max_charges act =? 0 then Raise ZeroDivisionError
      else Ret (Qle_bool (inject_Z (RecastDetail.total rd)
                          / inject_Z (PvEAction.max_charges act))
                         (inject_Z (RecastDetail.time_elapsed rd
                                    + effective_tolerance tolerance)))
    else Ret true.
Proof.
  intros Hact Hrd.
  unfold ActionManager.is_action_offcooldown, ActionManager.get_recast_detail,
    ActionManager.get_recast_group, ActionManager.get_max_charges,
    ActionManager.get_action.
  rewrite Hact, Hrd, time_tolerance_effective.
  destruct (match ActionManager.get_additional_recast_detail id am with
            | Some _ => _ | None => _ end); [reflexivity|].
  destruct (RecastDetail.is_active rd); [|reflexivity].
  unfold py_truediv.
  destruct (Z.eqb_spec (PvEAction.max_charges act) 0) as [E|NE].
  - rewrite E. reflexivity.
  - rewrite (inject_Z_nonzero _ NE). cbn [py_bind].
    now destruct (Qle_bool _ _).
Qed.

(** C4. [is_action_offcooldown(action, tolerance)] for every registered action and
    every tolerance, none and negative ones counted as 0.  Without a
    [RecastDetail] for the primary group the answer is false.  With one: false
    when the secondary group blocks (the action has one, it is active and has
    more than the tolerance to go); otherwise true when the primary group is not
    active; otherwise [ZeroDivisionError] for an action of 0 charges, and for
    any other number of charges true exactly when [time_elapsed + tolerance] has
    reached [total / max_charges].  So for an action whose number of charges is
    not 0 the call answers, and answers true exactly when the primary group has
    a charge available and the secondary group does not block.  A secondary
    group whose time elapsed is not negative blocks exactly when its remaining
    time exceeds the tolerance. *)
Theorem is_action_offcooldown_spec (id : ActionID.t) (tolerance : option Z) am act :
  ActionManager.actions am !! ActionID.value id = Some act ->
  (ActionManager.cooldowns am !! PvEAction.cooldown_group act = None ->
   ActionManager.is_action_offcooldown id tolerance am = Ret false)
  /\ (forall rd,
        ActionManager.cooldowns am !! PvEAction.cooldown_group act = Some rd ->
        (secondary_blocks am act (effective_tolerance tolerance) ->
         ActionManager.is_action_offcooldown id tolerance am = Ret false)
        /\ (~ secondary_blocks am act (effective_tolerance tolerance) ->
            ~ group_active rd ->
            ActionManager.is_action_offcooldown id tolerance am = Ret true)
        /\ (~ secondary_blocks am act (effective_tolerance tolerance) ->
            group_active rd ->
            PvEAction.max_charges act = 0 ->
            ActionManager.is_action_offcooldown id tolerance am = Raise ZeroDivisionError)
        /\ (~ secondary_blocks am act (effective_tolerance tolerance) ->
            group_active rd ->
            PvEAction.max_charges act <> 0 ->
            exists b : bool,
              ActionManager.is_action_offcooldown id tolerance am = Ret b
              /\ (b = true <->
                  first_charge_reached rd (PvEAction.max_charges act)
                    (effective_tolerance tolerance)))
        /\ (PvEAction.max_charges act <> 0 ->
            exists b : bool,
              ActionManager.is_action_offcooldown id tolerance am = Ret b
              /\ (b = true <->
                  (~ group_active rd
                   \/ first_charge_reached rd (PvEAction.max_charges act)
                        (effective_tolerance tolerance))
                  /\ ~ secondary_blocks am act (effective_tolerance tolerance))))
  /\ (forall rd2,
        PvEAction.additional_cooldown_group act <> 0 ->
        ActionManager.cooldowns am !! PvEAction.additional_cooldown_group act = Some rd2 ->
        0 <= RecastDetail.time_elapsed rd2 ->
        (secondary_blocks am act (effective_tolerance tolerance)
         <-> effective_tolerance tolerance
             < RecastDetail.total rd2 - RecastDetail.time_elapsed rd2)).
Proof.
  intros Hact. split; [|split].
  - intros Hnone.
    unfold ActionManager.is_action_offcooldown, ActionManager.get_recast_detail,
      ActionManager.get_recast_group, ActionManager.get_action.
    now rewrite Hact, Hnone.
  - intros rd Hrd.
    pose proof (blocked_by_additional id (effective_tolerance tolerance) am act Hact)
      as Hblocked.
    rewrite (offcooldown_cases id tolerance am act rd Hact Hrd).
    destruct (match ActionManager.get_additional_recast_detail id am with
              | Some _ => _ | None => _ end) eqn:Eb.
    + assert (Hb : secondary_blocks am act (effective_tolerance tolerance))
        by (now apply Hblocked).
      repeat split; try (intros; contradiction); try reflexivity.
      intros _. exists false. split; [reflexivity|]. split; [discriminate|].
      intros [_ Hn]. contradiction.
    + assert (Hb : ~ secondary_blocks am act (effective_tolerance tolerance)).
      { intros Hb. apply Hblocked in Hb. discriminate. }
      pose proof (is_active_group_active rd) as Hact_iff.
      destruct (RecastDetail.is_active rd) eqn:Ea.
      * assert (Ha : group_active rd) by (now apply Hact_iff).
        destruct (Z.eqb_spec (PvEAction.max_charges act) 0) as [E|NE].
        -- repeat split; try (intros; contradiction); try reflexivity.
        -- assert (Hq : forall b : bool,
                      Qle_bool (inject_Z (RecastDetail.total rd)
                                / inject_Z (PvEAction.max_charges act))
                               (inject_Z (RecastDetail.time_elapsed rd
                                          + effective_tolerance tolerance)) = b ->
                      (b = true <->
                       first_charge_reached rd (PvEAction.max_charges act)
                         (effective_tolerance tolerance))).
           { intros b <-. unfold first_charge_reached. apply Qle_bool_iff. }
           repeat split; try (intros; contradiction).
           ++ intros _ _ _. eexists. split; [reflexivity|]. now apply Hq.
           ++ intros _. eexists. split; [reflexivity|].
              rewrite (Hq _ eq_refl). tauto.
      * assert (Ha : ~ group_active rd).
        { intros Ha. apply Hact_iff in Ha. discriminate. }
        repeat split; try (intros; contradiction); try reflexivity.
        intros _. exists true. split; [reflexivity|]. tauto.
  - intros rd2 Hg2 Hrd2 He. unfold secondary_blocks, group_active. split.
    + intros (rd2' & _ & Hrd2' & _ & Hrem).
      rewrite Hrd2 in Hrd2'. injection Hrd2' as <-. exact Hrem.
    + intros Hrem. exists rd2.
      assert (0 <= effective_tolerance tolerance)
        by (destruct tolerance; cbn [effective_tolerance]; lia).
      repeat split; auto; lia.
Qed.
End OffCooldown.

(** Right after its use the action of two groups has a charge left (the primary
    group stands at 5000 of 10000), but its secondary group has 5000 ms to go:
    the answer is false for a tolerance of 0. *)
Lemma is_action_offcooldown_spec_witness :
  ActionManager.is_action_offcooldown ActionID.HISSATSU_GYOTEN (Some 0) two_group_used
  = Ret false
  /\ first_charge_reached (RecastDetail.mk ActionID.HISSATSU_GYOTEN 5000 10000)
       (PvEAction.max_charges two_group_action) 0.
Proof.
  split; [|vm_compute; discriminate].
  refine (proj1 (proj1 (proj2 (is_action_offcooldown_spec ActionID.HISSATSU_GYOTEN (Some 0)
                                 two_group_used two_group_action _))
                   (RecastDetail.mk ActionID.HISSATSU_GYOTEN 5000 10000) _) _).
  - reflexivity.
  - reflexivity.
  - exists (RecastDetail.mk ActionID.HISSATSU_GYOTEN 0 5000).
    split; [discriminate|]. split; [reflexivity|].
    unfold group_active. cbn. lia.
Defined.

(** C4, where the call does not answer as the specification has it: an action
    that has been given 0 charges, once used, makes the call raise
    [ZeroDivisionError]; and for a registered action without a cooldown group,
    on a manager on which no cooldown runs, the answer is false. *)
Lemma is_action_offcooldown_counterexample :
  ActionManager.actions no_charge_used !! ActionID.value ActionID.IKISHOTEN
  = Some no_charge_action
  /\ ActionManager.is_action_offcooldown ActionID.IKISHOTEN (Some 0) no_charge_used
     = Raise ZeroDivisionError
  /\ ActionManager.actions groupless_registered !! ActionID.value ActionID.SPRINT
     = Some groupless_action
  /\ ActionManager.cooldowns groupless_registered = ∅
  /\ ActionManager.is_action_offcooldown ActionID.SPRINT (Some 0) groupless_registered
     = Ret false.
Proof. repeat split; vm_compute; reflexivity. Qed.

(** ** [ActionManager.step] and the cast callback *)

Section ExpectedCalls.
Context {Cb : Type}.

Lemma expected_calls_length (cb : Cb) (to_go : Z) (sizes : list Z) :
  length (expected_calls cb to_go sizes) = length sizes.
Proof.
  revert to_go. induction sizes as [|d sizes IH]; intros to_go; cbn [expected_calls].
  - reflexivity.
  - destruct (to_go <=? d); cbn [length]; [now rewrite length_map|now rewrite IH].
Qed.

Lemma concat_nothing (sizes : list Z) :
  concat (map (fun _ : Z => @nil Cb) sizes) = [].
Proof. induction sizes as [|d sizes IH]; cbn; auto. Qed.

Lemma expected_calls_at_most_once (cb : Cb) (to_go : Z) (sizes : list Z) :
  concat (expected_calls cb to_go sizes) = [cb] \/ concat (expected_calls cb to_go sizes) = [].
Proof.
  revert to_go. induction sizes as [|d sizes IH]; intros to_go; cbn [expected_calls].
  - now right.
  - destruct (to_go <=? d); cbn [concat app].
    + left. now rewrite concat_nothing.
    + apply IH.
Qed.

Lemma nothing_lookup (sizes : list Z) (k : nat) (cb : Cb) :
  map (fun _ : Z => @nil Cb) sizes !! k <> Some [cb].
Proof.
  revert k. induction sizes as [|d sizes IH]; intros [|k]; cbn; try discriminate.
  apply IH.
Qed.

Lemma nothing_lookup_lt (sizes : list Z) (k : nat) :
  (k < length sizes)%nat -> map (fun _ : Z => @nil Cb) sizes !! k = Some [].
Proof.
  revert k. induction sizes as [|d sizes IH]; intros [|k]; cbn; try lia; auto.
  intros Hk. apply IH. lia.
Qed.

Lemma Zsum_take_S (d : Z) (sizes : list Z) (k : nat) :
  Zsum (take (S k) (d :: sizes)) = d + Zsum (take k sizes).
Proof. reflexivity. Qed.

Lemma Zsum_take_0 (sizes : list Z) : Zsum (take 0 sizes) = 0.
Proof. now rewrite take_0. Qed.

Lemma Zsum_take_nonneg (sizes : list Z) (k : nat) :
  List.Forall (fun d => 0 <= d) sizes -> 0 <= Zsum (take k sizes).
Proof.
  intros H. revert k. induction H as [|d sizes Hd _ IH]; intros [|k]; cbn; try lia.
  specialize (IH k). unfold Zsum in IH. lia.
Qed.

(** Where the callback is called, in the words of [first_dropped]. *)
Lemma expected_calls_lookup (cb : Cb) (to_go : Z) (sizes : list Z) (k : nat) :
  List.Forall (fun d => 0 <= d) sizes ->
  (k < length sizes)%nat ->
  (first_dropped (to_go + 400) sizes k /\ expected_calls cb to_go sizes !! k = Some [cb])
  \/ (~ first_dropped (to_go + 400) sizes k /\ expected_calls cb to_go sizes !! k = Some []).
Proof.
  intros Hpos. revert to_go k.
  induction Hpos as [|d sizes Hd Hpos IH]; intros to_go k Hk; [cbn in Hk; lia|].
  cbn [expected_calls]. unfold first_dropped, dropped_to_400 in *.
  destruct (Z.leb_spec to_go d) as [Hr|Hr].
  - destruct k as [|k].
    + left. split; [|reflexivity]. split; [exact Hk|]. split.
      * rewrite Zsum_take_S, Zsum_take_0. lia.
      * intros j Hj. lia.
    + right. split.
      * intros (_ & _ & Hfirst). apply (Hfirst 0%nat); [lia|].
        rewrite Zsum_take_S, Zsum_take_0. lia.
      * cbn [lookup list_lookup]. apply nothing_lookup_lt. cbn in Hk. lia.
  - destruct k as [|k].
    + right. split; [|reflexivity]. intros (_ & Hdrop & _).
      rewrite Zsum_take_S, Zsum_take_0 in Hdrop. lia.
    + cbn in Hk.
      destruct (IH (to_go - d) k ltac:(lia)) as [[(Hlt & Hdrop & Hfirst) Hl]|[Hn Hl]].
      * left. split; [|exact Hl]. split; [cbn; lia|]. split.
        { rewrite Zsum_take_S. lia. }
        intros [|j] Hj.
        { rewrite Zsum_take_S, Zsum_take_0. lia. }
        rewrite Zsum_take_S. specialize (Hfirst j ltac:(lia)). lia.
      * right. split; [|exact Hl]. intros (Hlt & Hdrop & Hfirst). apply Hn.
        split; [lia|]. split.
        { rewrite Zsum_take_S in Hdrop. lia. }
        intros j Hj. specialize (Hfirst (S j) ltac:(lia)).
        rewrite Zsum_take_S in Hfirst. lia.
Qed.
End ExpectedCalls.

Section CastCallback.
Context {Cb W : Type}.
Variable get : W -> ActionManager.t Cb.
Variable set : ActionManager.t Cb -> W -> W.
Variable invoke : Cb -> W -> W.
Hypothesis get_set : forall a w, get (set a w) = a.

Lemma get_modify (f : ActionManager.t Cb -> ActionManager.t Cb) (w : W) :
  get (ActionManager.modify get set f w) = f (get w).
Proof. unfold ActionManager.modify. apply get_set. Qed.

Lemma update_action_cast_disarmed (d : Z) (w : W) :
  ActionManager.casting_apply_callback (get w) = None ->
  exists w',
    ActionManager._update_action_cast get set invoke d w = (w', [])
    /\ ActionManager.casting_apply_callback (get w') = None.
Proof.
  intros Hcb. unfold ActionManager._update_action_cast.
  destruct (ActionManager.is_casting (get w)).
  - rewrite !get_modify.
    cbn [ActionManager.casting_apply_callback ActionManager.set_casting_time
         ActionManager.set_casting ActionManager.casting_time ActionManager.casting_time_max].
    rewrite Hcb.
    destruct (_ <=? 0); eexists; (split; [reflexivity|]); rewrite ?get_modify;
      cbn [ActionManager.casting_apply_callback ActionManager.set_casting_time
           ActionManager.set_casting]; exact Hcb.
  - eexists. split; [reflexivity|]. now rewrite get_modify.
Qed.

Lemma pending_is_casting (cb : Cb) (m c : Z) (a : ActionManager.t Cb) :
  cast_pending cb m c a -> ActionManager.is_casting a = true.
Proof.
  intros (Hid & Hm & Hc & Hr & _). unfold ActionManager.is_casting.
  rewrite Hid, Hm, Hc. cbn [negb andb].
  rewrite (proj2 (Z.ltb_lt 0 m)), (proj2 (Z.leb_le 0 c)), (proj2 (Z.ltb_lt c m)) by lia.
  reflexivity.
Qed.

Lemma update_action_cast_fires (cb : Cb) (m c d : Z) (w : W) :
  cast_pending cb m c (get w) -> 0 <= d -> m - 400 <= c + d ->
  exists w',
    ActionManager._update_action_cast get set invoke d w = (w', [cb])
    /\ ActionManager.casting_apply_callback (get w') = None.
Proof.
  intros Hp Hd Hreach.
  pose proof (pending_is_casting cb m c _ Hp) as Hc.
  destruct Hp as (Hid & Hm & Hct & Hr & Hcb).
  unfold ActionManager._update_action_cast. rewrite Hc, !get_modify.
  cbn [ActionManager.casting_apply_callback ActionManager.set_casting_time
       ActionManager.set_casting ActionManager.casting_time ActionManager.casting_time_max].
  rewrite Hcb, Hm, Hct.
  rewrite (proj2 (Z.leb_le (m - Z.min (c + d) m) 400)) by lia.
  destruct (_ <=? 0); eexists; (split; [reflexivity|]); rewrite ?get_modify;
    reflexivity.
Qed.

Lemma update_action_cast_waits (cb : Cb) (m c d : Z) (w : W) :
  cast_pending cb m c (get w) -> 0 <= d -> c + d < m - 400 ->
  exists w',
    ActionManager._update_action_cast get set invoke d w = (w', [])
    /\ cast_pending cb m (c + d) (get w').
Proof.
  intros Hp Hd Hreach.
  pose proof (pending_is_casting cb m c _ Hp) as Hc.
  destruct Hp as (Hid & Hm & Hct & Hr & Hcb).
  unfold ActionManager._update_action_cast. rewrite Hc, !get_modify.
  cbn [ActionManager.casting_apply_callback ActionManager.set_casting_time
       ActionManager.set_casting ActionManager.casting_time ActionManager.casting_time_max].
  rewrite Hcb, Hm, Hct.
  rewrite (proj2 (Z.leb_gt (m - Z.min (c + d) m) 400)) by lia.
  rewrite (proj2 (Z.leb_gt (m - Z.min (c + d) m) 0)) by lia.
  eexists. split; [reflexivity|]. rewrite get_modify.
  unfold cast_pending.
  cbn [ActionManager.casting_apply_callback ActionManager.set_casting_time
       ActionManager.set_casting ActionManager.casting_time ActionManager.casting_time_max
       ActionManager.casting_action_id].
  rewrite Hm, Hct. repeat split; try assumption; lia.
Qed.

Lemma callback_after_step_tail (d : Z) (cd : gmap Z RecastDetail.t) (a : ActionManager.t Cb) :
  ActionManager.casting_apply_callback
    (ActionManager.set_cooldowns cd (ActionManager._update_combo_state d a))
  = ActionManager.casting_apply_callback a
  /\ ActionManager.casting_action_id
       (ActionManager.set_cooldowns cd (ActionManager._update_combo_state d a))
     = ActionManager.casting_action_id a
  /\ ActionManager.casting_time
       (ActionManager.set_cooldowns cd (ActionManager._update_combo_state d a))
     = ActionManager.casting_time a
  /\ ActionManager.casting_time_max
       (ActionManager.set_cooldowns cd (ActionManager._update_combo_state d a))
     = ActionManager.casting_time_max a.
Proof.
  unfold ActionManager._update_combo_state.
  destruct (negb _); [destruct (_ <=? 0)|]; repeat split.
Qed.

Lemma pending_after_step_tail (cb : Cb) (m c d : Z) (cd : gmap Z RecastDetail.t)
    (a : ActionManager.t Cb) :
  cast_pending cb m c a ->
  cast_pending cb m c (ActionManager.set_cooldowns cd (ActionManager._update_combo_state d a)).
Proof.
  unfold cast_pending.
  destruct (callback_after_step_tail d cd a) as (-> & -> & -> & ->). auto.
Qed.

Lemma step_disarmed (d : Z) (w : W) :
  ActionManager.casting_apply_callback (get w) = None ->
  exists w',
    ActionManager.step get set invoke d w = (w', [])
    /\ ActionManager.casting_apply_callback (get w') = None.
Proof.
  intros Hcb. unfold ActionManager.step.
  match goal with
  | |- context [ActionManager._update_action_cast get set invoke d ?w2] =>
      destruct (update_action_cast_disarmed d w2) as (w3 & E & H3);
        [rewrite !get_modify; exact Hcb | rewrite E]
  end.
  eexists. split; [reflexivity|]. rewrite !get_modify.
  destruct (callback_after_step_tail d
              (RecastDetail.step d <$> ActionManager.cooldowns
                 (ActionManager._update_combo_state d (get w3))) (get w3)) as (-> & _).
  exact H3.
Qed.

Lemma step_fires (cb : Cb) (m c d : Z) (w : W) :
  cast_pending cb m c (get w) -> 0 <= d -> m - 400 <= c + d ->
  exists w',
    ActionManager.step get set invoke d w = (w', [cb])
    /\ ActionManager.casting_apply_callback (get w') = None.
Proof.
  intros Hp Hd Hreach. unfold ActionManager.step.
  match goal with
  | |- context [ActionManager._update_action_cast get set invoke d ?w2] =>
      destruct (update_action_cast_fires cb m c d w2) as (w3 & E & H3);
        [rewrite !get_modify; exact Hp | exact Hd | exact Hreach | rewrite E]
  end.
  eexists. split; [reflexivity|]. rewrite !get_modify.
  destruct (callback_after_step_tail d
              (RecastDetail.step d <$> ActionManager.cooldowns
                 (ActionManager._update_combo_state d (get w3))) (get w3)) as (-> & _).
  exact H3.
Qed.

Lemma step_waits (cb : Cb) (m c d : Z) (w : W) :
  cast_pending cb m c (get w) -> 0 <= d -> c + d < m - 400 ->
  exists w',
    ActionManager.step get set invoke d w = (w', [])
    /\ cast_pending cb m (c + d) (get w').
Proof.
  intros Hp Hd Hreach. unfold ActionManager.step.
  match goal with
  | |- context [ActionManager._update_action_cast get set invoke d ?w2] =>
      destruct (update_action_cast_waits cb m c d w2) as (w3 & E & H3);
        [rewrite !get_modify; exact Hp | exact Hd | exact Hreach | rewrite E]
  end.
  eexists. split; [reflexivity|]. rewrite !get_modify.
  now apply pending_after_step_tail.
Qed.

Lemma steps_disarmed (sizes : list Z) (w : W) :
  ActionManager.casting_apply_callback (get w) = None ->
  snd (ActionManager.steps get set invoke sizes w) = map (fun _ => []) sizes.
Proof.
  revert w. induction sizes as [|d sizes IH]; intros w Hcb; cbn [ActionManager.steps map].
  - reflexivity.
  - destruct (step_disarmed d w Hcb) as (w' & -> & Hcb').
    specialize (IH w' Hcb').
    destruct (ActionManager.steps get set invoke sizes w') as [w'' log].
    cbn [snd] in *. now rewrite IH.
Qed.

Lemma steps_pending (cb : Cb) (m c : Z) (sizes : list Z) (w : W) :
  cast_pending cb m c (get w) ->
  List.Forall (fun d => 0 <= d) sizes ->
  snd (ActionManager.steps get set invoke sizes w) = expected_calls cb (m - 400 - c) sizes.
Proof.
  revert c w. induction sizes as [|d sizes IH]; intros c w Hp Hpos;
    cbn [ActionManager.steps expected_calls].
  - reflexivity.
  - inversion Hpos as [|? ? Hd Hpos']; subst.
    destruct (Z.leb_spec (m - 400 - c) d) as [Hr|Hr].
    + destruct (step_fires cb m c d w Hp Hd) as (w' & -> & Hcb'); [lia|].
      pose proof (steps_disarmed sizes w' Hcb') as Hrest.
      destruct (ActionManager.steps get set invoke sizes w') as [w'' log].
      cbn [snd] in *. now rewrite Hrest.
    + destruct (step_waits cb m c d w Hp Hd) as (w' & -> & Hp'); [lia|].
      specialize (IH (c + d) w' Hp' Hpos').
      destruct (ActionManager.steps get set invoke sizes w') as [w'' log].
      cbn [snd] in *. rewrite IH. f_equal. f_equal. lia.
Qed.

(** C5 (amended). After [start_casting(action, cast_time, on_apply)] with a real
    action, a positive cast time and a callback, over any sequence of [step] calls
    with step sizes that are not negative: the callback is called at most once;
    it is called at the first step at which the remaining cast time is down to
    400 ms or less, and at no other step (not at all when no step gets there). *)
Theorem cast_callback_once (id : ActionID.t) (cast_time : Z) (cb : Cb)
    (sizes : list Z) (w : W) :
  ActionID.eqb id ActionID.NONE = false ->
  0 < cast_time ->
  List.Forall (fun d => 0 <= d) sizes ->
  let w0 :=
    ActionManager.modify get set (ActionManager.start_casting id cast_time (Some cb)) w in
  let log := snd (ActionManager.steps get set invoke sizes w0) in
  length log = length sizes
  /\ (concat log = [cb] \/ concat log = [])
  /\ forall k, (k < length sizes)%nat ->
       (first_dropped cast_time sizes k /\ log !! k = Some [cb])
       \/ (~ first_dropped cast_time sizes k /\ log !! k = Some []).
Proof.
  intros Hid Hct Hpos w0 log.
  assert (Hp : cast_pending cb cast_time 0 (get w0)).
  { subst w0. rewrite get_modify. unfold cast_pending, ActionManager.start_casting.
    cbn [ActionManager.casting_apply_callback ActionManager.set_casting_apply_callback
         ActionManager.set_casting ActionManager.casting_time
         ActionManager.casting_time_max ActionManager.casting_action_id].
    repeat split; try assumption; lia. }
  assert (Hlog : log = expected_calls cb (cast_time - 400) sizes).
  { subst log. rewrite (steps_pending cb cast_time 0 sizes w0 Hp Hpos).
    f_equal. lia. }
  rewrite Hlog. split; [apply expected_calls_length|].
  split; [apply expected_calls_at_most_once|].
  intros k Hk.
  replace cast_time with (cast_time - 400 + 400) at 1 3 by lia.
  now apply expected_calls_lookup.
Qed.
End CastCallback.

(** A cast of 1800 ms stepped three times by 700 ms: the callback is called at the
    second step, when 400 ms remain. *)
Lemma cast_callback_once_witness :
  let w0 :=
    ActionManager.modify own_get own_set
      (ActionManager.start_casting ActionID.HIGANBANA 1800 (Some tt)) ActionManager.init in
  let log := snd (ActionManager.steps own_get own_set ready_to_finish [700; 700; 700] w0) in
  length log = length [700; 700; 700]
  /\ (concat log = [tt] \/ concat log = [])
  /\ forall k, (k < length [700; 700; 700])%nat ->
       (first_dropped 1800 [700; 700; 700] k /\ log !! k = Some [tt])
       \/ (~ first_dropped 1800 [700; 700; 700] k /\ log !! k = Some []).
Proof.
  refine (cast_callback_once own_get own_set ready_to_finish _
            ActionID.HIGANBANA 1800 tt [700; 700; 700] ActionManager.init _ _ _).
  - reflexivity.
  - reflexivity.
  - lia.
  - repeat constructor; lia.
Defined.

Example cast_1800_log :
  snd (ActionManager.steps own_get own_set ready_to_finish [700; 700; 700] casting_1800)
  = [[]; [tt]; []].
Proof. reflexivity. Qed.

(** C5, as stated, fails: with a cast time of 0 the remaining cast time is below
    400 ms from the start, and the callback is dropped without being called. *)
Lemma cast_callback_counterexample :
  ActionManager.casting_apply_callback casting_0 = Some tt
  /\ ActionManager.casting_time_max casting_0 - ActionManager.casting_time casting_0 <= 400
  /\ concat (snd (ActionManager.steps own_get own_set ready_to_finish [100; 100; 100]
                    casting_0)) = [].
Proof. repeat split. vm_compute. discriminate. Qed.


(** ** [DoTStatus]: the snapshot *)

Section DoTSnapshot.
Variable calc : Ref -> ActionID.t -> Q -> DamageType.t -> PyResult DamageResult.t.

Lemma take_snapshot_dot (self d : StatusEffect.t) (p : Q) (sn : option DamageResult.t)
    (src : Ref) :
  StatusEffect.class self = StatusEffect.DoTStatus p sn ->
  StatusEffect.source self = Some src ->
  StatusEffect.take_snapshot calc self = Ret d ->
  exists dmg,
    calc src (StatusEffect.action_id self) p DamageType.DOT = Ret dmg
    /\ d = StatusEffect.set_class (StatusEffect.DoTStatus p (Some dmg)) self.
Proof.
  intros Hc Hs. unfold StatusEffect.take_snapshot. rewrite Hc, Hs.
  destruct (calc src _ p _) as [dmg|e]; cbn; intros E; [|discriminate].
  exists dmg. split; [reflexivity|]. now inversion E.
Qed.

(** After the constructor or a refresh, a DoT with a source carries the damage
    computed from that source then. *)
Lemma snapshot_event_carries (d : StatusEffect.t) (src : Ref) :
  snapshot_event calc d ->
  StatusEffect.source d = Some src ->
  exists dmg,
    calc src (StatusEffect.action_id d) (dot_potency d) DamageType.DOT = Ret dmg
    /\ StatusEffect.snapshot_damage d = Some dmg.
Proof.
  intros Hev Hsrc. destruct Hev as [sid aid tgt so dur pot buff d Hinit | other d0 d Hdot Href].
  - unfold StatusEffect.init_dot in Hinit.
    destruct so as [src'|].
    + eapply take_snapshot_dot in Hinit; [|reflexivity|reflexivity].
      destruct Hinit as (dmg & Hcalc & ->). cbn in Hsrc. assert (src' = src) by congruence. subst src'.
      exists dmg. split; [exact Hcalc|reflexivity].
    + cbn in Hinit. inversion Hinit; subst d. discriminate.
  - unfold is_dot in Hdot. unfold StatusEffect.refresh in Href.
    destruct (StatusEffect.class d0) as [|p sn|] eqn:Hc; try discriminate.
    destruct (StatusEffect.source other) as [src'|] eqn:Hso.
    + eapply take_snapshot_dot in Href; [|cbn; exact Hc|cbn; exact Hso].
      destruct Href as (dmg & Hcalc & ->). cbn in Hsrc. assert (src' = src) by congruence. subst src'.
      exists dmg. split; [exact Hcalc|reflexivity].
    + unfold StatusEffect.take_snapshot in Href. cbn in Href. rewrite Hc, Hso in Href.
      inversion Href; subst d. cbn in Hsrc. congruence.
Qed.
End DoTSnapshot.

Lemma apply_ops_keeps (ops : list StatusOp) (self : StatusEffect.t) :
  StatusEffect.class (apply_ops ops self) = StatusEffect.class self
  /\ StatusEffect.target (apply_ops ops self) = StatusEffect.target self.
Proof.
  unfold apply_ops. revert self.
  induction ops as [|o ops IH]; intros self; cbn [fold_left]; [split; reflexivity|].
  destruct (IH (apply_op o self)) as [-> ->].
  destruct o; cbn; unfold StatusEffect.consume_stack, StatusEffect.add_stack;
    repeat match goal with |- context [if ?b then _ else _] => destruct b end;
    split; reflexivity.
Qed.

Section DoTTick.
Context {Cb Ext : Type} `{Inhabited Ext}.
Variable calculate_potency_damage :
  BattleCharacter.t Cb Ext -> ActionID.t -> Q -> DamageType.t -> PyResult DamageResult.t.

(** C6. A DoT applied or refreshed in state [s0] with source [src] delivers, on
    every later [tick()], the damage [calculate_potency_damage] gave for the source
    as it was in [s0]: whatever happened to the status since (steps, extensions)
    and whatever the state [s] of the tick is, the target's [damage_taken] grows
    by exactly that damage and nothing else changes. *)
Theorem dot_snapshot_invariance
    (s0 s : Arena.State Cb (BattleCharacter.t Cb Ext)) (d : StatusEffect.t)
    (src tgt : Ref) (source_obj target_obj : BattleCharacter.t Cb Ext)
    (ops : list StatusOp) :
  snapshot_event (World.calc_in calculate_potency_damage s0) d ->
  StatusEffect.source d = Some src ->
  StatusEffect.target d = Some tgt ->
  Arena.objects s0 !! src = Some source_obj ->
  Arena.objects s !! tgt = Some target_obj ->
  exists dmg,
    calculate_potency_damage source_obj (StatusEffect.action_id d) (dot_potency d)
      DamageType.DOT = Ret dmg
    /\ World.tick (apply_ops ops d) s
       = Arena.set_objects
           (<[tgt := BattleCharacter.set_damage_taken
                       (BattleCharacter.damage_taken target_obj
                        ++ [DamageRecord.mk
                              (BattleCharacter.current_time
                                 (Arena.current_time (Arena.arena s)) target_obj)
                              dmg])
                       target_obj]> (Arena.objects s))
           s.
Proof.
  intros Hev Hsrc Htgt Hs0 Hs.
  destruct (snapshot_event_carries _ d src Hev Hsrc) as (dmg & Hcalc & Hsnap).
  exists dmg. split.
  - unfold World.calc_in in Hcalc. now rewrite Hs0 in Hcalc.
  - destruct (apply_ops_keeps ops d) as [Hc Ht].
    unfold World.tick, StatusEffect.snapshot_damage. rewrite Hc, Ht, Htgt.
    unfold StatusEffect.snapshot_damage in Hsnap. rewrite Hsnap.
    unfold World.modify_obj. rewrite Hs. reflexivity.
Qed.
End DoTTick.

(** The scenario: the source deals 5000 when the DoT is applied and gains a damage
    buff afterwards; the tick at 3000 ms delivers the 5000 of the snapshot. *)
Lemma dot_snapshot_invariance_witness :
  exists dmg,
    Enemy.calculate_potency_damage dot_source (StatusEffect.action_id dot_d)
      (dot_potency dot_d) DamageType.DOT = Ret dmg
    /\ World.tick (apply_ops [OpStep 3000] dot_d) dot_state1
       = Arena.set_objects
           (<[2%nat := BattleCharacter.set_damage_taken
                         (BattleCharacter.damage_taken dot_target
                          ++ [DamageRecord.mk
                                (BattleCharacter.current_time
                                   (Arena.current_time (Arena.arena dot_state1)) dot_target)
                                dmg])
                         dot_target]> (Arena.objects dot_state1))
           dot_state1.
Proof.
  apply (dot_snapshot_invariance Enemy.calculate_potency_damage dot_state0 dot_state1
           dot_d 1%nat 2%nat dot_source dot_target [OpStep 3000]).
  - apply (applied _ 1228 ActionID.HIGANBANA (Some 2%nat) (Some 1%nat) 60000 50%Q false).
    vm_compute. reflexivity.
  - reflexivity.
  - reflexivity.
  - reflexivity.
  - reflexivity.
Defined.

Example dot_scenario_damage :
  exists dmg, Enemy.calculate_potency_damage dot_source ActionID.HIGANBANA 50 DamageType.DOT
              = Ret dmg
              /\ (dist_mean (DamageResult.distrib dmg) == 5000)%Q
              /\ StatusEffect.snapshot_damage dot_d = Some dmg.
Proof.
  eexists. split; [vm_compute; reflexivity|]. split; reflexivity.
Qed.

(** ** [MixtureDistribution]: weights that are all zero *)

Lemma py_sum_from (l : list Q) (a : Q) : (fold_left Qplus l a == a + Qsum l)%Q.
Proof.
  revert a. induction l as [|x l IH]; intros a; simpl.
  - ring.
  - rewrite IH. ring.
Qed.

Lemma py_sum_Qsum (l : list Q) : (py_sum l == Qsum l)%Q.
Proof. unfold py_sum. rewrite py_sum_from. ring. Qed.

Lemma Qsum_all_zero (ws : list Q) :
  List.Forall (fun w => (w == 0)%Q) ws -> (Qsum ws == 0)%Q.
Proof.
  induction 1 as [|w ws Hw _ IH]; simpl; [reflexivity|].
  rewrite Hw, IH. ring.
Qed.

Lemma np_isclose_zero_one (s : Q) :
  (s == 0)%Q -> np_isclose s 1 (1 # 100000) = false.
Proof.
  intros Hs. unfold np_isclose.
  destruct (Qle_bool _ _) eqn:E; [|reflexivity].
  apply Qle_bool_iff in E. exfalso.
  assert (Hone : (Qabs' 1 == 1)%Q) by reflexivity.
  assert (Habs : (Qabs' (s - 1) == 1)%Q).
  { unfold Qabs'. destruct (Qle_bool 0 (s - 1)) eqn:E'.
    - apply Qle_bool_iff in E'. rewrite Hs in E'. now vm_compute in E'.
    - rewrite Hs. reflexivity. }
  rewrite Habs in E. now vm_compute in E.
Qed.

(** Every non-empty list of zero weights makes the constructor raise: the
    renormalisation divides by their sum before the empty-mixture guard of
    [_calculate_stats] is reached. *)
Lemma all_zero_weights_raise (components : list UniformDistribution.t) (ws : list Q) :
  length components = length ws ->
  ws <> [] ->
  List.Forall (fun w => (w == 0)%Q) ws ->
  MixtureDistribution.init components ws = Raise ZeroDivisionError.
Proof.
  intros Hlen Hne Hz. unfold MixtureDistribution.init.
  rewrite Hlen, Nat.eqb_refl. cbn [negb].
  assert (Hs : (py_sum ws == 0)%Q) by (rewrite py_sum_Qsum; now apply Qsum_all_zero).
  unfold MixtureDistribution.normalize.
  rewrite (np_isclose_zero_one _ Hs). cbn [negb].
  destruct ws as [|w ws]; [congruence|].
  cbn [py_mapM]. unfold py_truediv at 1.
  assert (E : Qeq_bool (py_sum (w :: ws)) 0 = true) by now apply Qeq_bool_iff.
  rewrite E. reflexivity.
Qed.

(** The guard does its work when there is no weight at all. *)
Lemma empty_mixture_is_zero :
  exists m, MixtureDistribution.init [] [] = Ret m
            /\ dist_min m = 0%Q /\ dist_max m = 0%Q /\ dist_mean m = 0%Q /\ dist_var m = 0%Q.
Proof. eexists. repeat split. Qed.

(** C7. [MixtureDistribution([UniformDistribution(10, 20)], [0.0])] raises
    [ZeroDivisionError]; it does not answer the all-zero mixture the claim asks
    for. *)
Theorem zero_weight_mixture_raises :
  MixtureDistribution.init zero_weight_components zero_weights = Raise ZeroDivisionError.
Proof. reflexivity. Qed.

(** ** [SumDistribution]: the four moments *)

Section SumMoments.
Context {D Grid : Type} `{BoundedDistribution D}.

Lemma compute_pmf_moments (xs pmf : Grid) (sd : SumDistribution.t D Grid) :
  dist_min (SumDistribution._compute_pmf xs pmf sd) = dist_min sd
  /\ dist_max (SumDistribution._compute_pmf xs pmf sd) = dist_max sd
  /\ dist_mean (SumDistribution._compute_pmf xs pmf sd) = dist_mean sd
  /\ dist_var (SumDistribution._compute_pmf xs pmf sd) = dist_var sd.
Proof.
  unfold SumDistribution._compute_pmf.
  destruct (SumDistribution._pmf_computed sd); repeat split.
Qed.
End SumMoments.

(** C8. The min, max, mean and variance of a [SumDistribution] are the sums of the
    components' min, max, mean and variance, before and after the convolution has
    been computed, whatever it computed; two [UniformDistribution(10, 20)] give
    mean 30, min 20 and max 40. *)
Theorem sum_distribution_moments {D Grid : Type} `{BoundedDistribution D}
    (ds : list D) (xs pmf : Grid) :
  let sd := SumDistribution.init (Grid := Grid) ds in
  let sd' := SumDistribution._compute_pmf xs pmf sd in
  let two := SumDistribution.init (Grid := Grid) two_uniforms in
  let two' := SumDistribution._compute_pmf xs pmf two in
  ((dist_min sd == Qsum (map dist_min ds))%Q
   /\ (dist_max sd == Qsum (map dist_max ds))%Q
   /\ (dist_mean sd == Qsum (map dist_mean ds))%Q
   /\ (dist_var sd == Qsum (map dist_var ds))%Q)
  /\ ((dist_min sd' == Qsum (map dist_min ds))%Q
      /\ (dist_max sd' == Qsum (map dist_max ds))%Q
      /\ (dist_mean sd' == Qsum (map dist_mean ds))%Q
      /\ (dist_var sd' == Qsum (map dist_var ds))%Q)
  /\ ((dist_mean two == 30)%Q /\ (dist_min two == 20)%Q /\ (dist_max two == 40)%Q)
  /\ ((dist_mean two' == 30)%Q /\ (dist_min two' == 20)%Q /\ (dist_max two' == 40)%Q).
Proof.
  intros sd sd' two two'.
  assert (Hsd : (dist_min sd == Qsum (map dist_min ds))%Q
                /\ (dist_max sd == Qsum (map dist_max ds))%Q
                /\ (dist_mean sd == Qsum (map dist_mean ds))%Q
                /\ (dist_var sd == Qsum (map dist_var ds))%Q).
  { repeat split; apply py_sum_Qsum. }
  split; [exact Hsd|].
  split.
  { subst sd'. destruct (compute_pmf_moments xs pmf sd) as (-> & -> & -> & ->). exact Hsd. }
  split; repeat split; reflexivity.
Qed.

(** ** [Rotation.to_dict] and [Rotation.from_dict] *)

Section RotationRoundTrip.
Context {Cond : Type}.

Lemma getattr_name (a : ActionID.t) : ActionID.getattr (ActionID.name a) = Some a.
Proof. destruct a; vm_compute; reflexivity. Qed.

Lemma add_entry_of (a : RotationAction.t Cond) (r : Rotation.t Cond) :
  Rotation.add_entry (entry_of a) r
  = Rotation.add_action (RotationAction.action_id a) (RotationAction.time a)
      None TargetType.CURRENT None r.
Proof.
  unfold Rotation.add_entry, entry_of. cbn [fold_left fst snd].
  now rewrite getattr_name.
Qed.

Lemma from_dict_entries (l : list (RotationAction.t Cond)) (acc : Rotation.t Cond) :
  Rotation.actions (fold_left (fun r e => Rotation.add_entry e r) (map entry_of l) acc)
  = Rotation.actions acc ++ map reloaded l.
Proof.
  revert acc. induction l as [|a l IH]; intros acc; cbn [map fold_left].
  - now rewrite app_nil_r.
  - rewrite add_entry_of, IH. cbn. now rewrite <- app_assoc.
Qed.

Lemma from_dict_name (entries : list (list (string * RotationDict.details)))
    (acc : Rotation.t Cond) :
  Rotation.name (fold_left (fun r e => Rotation.add_entry e r) entries acc)
  = Rotation.name acc.
Proof.
  revert acc. induction entries as [|e entries IH]; intros acc; simpl; [reflexivity|].
  rewrite IH. unfold Rotation.add_entry.
  generalize acc. induction e as [|kv e IHe]; intros acc'; simpl; [reflexivity|].
  rewrite IHe. now destruct (ActionID.getattr (fst kv)).
Qed.

(** C9. Serialising a rotation with [to_dict] and rebuilding it with [from_dict]
    succeeds and gives a rotation with the same name and the same ordered list of
    (action_id, time) pairs; every rebuilt entry is without condition. *)
Theorem rotation_round_trip (r : Rotation.t Cond) :
  exists r' : Rotation.t Cond,
    Rotation.from_dict (Rotation.to_dict r) = Ret r'
    /\ pairs r' = pairs r
    /\ Rotation.name r' = Rotation.name r
    /\ Forall (fun a => RotationAction.condition a = None) (Rotation.actions r').
Proof.
  destruct r as [n l o i e lc g].
  eexists. split; [reflexivity|].
  pose proof (from_dict_entries l (Rotation.init n)) as Hacts.
  cbn [Rotation.to_dict Rotation.from_dict RotationDict.name RotationDict.actions
       Rotation.name Rotation.actions].
  change (map _ l) with (map entry_of l).
  repeat split.
  - unfold pairs. rewrite Hacts. cbn. rewrite map_map. reflexivity.
  - now rewrite from_dict_name.
  - rewrite Hacts. cbn. apply List.Forall_forall. intros a Ha.
    apply in_map_iff in Ha. destruct Ha as [b [<- _]]. reflexivity.
Qed.
End RotationRoundTrip.

(** * Further properties of the code *)

(** ** [Arena]: the queue and the clock *)

Section ArenaQueue.
Context {Cb Chr : Type}.
Implicit Types (s : Arena.State Cb Chr).

Abbreviation queue s := (Arena.task_queue (Arena.arena s)).
Abbreviation now s := (Arena.current_time (Arena.arena s)).

(** X1. [schedule_task(delay, callback)] adds one task, for the current time plus
    the delay, to the queue and keeps every task that was there; a queue in heap
    order stays in heap order; the clock and the lists of characters stay as they
    are. *)
Theorem schedule_task_adds_one (delay : Z) (callback : Cb) s :
  Arena.task_queue (Arena.arena (Arena.schedule_task delay callback s))
  ≡ₚ Task.mk (Arena.current_time (Arena.arena s) + delay) callback
       :: Arena.task_queue (Arena.arena s)
  /\ (heap_ordered Task.time (Arena.task_queue (Arena.arena s)) ->
      heap_ordered Task.time
        (Arena.task_queue (Arena.arena (Arena.schedule_task delay callback s))))
  /\ Arena.current_time (Arena.arena (Arena.schedule_task delay callback s))
     = Arena.current_time (Arena.arena s)
  /\ Arena.players (Arena.arena (Arena.schedule_task delay callback s))
     = Arena.players (Arena.arena s)
  /\ Arena.enemies (Arena.arena (Arena.schedule_task delay callback s))
     = Arena.enemies (Arena.arena s)
  /\ Arena.objects (Arena.schedule_task delay callback s) = Arena.objects s.
Proof.
  cbn. split; [apply heappush_perm|].
  split; [apply (heappush_ordered Task.time)|].
  repeat split.
Qed.

Lemma times_bounded_below (l : list (Task.t Cb)) :
  forall x, x ∈ l -> fold_right Z.min 0 (map Task.time l) <= Task.time x.
Proof.
  induction l as [|y l IH]; intros x Hx; [inversion Hx|].
  cbn. apply elem_of_cons in Hx as [->|Hx]; [lia|]. specialize (IH x Hx). lia.
Qed.

Variable invoke : Cb -> Arena.State Cb Chr -> Arena.State Cb Chr.

Lemma inert_schedules_ahead : inert invoke -> schedules_ahead invoke.
Proof. intros Hinert c s. exists []. split; [constructor|apply Hinert]. Qed.

(** With callbacks that leave the arena alone, [_process_events] runs out of the
    queue's length at most. *)
Lemma process_events_inert (fuel : nat) :
  inert invoke ->
  forall s,
    heap_ordered Task.time (queue s) ->
    (length (queue s) <= fuel)%nat ->
    exists s',
      snd (Arena._process_events invoke fuel s) = Returned s'
      /\ fst (Arena._process_events invoke fuel s) ++ queue s' ≡ₚ queue s
      /\ Arena.players (Arena.arena s') = Arena.players (Arena.arena s)
      /\ Arena.enemies (Arena.arena s') = Arena.enemies (Arena.arena s).
Proof.
  intros Hinert. induction fuel as [|fuel IH]; intros s Hheap Hlen.
  all: cbn [Arena._process_events].
  all: destruct (queue s) as [|event rest] eqn:Hq in |- *;
    [exists s; cbn [fst snd]; rewrite Hq; auto|].
  all: destruct (now s <? Task.time event) eqn:Hdue;
    [exists s; cbn [fst snd]; rewrite Hq; auto|].
  - rewrite Hq in Hlen. cbn in Hlen. lia.
  - rewrite (Hinert (Task.callback event) s), Hq.
    destruct (Heapq.heappop Task.lt (event :: rest)) as [[popped q]|] eqn:Hpop.
    2:{ apply heappop_nonempty in Hpop; [contradiction|cbn; lia]. }
    destruct (heappop_perm _ _ _ _ Hpop) as [Hroot Hperm].
    cbn in Hroot. inversion Hroot; subst popped. apply Permutation_cons_inv in Hperm.
    rewrite Hq in Hheap.
    destruct (heappop_ordered Task.time _ _ _ Hheap Hpop) as [Hordq _].
    destruct (IH (Arena.set_task_queue q (invoke (Task.callback event) s)))
      as (s' & Hout & Htrace & Hpl & Hen).
    { exact Hordq. }
    { cbn. rewrite <- Hperm. rewrite Hq in Hlen. cbn in Hlen. lia. }
    destruct (Arena._process_events invoke fuel
                (Arena.set_task_queue q (invoke (Task.callback event) s)))
      as [trace out].
    cbn [fst snd] in *. exists s'. split; [exact Hout|].
    cbn in Htrace, Hpl, Hen. rewrite (Hinert (Task.callback event) s) in Hpl, Hen.
    split; [|auto]. cbn. now rewrite Htrace, Hperm.
Qed.

(** X2. [_process_events()] when the callbacks leave the arena alone and the queue
    is in heap order: the call returns once it may run as many tasks as the queue
    holds; the tasks run and the tasks left are together the tasks of the queue;
    the tasks run are those that were due, the tasks left are not due; the clock
    stays as it is. *)
Theorem process_events_runs_the_due_tasks (fuel : nat) s :
  inert invoke ->
  is_heap Task.time (Arena.task_queue (Arena.arena s)) = true ->
  (length (Arena.task_queue (Arena.arena s)) <= fuel)%nat ->
  exists s',
    snd (Arena._process_events invoke fuel s) = Returned s'
    /\ fst (Arena._process_events invoke fuel s) ++ Arena.task_queue (Arena.arena s')
       ≡ₚ Arena.task_queue (Arena.arena s)
    /\ Forall (fun e => Task.time e <= Arena.current_time (Arena.arena s))
              (fst (Arena._process_events invoke fuel s))
    /\ Forall (fun e => Arena.current_time (Arena.arena s) < Task.time e)
              (Arena.task_queue (Arena.arena s'))
    /\ Arena.current_time (Arena.arena s') = Arena.current_time (Arena.arena s).
Proof.
  intros Hinert Hheap%is_heap_ordered Hlen.
  destruct (process_events_inert fuel Hinert s Hheap Hlen) as (s' & Hout & Hperm & _).
  destruct (process_events_from invoke fuel (inert_schedules_ahead Hinert) s _ Hheap
              (times_bounded_below (queue s)))
    as (_ & Hbounds & _ & Hfinal).
  destruct (Hfinal s' Hout) as (Hnow & _ & Hleft).
  exists s'. split; [exact Hout|]. split; [exact Hperm|].
  split; [|split; [|exact Hnow]].
  - eapply Forall_impl; [exact Hbounds|]. intros x Hx. cbn in Hx. lia.
  - rewrite <- Hnow. exact Hleft.
Qed.
End ArenaQueue.

Lemma process_events_runs_the_due_tasks_witness :
  exists s',
    snd (Arena._process_events no_effect 5 timed_tasks_late) = Returned s'
    /\ fst (Arena._process_events no_effect 5 timed_tasks_late)
         ++ Arena.task_queue (Arena.arena s')
       ≡ₚ Arena.task_queue (Arena.arena timed_tasks_late)
    /\ Forall (fun e => Task.time e <= Arena.current_time (Arena.arena timed_tasks_late))
              (fst (Arena._process_events no_effect 5 timed_tasks_late))
    /\ Forall (fun e => Arena.current_time (Arena.arena timed_tasks_late) < Task.time e)
              (Arena.task_queue (Arena.arena s'))
    /\ Arena.current_time (Arena.arena s')
       = Arena.current_time (Arena.arena timed_tasks_late).
Proof.
  refine (process_events_runs_the_due_tasks no_effect 5 timed_tasks_late _ _ _).
  - intros c s. reflexivity.
  - vm_compute. reflexivity.
  - vm_compute. lia.
Defined.

(** ** [Arena._calc_step_size] and [Arena.step] *)

Lemma least_of_snoc (candidates : list (option Z)) (answer new : option Z) :
  least_of candidates answer ->
  least_of (candidates ++ [new]) (update_step_size answer new).
Proof.
  unfold least_of, update_step_size.
  destruct answer as [z|], new as [n|]; cbn.
  - intros [Hin Hall]. destruct (Z.ltb_spec n z).
    + split; [apply in_or_app; right; now left|].
      apply Forall_app; split; [|repeat constructor; lia].
      eapply Forall_impl; [exact Hall|]. intros [y|]; cbn; auto; lia.
    + split; [apply in_or_app; now left|].
      apply Forall_app; split; [exact Hall|repeat constructor; lia].
  - intros [Hin Hall]. split; [apply in_or_app; now left|].
    apply Forall_app; split; [exact Hall|repeat constructor].
  - intros Hall. split; [apply in_or_app; right; now left|].
    apply Forall_app; split; [|repeat constructor; lia].
    eapply Forall_impl; [exact Hall|]. intros c ->. exact I.
  - intros Hall. apply Forall_app; split; [exact Hall|repeat constructor].
Qed.

Lemma least_of_fold (new : list (option Z)) :
  forall candidates answer,
    least_of candidates answer ->
    least_of (candidates ++ new) (fold_left update_step_size new answer).
Proof.
  induction new as [|n new IH]; intros candidates answer Hleast; cbn [fold_left].
  - now rewrite app_nil_r.
  - replace (candidates ++ n :: new) with ((candidates ++ [n]) ++ new)
      by (now rewrite <- app_assoc).
    apply IH, least_of_snoc, Hleast.
Qed.

Section ArenaStep.
Context {Cb Chr : Type}.
Implicit Types (s : Arena.State Cb Chr).
Variable invoke : Cb -> Arena.State Cb Chr -> Arena.State Cb Chr.
Variable chr_calc_step_size : Ref -> Arena.State Cb Chr -> option Z.
Variable chr_step : Z -> Ref -> Arena.State Cb Chr -> Arena.State Cb Chr.

Lemma fold_answers (refs : list Ref) s (answer : option Z) :
  fold_left (fun acc r => update_step_size acc (chr_calc_step_size r s)) refs answer
  = fold_left update_step_size (map (fun r => chr_calc_step_size r s) refs) answer.
Proof. revert answer. induction refs as [|r refs IH]; intros answer; cbn; auto. Qed.

(** X3. [_calc_step_size()] answers the least of the time to the first task of the
    queue and the step sizes the players and the enemies ask for, and [None] when
    there is no task and no character asks for a step. *)
Theorem arena_calc_step_size_is_least s :
  least_of (step_candidates chr_calc_step_size s)
           (Arena._calc_step_size chr_calc_step_size s).
Proof.
  unfold Arena._calc_step_size, step_candidates. rewrite !fold_answers.
  rewrite app_assoc. apply least_of_fold, least_of_fold.
  destruct (Arena.task_queue (Arena.arena s)) as [|event rest]; cbn.
  - constructor.
  - split; [now left|]. repeat constructor. lia.
Qed.

Hypothesis invoke_inert : inert invoke.
Hypothesis characters_passive : passive chr_calc_step_size chr_step.

Lemma calc_step_size_passive s :
  Arena._calc_step_size chr_calc_step_size s
  = match Arena.task_queue (Arena.arena s) with
    | event :: _ => Some (Task.time event - Arena.current_time (Arena.arena s))
    | [] => None
    end.
Proof.
  destruct characters_passive as [Hnone _].
  unfold Arena._calc_step_size.
  assert (Hfold : forall refs answer,
             fold_left (fun acc r => update_step_size acc (chr_calc_step_size r s))
                       refs answer = answer).
  { induction refs as [|r refs IH]; intros answer; cbn; [reflexivity|].
    now rewrite Hnone, IH. }
  now rewrite !Hfold.
Qed.

Lemma advance_passive (step_size : Z) s :
  Arena.arena (Arena.advance chr_step step_size s)
  = Arena.arena (Arena.set_current_time (Arena.current_time (Arena.arena s) + step_size) s).
Proof.
  destruct characters_passive as [_ Hsame].
  unfold Arena.advance.
  assert (Hfold : forall refs s0,
             Arena.arena (fold_left (fun s r => chr_step step_size r s) refs s0)
             = Arena.arena s0).
  { induction refs as [|r refs IH]; intros s0; cbn; [reflexivity|].
    now rewrite IH, Hsame. }
  now rewrite !Hfold.
Qed.

(** What a run of [_process_events] leaves, with enough fuel. *)
Lemma events_inert (fuel : nat) s :
  heap_ordered Task.time (Arena.task_queue (Arena.arena s)) ->
  (length (Arena.task_queue (Arena.arena s)) <= fuel)%nat ->
  exists s',
    snd (Arena._process_events invoke fuel s) = Returned s'
    /\ Arena.current_time (Arena.arena s') = Arena.current_time (Arena.arena s)
    /\ heap_ordered Task.time (Arena.task_queue (Arena.arena s'))
    /\ Forall (fun e => Arena.current_time (Arena.arena s') < Task.time e)
              (Arena.task_queue (Arena.arena s'))
    /\ Arena.task_queue (Arena.arena s') ⊆+ Arena.task_queue (Arena.arena s).
Proof.
  intros Hheap Hlen.
  destruct (process_events_inert invoke fuel invoke_inert s Hheap Hlen)
    as (s' & Hout & Hperm & _).
  destruct (process_events_from invoke fuel (inert_schedules_ahead invoke invoke_inert) s _
              Hheap (times_bounded_below (Arena.task_queue (Arena.arena s))))
    as (_ & _ & _ & Hfinal).
  destruct (Hfinal s' Hout) as (Hnow & Hheap' & Hleft).
  exists s'. repeat split; auto.
  rewrite <- Hperm. apply submseteq_inserts_l. reflexivity.
Qed.

(** The loop of [step], from its head: with the frame at its end, or with fuel for
    two rounds a task, or with a task due and one round less. *)
Lemma step_loop_passive (fuel : nat) :
  forall (remaining_time : Z) s,
    heap_ordered Task.time (Arena.task_queue (Arena.arena s)) ->
    0 <= remaining_time ->
    (remaining_time = 0 /\ (length (Arena.task_queue (Arena.arena s)) <= fuel)%nat)
    \/ (2 * length (Arena.task_queue (Arena.arena s)) + 2 <= fuel)%nat
    \/ ((2 * length (Arena.task_queue (Arena.arena s)) + 1 <= fuel)%nat
        /\ exists event rest,
             Arena.task_queue (Arena.arena s) = event :: rest
             /\ Task.time event <= Arena.current_time (Arena.arena s)) ->
    exists s',
      Arena.step_loop invoke chr_calc_step_size chr_step fuel remaining_time s = Returned s'
      /\ Arena.current_time (Arena.arena s')
         = Arena.current_time (Arena.arena s) + remaining_time
      /\ Forall (fun e => Arena.current_time (Arena.arena s') < Task.time e)
                (Arena.task_queue (Arena.arena s'))
      /\ Arena.task_queue (Arena.arena s') ⊆+ Arena.task_queue (Arena.arena s).
Proof.
  induction fuel as [|fuel IH]; intros remaining_time s Hheap Hrem Hfuel.
  - destruct Hfuel as [[-> Hlen]|[Hlen|[Hlen _]]]; try lia.
    destruct (events_inert 0 s Hheap Hlen) as (s1 & Hout & Hnow & _ & Hleft & Hsub).
    exists s1. cbn [Arena.step_loop]. rewrite Hout. cbn. repeat split; auto. lia.
  - assert (Hlen : (length (Arena.task_queue (Arena.arena s)) <= S fuel)%nat).
    { destruct Hfuel as [[_ Hlen]|[Hlen|[Hlen _]]]; lia. }
    destruct (events_inert (S fuel) s Hheap Hlen)
      as (s1 & Hout & Hnow & Hheap1 & Hleft & Hsub).
    rewrite step_loop_S, Hout.
    destruct (Z.leb_spec remaining_time 0) as [Hdone|Hmore].
    { exists s1. repeat split; auto. lia. }
    cbv zeta.
    (* the queue after the events is shorter when a task was due *)
    assert (Hshort : (2 * length (Arena.task_queue (Arena.arena s1)) + 1 <= fuel)%nat).
    { pose proof (submseteq_length _ _ Hsub) as Hle.
      destruct Hfuel as [[-> _]|[Hfuel|[Hfuel (event & rest & Hq & Hdue)]]]; try lia.
      assert (Hlt : length (Arena.task_queue (Arena.arena s1))
                    <> length (Arena.task_queue (Arena.arena s))).
      { intros Heq. apply submseteq_length_Permutation in Hsub; [|lia].
        assert (Hin : event ∈ Arena.task_queue (Arena.arena s1)).
        { rewrite Hsub, Hq. constructor. }
        rewrite List.Forall_forall in Hleft.
        apply list_elem_of_In, Hleft in Hin. lia. }
      lia. }
    set (step_size := Arena.next_step_size chr_calc_step_size remaining_time s1).
    assert (Hsize : (step_size = remaining_time
                     \/ exists event rest,
                          Arena.task_queue (Arena.arena s1) = event :: rest
                          /\ step_size
                             = Task.time event - Arena.current_time (Arena.arena s1))
                    /\ step_size <= remaining_time).
    { subst step_size. unfold Arena.next_step_size.
      rewrite calc_step_size_passive.
      destruct (Arena.task_queue (Arena.arena s1)) as [|event rest]; [split; [now left|lia]|].
      destruct (Z.ltb_spec remaining_time
                  (Task.time event - Arena.current_time (Arena.arena s1)));
        [split; [now left|lia]|].
      split; [right; now exists event, rest|lia]. }
    destruct Hsize as [Hsize Hle].
    destruct (IH (remaining_time - step_size) (Arena.advance chr_step step_size s1))
      as (s' & Hloop & Hnow' & Hleft' & Hsub').
    + rewrite advance_passive. exact Hheap1.
    + lia.
    + rewrite advance_passive. cbn [Arena.set_current_time Arena.arena Arena.task_queue
                                   Arena.current_time].
      destruct Hsize as [->|(event & rest & Hq & ->)].
      * left. split; lia.
      * right. right. split; [exact Hshort|]. exists event, rest. split; [exact Hq|lia].
    + exists s'. split; [exact Hloop|].
      rewrite advance_passive in Hnow', Hsub'.
      cbn [Arena.set_current_time Arena.arena Arena.task_queue Arena.current_time]
        in Hnow', Hsub'.
      split; [lia|]. split; [exact Hleft'|]. now rewrite Hsub'.
Qed.

(** X4. [step(frame_delta)] on an arena whose callbacks leave the arena alone and
    whose characters never ask for a step: for a frame that is not negative and a
    queue in heap order the call returns (within two rounds of the loop a task and
    two more), the clock has advanced by [frame_delta] exactly, no task that is
    due is left in the queue, and the queue holds no task it did not hold
    before. *)
Theorem arena_step_reaches_frame_end (fuel : nat) (frame_delta : Z) s :
  is_heap Task.time (Arena.task_queue (Arena.arena s)) = true ->
  0 <= frame_delta ->
  (2 * length (Arena.task_queue (Arena.arena s)) + 2 <= fuel)%nat ->
  exists s',
    Arena.step invoke chr_calc_step_size chr_step fuel frame_delta s = Returned s'
    /\ Arena.current_time (Arena.arena s')
       = Arena.current_time (Arena.arena s) + frame_delta
    /\ Forall (fun e => Arena.current_time (Arena.arena s') < Task.time e)
              (Arena.task_queue (Arena.arena s'))
    /\ Arena.task_queue (Arena.arena s') ⊆+ Arena.task_queue (Arena.arena s).
Proof.
  intros Hheap%is_heap_ordered Hdelta Hfuel.
  apply step_loop_passive; auto.
Qed.
End ArenaStep.

Lemma arena_step_reaches_frame_end_witness :
  exists s',
    Arena.step no_effect never_asks stands_still 12 1500 timed_tasks = Returned s'
    /\ Arena.current_time (Arena.arena s')
       = Arena.current_time (Arena.arena timed_tasks) + 1500
    /\ Forall (fun e => Arena.current_time (Arena.arena s') < Task.time e)
              (Arena.task_queue (Arena.arena s'))
    /\ Arena.task_queue (Arena.arena s') ⊆+ Arena.task_queue (Arena.arena timed_tasks).
Proof.
  refine (arena_step_reaches_frame_end no_effect never_asks stands_still _ _
            12 1500 timed_tasks _ _ _).
  - intros c s. reflexivity.
  - split; intros; reflexivity.
  - vm_compute. reflexivity.
  - lia.
  - vm_compute. lia.
Defined.

(** The run of the scenario: the four tasks due by 1500 are gone, the clock is at
    1500. *)
Example timed_tasks_step :
  Arena.step no_effect never_asks stands_still 12 1500 timed_tasks
  = Returned (Arena.mkState
                (Arena.mk [Task.mk 2000 5%nat] 1500 [] []) ∅).
Proof. vm_compute. reflexivity. Qed.

(** ** [RecastDetail.step] *)

(** X5. Stepping a cooldown by [a] and then by [b], [b] not negative, is stepping
    it by [a + b]: how the arena cuts the time into steps does not show in the
    cooldowns. *)
Theorem recast_step_additive (a b : Z) (rd : RecastDetail.t) :
  0 <= b ->
  RecastDetail.step b (RecastDetail.step a rd) = RecastDetail.step (a + b) rd.
Proof.
  intros Hb. unfold RecastDetail.step.
  destruct (Z.leb_spec (RecastDetail.total rd) (RecastDetail.time_elapsed rd + a));
    cbn [RecastDetail.time_elapsed RecastDetail.total RecastDetail.action_id].
  - destruct (Z.leb_spec 0 (0 + b)); [|lia].
    destruct (Z.leb_spec (RecastDetail.total rd) (RecastDetail.time_elapsed rd + (a + b)));
      [reflexivity|lia].
  - rewrite Z.add_assoc.
    destruct (Z.leb_spec (RecastDetail.total rd) (RecastDetail.time_elapsed rd + a + b));
      reflexivity.
Qed.

Lemma recast_step_additive_witness :
  RecastDetail.step 200 (RecastDetail.step 100 (RecastDetail.mk ActionID.HAKAZE 0 2500))
  = RecastDetail.step (100 + 200) (RecastDetail.mk ActionID.HAKAZE 0 2500).
Proof.
  apply (recast_step_additive 100 200 (RecastDetail.mk ActionID.HAKAZE 0 2500)). lia.
Defined.

(** X6. An active cooldown stepped by [d], [d] not negative, is active afterwards
    exactly when [d] is less than its remaining time; its remaining time goes
    down by [d], to 0 at most, where it is reset to the idle state (0 of 0); the
    action it belongs to stays. *)
Theorem recast_detail_runs_out (d : Z) (rd : RecastDetail.t) :
  RecastDetail.is_active rd = true ->
  0 <= d ->
  RecastDetail.is_active (RecastDetail.step d rd) = (d <? RecastDetail.remaining rd)
  /\ RecastDetail.remaining (RecastDetail.step d rd)
     = Z.max 0 (RecastDetail.remaining rd - d)
  /\ (RecastDetail.remaining rd <= d ->
      RecastDetail.step d rd = RecastDetail.mk (RecastDetail.action_id rd) 0 0)
  /\ RecastDetail.action_id (RecastDetail.step d rd) = RecastDetail.action_id rd.
Proof.
  unfold RecastDetail.is_active, RecastDetail.step, RecastDetail.remaining.
  intros Hactive Hd.
  apply andb_prop in Hactive as [Ht Hactive]. apply andb_prop in Hactive as [He Hlt].
  apply Z.ltb_lt in Ht, Hlt. apply Z.leb_le in He.
  destruct (Z.leb_spec (RecastDetail.total rd) (RecastDetail.time_elapsed rd + d));
    cbn [RecastDetail.time_elapsed RecastDetail.total RecastDetail.action_id].
  - repeat split; lia.
  - repeat split; lia.
Qed.

Lemma recast_detail_runs_out_witness :
  RecastDetail.is_active (RecastDetail.step 2500 (RecastDetail.mk ActionID.HAKAZE 100 2500))
  = (2500 <? RecastDetail.remaining (RecastDetail.mk ActionID.HAKAZE 100 2500))
  /\ RecastDetail.remaining (RecastDetail.step 2500 (RecastDetail.mk ActionID.HAKAZE 100 2500))
     = Z.max 0 (RecastDetail.remaining (RecastDetail.mk ActionID.HAKAZE 100 2500) - 2500)
  /\ (RecastDetail.remaining (RecastDetail.mk ActionID.HAKAZE 100 2500) <= 2500 ->
      RecastDetail.step 2500 (RecastDetail.mk ActionID.HAKAZE 100 2500)
      = RecastDetail.mk (RecastDetail.action_id (RecastDetail.mk ActionID.HAKAZE 100 2500)) 0 0)
  /\ RecastDetail.action_id (RecastDetail.step 2500 (RecastDetail.mk ActionID.HAKAZE 100 2500))
     = RecastDetail.action_id (RecastDetail.mk ActionID.HAKAZE 100 2500).
Proof.
  apply (recast_detail_runs_out 2500 (RecastDetail.mk ActionID.HAKAZE 100 2500)).
  - reflexivity.
  - lia.
Defined.

(** ** [ActionManager]: a manager that casts nothing *)

Section ManagerAtRest.
Context {Cb : Type}.
Implicit Types (am : ActionManager.t Cb) (act : PvEAction.t) (rd : RecastDetail.t).
Variable invoke : Cb -> ActionManager.t Cb -> ActionManager.t Cb.

(** A step of a manager that is not casting, attribute by attribute. *)
Lemma wait_quiet (d : Z) am :
  ActionManager.is_casting am = false ->
  ActionManager.actions (wait invoke d am) = ActionManager.actions am
  /\ ActionManager.cooldowns (wait invoke d am)
     = RecastDetail.step d <$> ActionManager.cooldowns am
  /\ ActionManager.is_casting (wait invoke d am) = false
  /\ ActionManager.last_combo_action_id (wait invoke d am)
     = ActionManager.last_combo_action_id (ActionManager._update_combo_state d am)
  /\ ActionManager.last_combo_time (wait invoke d am)
     = ActionManager.last_combo_time (ActionManager._update_combo_state d am)
  /\ ActionManager.animation_lock (wait invoke d am)
     = Z.max 0 (ActionManager.animation_lock am - d)
  /\ ActionManager.casting_time (wait invoke d am) = 0.
Proof.
  intros Hc.
  unfold wait, ActionManager.step, ActionManager._update_action_cast, ActionManager.modify,
    own_get, own_set.
  change (ActionManager.is_casting
            (ActionManager.set_animation_lock _ (ActionManager.set_last_action _ _ am)))
    with (ActionManager.is_casting am).
  rewrite Hc. cbn [fst].
  unfold ActionManager._update_combo_state.
  cbn [ActionManager.last_combo_action_id ActionManager.last_combo_time
       ActionManager.cancel_casting ActionManager.set_casting_apply_callback
       ActionManager.set_casting ActionManager.set_animation_lock
       ActionManager.set_last_action].
  destruct (negb _); try destruct (_ <=? 0); repeat split; reflexivity.
Qed.

(** The recast time of an action whose speed is not modified: for an action of
    the global cooldown group the whole tens of it, for any other its own. *)
Lemma floor_to_10_unmodified (n : Z) (s : Q) :
  (s == 1)%Q -> floor_to_10 (inject_Z n * s) = n / 10 * 10.
Proof.
  intros Hs. unfold floor_to_10. f_equal.
  assert (E : (inject_Z n * s / 10 == n # 10)%Q).
  { rewrite Hs. unfold Qeq, Qdiv, Qmult, Qinv, inject_Z. cbn. lia. }
  rewrite E. reflexivity.
Qed.

Lemma adjusted_recast_time_unmodified (speed : SpeedFlags.t -> Q) (id : ActionID.t) am act :
  ActionManager.get_action id am = Some act ->
  unmodified_recast speed act ->
  ActionManager.get_adjusted_recast_time speed id am = plain_recast_time act.
Proof.
  intros Hact Hspeed. unfold ActionManager.get_adjusted_recast_time, plain_recast_time.
  rewrite Hact.
  destruct (Z.eqb_spec (PvEAction.cooldown_group act) RECAST_GROUP_GCD) as [E|NE];
    [|reflexivity].
  destruct Hspeed as [Hne|[Hs _]]; [contradiction|].
  now apply floor_to_10_unmodified.
Qed.

Lemma one_charge_cooldown_adjusted (speed : SpeedFlags.t -> Q) (id : ActionID.t)
    (tol d : Z) am act rd :
  ActionManager.get_action id am = Some act ->
  ActionManager.cooldowns am !! PvEAction.cooldown_group act = Some rd ->
  PvEAction.cooldown_group act <> 0 ->
  PvEAction.additional_cooldown_group act = 0 ->
  PvEAction.max_charges act = 1 ->
  ActionManager.is_casting am = false ->
  0 <= tol -> 0 <= d ->
  ActionManager.is_action_offcooldown id (Some tol)
    (wait invoke d (ActionManager.start_cooldown speed id am))
  = Ret (ActionManager.get_adjusted_recast_time speed id am <=? d + tol).
Proof.
  intros Hact Hrd Hg Hg2 Hmc Hc Htol Hd.
  destruct (start_cooldown_primary speed id am act rd Hact Hrd) as [Hact' Hrd'];
    [congruence|].
  cbv zeta in Hrd'. rewrite Hmc in Hrd'. change (1 <=? 1) with true in Hrd'.
  cbv iota in Hrd'.
  set (r := ActionManager.get_adjusted_recast_time speed id am) in *.
  pose proof (start_cooldown_is_casting speed id am) as Hc'. rewrite Hc in Hc'.
  destruct (wait_quiet d _ Hc') as (Hacts & Hcds & _).
  unfold ActionManager.is_action_offcooldown, ActionManager.get_recast_detail,
    ActionManager.get_additional_recast_detail, ActionManager.get_recast_group,
    ActionManager.get_additional_recast_group, ActionManager.get_max_charges,
    ActionManager.get_action in *.
  rewrite Hacts, Hact', Hcds, lookup_fmap, Hrd', Hg2, Hmc.
  cbn [fmap option_fmap option_map Z.eqb].
  rewrite (proj2 (Z.leb_le 0 tol) Htol).
  unfold RecastDetail.step, RecastDetail.is_active.
  cbn [RecastDetail.time_elapsed RecastDetail.total RecastDetail.action_id].
  destruct (Z.leb_spec r (0 + d)) as [Hout|Hin];
    cbn [RecastDetail.time_elapsed RecastDetail.total RecastDetail.action_id andb Z.ltb
         Z.compare].
  - f_equal. symmetry. apply Z.leb_le. lia.
  - rewrite (proj2 (Z.ltb_lt 0 r)) by lia.
    rewrite (proj2 (Z.leb_le 0 (0 + d))) by lia.
    rewrite (proj2 (Z.ltb_lt (0 + d) r)) by lia.
    cbn [andb]. unfold py_truediv.
    change (Qeq_bool (inject_Z 1) 0) with false. cbv iota. cbn [py_bind].
    destruct (Qle_bool (inject_Z r / inject_Z 1) (inject_Z (0 + d + tol))) eqn:Hq;
      cbn [negb]; f_equal; symmetry.
    + apply Qle_bool_iff in Hq. unfold Qle in Hq. cbn in Hq. apply Z.leb_le. lia.
    + apply Z.leb_gt. destruct (Z.lt_ge_cases (d + tol) r) as [|Hge]; [assumption|].
      assert (Hq' : Qle_bool (inject_Z r / inject_Z 1) (inject_Z (0 + d + tol)) = true).
      { apply Qle_bool_iff. unfold Qle. cbn. lia. }
      congruence.
Qed.

(** X7. A registered action of one charge whose cooldown group has its
    [RecastDetail], with no secondary group, on a manager that is not casting,
    and with a recast time that no speed modifier changes (the action is not of
    the global cooldown group, or the speed multiplier is 1): [d] milliseconds
    after [start_cooldown], [is_action_offcooldown(action, tolerance)] answers
    true exactly when the recast time has passed, the tolerance counted in; for
    an action of the global cooldown group the recast time counts in whole
    tens. *)
Theorem one_charge_cooldown (speed : SpeedFlags.t -> Q) (id : ActionID.t) (tol d : Z)
    am act rd :
  ActionManager.get_action id am = Some act ->
  ActionManager.cooldowns am !! PvEAction.cooldown_group act = Some rd ->
  PvEAction.cooldown_group act <> 0 ->
  PvEAction.additional_cooldown_group act = 0 ->
  PvEAction.max_charges act = 1 ->
  unmodified_recast speed act ->
  ActionManager.is_casting am = false ->
  0 <= tol -> 0 <= d ->
  ActionManager.is_action_offcooldown id (Some tol)
    (wait invoke d (ActionManager.start_cooldown speed id am))
  = Ret (plain_recast_time act <=? d + tol).
Proof.
  intros Hact Hrd Hg Hg2 Hmc Hspeed Hc Htol Hd.
  rewrite (one_charge_cooldown_adjusted speed id tol d am act rd) by assumption.
  now rewrite (adjusted_recast_time_unmodified speed id am act Hact Hspeed).
Qed.

(** X8. An action with [max_charges = 0] whose group is active and which no
    secondary group blocks: [is_action_offcooldown] divides the total by the number
    of charges and raises [ZeroDivisionError]. *)
Theorem no_charges_division_by_zero (id : ActionID.t) (tol : option Z) am act rd :
  ActionManager.get_action id am = Some act ->
  ActionManager.cooldowns am !! PvEAction.cooldown_group act = Some rd ->
  PvEAction.max_charges act = 0 ->
  RecastDetail.is_active rd = true ->
  ActionManager.get_additional_recast_detail id am = None ->
  ActionManager.is_action_offcooldown id tol am = Raise ZeroDivisionError.
Proof.
  intros Hact Hrd Hmc Hactive Hadd.
  unfold ActionManager.is_action_offcooldown, ActionManager.get_recast_detail,
    ActionManager.get_recast_group, ActionManager.get_max_charges.
  rewrite Hact, Hrd, Hadd, Hactive, Hmc. reflexivity.
Qed.

(** What [register_action] leaves in the two dicts. *)
Lemma register_action_spec act am :
  ActionManager.get_action (PvEAction.action_id act) (ActionManager.register_action act am)
  = Some act
  /\ (forall id, ActionID.value id <> ActionID.value (PvEAction.action_id act) ->
        ActionManager.get_action id (ActionManager.register_action act am)
        = ActionManager.get_action id am)
  /\ (forall g rd, ActionManager.cooldowns am !! g = Some rd ->
        ActionManager.cooldowns (ActionManager.register_action act am) !! g = Some rd)
  /\ (forall g rd,
        ActionManager.cooldowns (ActionManager.register_action act am) !! g = Some rd ->
        ActionManager.cooldowns am !! g = Some rd
        \/ (rd = RecastDetail.mk (PvEAction.action_id act) 0 0
            /\ 0 < g
            /\ (g = PvEAction.cooldown_group act
                \/ g = PvEAction.additional_cooldown_group act))).
Proof.
  unfold ActionManager.register_action, ActionManager.get_action.
  destruct (Z.ltb_spec 0 (PvEAction.cooldown_group act)) as [Hg|Hg];
    [destruct (decide (ActionManager.cooldowns am !! PvEAction.cooldown_group act = None))
       as [Hn|Hn];
     [rewrite (bool_decide_eq_true_2 _ Hn)|rewrite (bool_decide_eq_false_2 _ Hn)]|];
    cbn [andb ActionManager.cooldowns ActionManager.actions ActionManager.set_cooldowns
         ActionManager.set_actions].
  all: destruct (Z.ltb_spec 0 (PvEAction.additional_cooldown_group act)) as [Hg2|Hg2];
    cbn [andb ActionManager.cooldowns ActionManager.actions ActionManager.set_cooldowns
         ActionManager.set_actions].
  all: try match goal with
           | |- context [bool_decide ?P] =>
               destruct (decide P) as [Hn2|Hn2];
               [rewrite (bool_decide_eq_true_2 _ Hn2)|rewrite (bool_decide_eq_false_2 _ Hn2)];
               cbn [andb ActionManager.cooldowns ActionManager.actions
                    ActionManager.set_cooldowns ActionManager.set_actions]
           end.
  all: split; [apply lookup_insert_eq|].
  all: split; [intros id Hid; apply lookup_insert_ne; congruence|].
  all: split; [intros g rd Hrd|intros g rd Hrd].
  all: rewrite ?lookup_insert_Some in *.
  all: try (apply lookup_insert_None in Hn2).
  all: intuition (subst; auto; try congruence; try lia).
Qed.

(** X9. [register_action(action)]: the action is found under its identifier, the
    other identifiers answer as before; a cooldown group that exists keeps its
    state, and a group that is new is one of the two groups of the action, has a
    positive number and is idle. *)
Theorem register_action_lookup act am :
  ActionManager.get_action (PvEAction.action_id act) (ActionManager.register_action act am)
  = Some act
  /\ (forall id, ActionID.value id <> ActionID.value (PvEAction.action_id act) ->
        ActionManager.get_action id (ActionManager.register_action act am)
        = ActionManager.get_action id am)
  /\ (forall g rd, ActionManager.cooldowns am !! g = Some rd ->
        ActionManager.cooldowns (ActionManager.register_action act am) !! g = Some rd)
  /\ (forall g rd,
        ActionManager.cooldowns (ActionManager.register_action act am) !! g = Some rd ->
        ActionManager.cooldowns am !! g = Some rd
        \/ (rd = RecastDetail.mk (PvEAction.action_id act) 0 0
            /\ 0 < g
            /\ (g = PvEAction.cooldown_group act
                \/ g = PvEAction.additional_cooldown_group act))).
Proof. apply register_action_spec. Qed.
End ManagerAtRest.

(** Hakaze, of the global cooldown group, with no status on the owner: ready
    again 2500 ms after its use, a tolerance of 500 ms counted in. *)
Lemma one_charge_cooldown_witness :
  ActionManager.is_action_offcooldown ActionID.HAKAZE (Some 500)
    (wait no_effect 2000
       (ActionManager.start_cooldown no_speed_modifiers ActionID.HAKAZE
          global_cooldown_registered))
  = Ret (plain_recast_time global_cooldown_action <=? 2000 + 500).
Proof.
  refine (one_charge_cooldown no_effect no_speed_modifiers ActionID.HAKAZE 500 2000
            global_cooldown_registered global_cooldown_action
            (RecastDetail.mk ActionID.HAKAZE 0 0) _ _ _ _ _ _ _ _ _).
  - reflexivity.
  - reflexivity.
  - discriminate.
  - reflexivity.
  - reflexivity.
  - right. split; [reflexivity|vm_compute; reflexivity].
  - reflexivity.
  - lia.
  - lia.
Defined.

Lemma no_charges_division_by_zero_witness :
  ActionManager.is_action_offcooldown ActionID.IKISHOTEN (Some 0) no_charge_used
  = Raise ZeroDivisionError.
Proof.
  refine (no_charges_division_by_zero ActionID.IKISHOTEN (Some 0) no_charge_used
            no_charge_action (RecastDetail.mk ActionID.IKISHOTEN 0 60000) _ _ _ _ _).
  - reflexivity.
  - reflexivity.
  - reflexivity.
  - reflexivity.
  - reflexivity.
Defined.

Lemma Zsum_nonneg (sizes : list Z) : Forall (fun d => 0 <= d) sizes -> 0 <= Zsum sizes.
Proof. unfold Zsum. induction 1; cbn [fold_right]; lia. Qed.

Section ManagerInvariants.
Context {Cb : Type}.
Implicit Types (am : ActionManager.t Cb) (act : PvEAction.t) (rd : RecastDetail.t).
Variable invoke : Cb -> ActionManager.t Cb -> ActionManager.t Cb.
Variable speed : SpeedFlags.t -> Q.

Lemma register_action_is_casting act am :
  ActionManager.is_casting (ActionManager.register_action act am)
  = ActionManager.is_casting am.
Proof.
  unfold ActionManager.register_action.
  repeat match goal with
         | |- context [if ?b then _ else _] => destruct b
         end; reflexivity.
Qed.

(** [start_cooldown] writes to groups that exist. *)
Lemma start_cooldown_no_new_group (id : ActionID.t) (g : Z) am :
  ActionManager.cooldowns am !! g = None ->
  ActionManager.cooldowns (ActionManager.start_cooldown speed id am) !! g = None.
Proof.
  intros Hg. unfold ActionManager.start_cooldown, ActionManager.get_recast_detail.
  destruct (ActionManager.cooldowns am !! ActionManager.get_recast_group id am)
    as [rd|] eqn:Hrd; [|exact Hg].
  match goal with
  | |- context [let '(elapsed, total) := ?X in _] => destruct X as [el to]
  end.
  assert (Hne : ActionManager.get_recast_group id am <> g) by congruence.
  unfold ActionManager.get_additional_recast_detail, ActionManager.get_recast_group,
    ActionManager.get_additional_recast_group, ActionManager.get_action in *.
  cbn [ActionManager.actions ActionManager.cooldowns ActionManager.set_cooldowns].
  destruct (ActionManager.actions am !! ActionID.value id) as [act|] eqn:Hact.
  2:{ tidy_cooldowns Hact. cbn [Z.eqb]. tidy_cooldowns Hact.
      now rewrite !lookup_insert_ne by exact Hne. }
  tidy_cooldowns Hact.
  destruct (PvEAction.additional_cooldown_group act =? 0); tidy_cooldowns Hact.
  { now rewrite !lookup_insert_ne by exact Hne. }
  destruct (decide (PvEAction.additional_cooldown_group act = PvEAction.cooldown_group act))
    as [He|Hne2].
  { rewrite He in *. tidy_cooldowns Hact. now rewrite !lookup_insert_ne by exact Hne. }
  rewrite (lookup_insert_ne _ (PvEAction.cooldown_group act)
             (PvEAction.additional_cooldown_group act)) by congruence.
  destruct (ActionManager.cooldowns am !! PvEAction.additional_cooldown_group act)
    as [rd2|] eqn:Hrd2; tidy_cooldowns Hact.
  - rewrite (lookup_insert_ne _ (PvEAction.additional_cooldown_group act)
               (PvEAction.cooldown_group act)) by congruence.
    tidy_cooldowns Hact.
    assert (PvEAction.additional_cooldown_group act <> g) by congruence.
    now rewrite !lookup_insert_ne by assumption.
  - now rewrite !lookup_insert_ne by exact Hne.
Qed.

(** What the operations keep: no group 0, no cast. *)
Lemma manager_ops_keep (ops : list ManagerOp) :
  forall am,
    ActionManager.cooldowns am !! 0 = None ->
    ActionManager.is_casting am = false ->
    ActionManager.cooldowns (manager_ops invoke speed ops am) !! 0 = None
    /\ ActionManager.is_casting (manager_ops invoke speed ops am) = false.
Proof.
  induction ops as [|o ops IH]; intros am H0 Hc; cbn [manager_ops fold_left]; [auto|].
  apply IH; destruct o as [act|id|d]; cbn [manager_op].
  - destruct (ActionManager.cooldowns (ActionManager.register_action act am) !! 0)
      as [rd|] eqn:Hrd; [|reflexivity].
    destruct (proj2 (proj2 (proj2 (register_action_spec act am))) 0 rd Hrd)
      as [Hold|(_ & Hpos & _)]; [congruence|lia].
  - now apply start_cooldown_no_new_group.
  - destruct (wait_quiet invoke d am Hc) as (_ & -> & _). now rewrite lookup_fmap, H0.
  - now rewrite register_action_is_casting.
  - now rewrite start_cooldown_is_casting.
  - now destruct (wait_quiet invoke d am Hc) as (_ & _ & -> & _).
Qed.

(** X10. A manager that has only had actions registered, cooldowns started and
    time passing since it was made: for an action that is not registered,
    [is_action_offcooldown] answers false whatever the tolerance,
    [is_charge_exhausted] answers false, and [start_cooldown] changes nothing. *)
Theorem unregistered_action_never_ready (ops : list ManagerOp) (id : ActionID.t)
    (tol : option Z) :
  ActionManager.get_action id (manager_ops invoke speed ops ActionManager.init) = None ->
  ActionManager.is_action_offcooldown id tol
    (manager_ops invoke speed ops ActionManager.init) = Ret false
  /\ ActionManager.is_charge_exhausted id
       (manager_ops invoke speed ops ActionManager.init) = false
  /\ ActionManager.start_cooldown speed id
       (manager_ops invoke speed ops ActionManager.init)
     = manager_ops invoke speed ops ActionManager.init.
Proof.
  intros Hact.
  destruct (manager_ops_keep ops ActionManager.init) as [H0 _]; [reflexivity..|].
  unfold ActionManager.is_action_offcooldown, ActionManager.is_charge_exhausted,
    ActionManager.start_cooldown, ActionManager.get_recast_detail,
    ActionManager.get_recast_group.
  now rewrite Hact, H0.
Qed.

End ManagerInvariants.

Section ManagerCombo.
Context {Cb : Type}.
Implicit Types (am : ActionManager.t Cb).
Variable invoke : Cb -> ActionManager.t Cb -> ActionManager.t Cb.

(** Once the combo action is [NONE] it stays so. *)
Lemma waits_combo_expired (id : ActionID.t) (sizes : list Z) :
  forall am,
    ActionID.eqb id ActionID.NONE = false ->
    ActionManager.is_casting am = false ->
    ActionID.eqb (ActionManager.last_combo_action_id am) ActionID.NONE = true ->
    ActionManager.check_combo_chain id (waits invoke sizes am) = false.
Proof.
  induction sizes as [|d sizes IH]; intros am Hid Hc Hnone; cbn [waits fold_left].
  - unfold ActionManager.check_combo_chain, ActionID.eqb in *.
    apply Z.eqb_eq in Hnone. apply Z.eqb_neq in Hid.
    rewrite (proj2 (Z.eqb_neq _ _)); [reflexivity|congruence].
  - destruct (wait_quiet invoke d am Hc) as (_ & _ & Hc' & Hid' & _).
    apply IH; auto. rewrite Hid'. unfold ActionManager._update_combo_state.
    rewrite Hnone. exact Hnone.
Qed.

Lemma waits_combo (id : ActionID.t) (sizes : list Z) :
  forall (t : Z) am,
    ActionID.eqb id ActionID.NONE = false ->
    ActionManager.is_casting am = false ->
    ActionID.eqb (ActionManager.last_combo_action_id am) id = true ->
    ActionManager.last_combo_time am = t ->
    0 < t ->
    Forall (fun d => 0 <= d) sizes ->
    ActionManager.check_combo_chain id (waits invoke sizes am) = (Zsum sizes <? t).
Proof.
  induction sizes as [|d sizes IH]; intros t am Hid Hc Hsame Ht Hpos Hsizes;
    cbn [waits fold_left Zsum fold_right].
  - unfold ActionManager.check_combo_chain. rewrite Hsame, Ht. reflexivity.
  - inversion Hsizes as [|? ? Hd Hsizes']; subst.
    pose proof (Zsum_nonneg sizes Hsizes') as Hsum.
    destruct (wait_quiet invoke d am Hc) as (_ & _ & Hc' & Hid' & Ht' & _).
    assert (Hlive : ActionID.eqb (ActionManager.last_combo_action_id am) ActionID.NONE
                    = false).
    { unfold ActionID.eqb in *. apply Z.eqb_eq in Hsame. now rewrite Hsame. }
    unfold ActionManager._update_combo_state in Hid', Ht'. rewrite Hlive in Hid', Ht'.
    cbn [negb] in Hid', Ht'.
    destruct (Z.leb_spec (Z.max 0 (ActionManager.last_combo_time am - d)) 0) as [Hout|Hin].
    + change (fold_left (fun am d => wait invoke d am) sizes (wait invoke d am))
        with (waits invoke sizes (wait invoke d am)).
      rewrite waits_combo_expired; auto.
      * symmetry. apply Z.ltb_ge. fold (Zsum sizes). lia.
      * now rewrite Hid'.
    + change (fold_left (fun am d => wait invoke d am) sizes (wait invoke d am))
        with (waits invoke sizes (wait invoke d am)).
      rewrite (IH (ActionManager.last_combo_time am - d)); auto.
      * fold (Zsum sizes).
        destruct (Z.ltb_spec (Zsum sizes) (ActionManager.last_combo_time am - d));
          symmetry; [apply Z.ltb_lt|apply Z.ltb_ge]; lia.
      * now rewrite Hid'.
      * rewrite Ht'. cbn. lia.
      * lia.
Qed.

(** X11. The combo window: after [start_combo(action, combo_time)] with a real
    action and a positive time, on a manager that is not casting, and steps that
    are not negative, [check_combo_chain(action)] answers true exactly as long as
    the steps add up to less than [combo_time]. *)
Theorem combo_window (id : ActionID.t) (combo_time : Z) (sizes : list Z) am :
  ActionID.eqb id ActionID.NONE = false ->
  ActionManager.is_casting am = false ->
  0 < combo_time ->
  Forall (fun d => 0 <= d) sizes ->
  ActionManager.check_combo_chain id
    (waits invoke sizes (ActionManager.start_combo id combo_time am))
  = (Zsum sizes <? combo_time).
Proof.
  intros Hid Hc Ht Hsizes.
  apply waits_combo; auto. apply Z.eqb_refl.
Qed.
End ManagerCombo.

Lemma unregistered_action_never_ready_witness :
  ActionManager.is_action_offcooldown ActionID.HAKAZE (Some 0)
    (manager_ops (@no_effect unit _) no_speed_modifiers
       [OpRegister one_charge_action; OpStartCooldown ActionID.IKISHOTEN; OpWait 1000]
       ActionManager.init) = Ret false
  /\ ActionManager.is_charge_exhausted ActionID.HAKAZE
       (manager_ops (@no_effect unit _) no_speed_modifiers
          [OpRegister one_charge_action; OpStartCooldown ActionID.IKISHOTEN; OpWait 1000]
          ActionManager.init) = false
  /\ ActionManager.start_cooldown no_speed_modifiers ActionID.HAKAZE
       (manager_ops (@no_effect unit _) no_speed_modifiers
          [OpRegister one_charge_action; OpStartCooldown ActionID.IKISHOTEN; OpWait 1000]
          ActionManager.init)
     = manager_ops (@no_effect unit _) no_speed_modifiers
         [OpRegister one_charge_action; OpStartCooldown ActionID.IKISHOTEN; OpWait 1000]
         ActionManager.init.
Proof.
  refine (unregistered_action_never_ready no_effect no_speed_modifiers
            [OpRegister one_charge_action; OpStartCooldown ActionID.IKISHOTEN; OpWait 1000]
            ActionID.HAKAZE (Some 0) _).
  reflexivity.
Defined.

Lemma combo_window_witness :
  ActionManager.check_combo_chain ActionID.HAKAZE
    (waits no_effect [700; 2500; 27000]
       (ActionManager.start_combo ActionID.HAKAZE 30000 one_charge_registered))
  = (Zsum [700; 2500; 27000] <? 30000).
Proof.
  refine (combo_window no_effect ActionID.HAKAZE 30000 [700; 2500; 27000]
            one_charge_registered _ _ _ _).
  - reflexivity.
  - reflexivity.
  - lia.
  - repeat constructor; lia.
Defined.

(** ** [ActionManager]: casts and step sizes *)

Section ManagerCasts.
Context {Cb W : Type}.
Variable get : W -> ActionManager.t Cb.
Variable set : ActionManager.t Cb -> W -> W.
Variable invoke : Cb -> W -> W.
Hypothesis get_set : forall a w, get (set a w) = a.

(** X12. After [cancel_casting()] the manager is not casting and the callback of
    the cast is gone: no later [step], whatever the step sizes, calls it. *)
Theorem cancel_casting_drops_callback (sizes : list Z) (w : W) :
  ActionManager.is_casting
    (get (ActionManager.modify get set ActionManager.cancel_casting w)) = false
  /\ ActionManager.casting_apply_callback
       (get (ActionManager.modify get set ActionManager.cancel_casting w)) = None
  /\ concat (snd (ActionManager.steps get set invoke sizes
                    (ActionManager.modify get set ActionManager.cancel_casting w))) = [].
Proof.
  assert (Hnone : ActionManager.casting_apply_callback
                    (get (ActionManager.modify get set ActionManager.cancel_casting w))
                  = None).
  { unfold ActionManager.modify. now rewrite get_set. }
  split; [unfold ActionManager.modify; now rewrite get_set|].
  split; [exact Hnone|].
  rewrite (steps_disarmed get set invoke get_set sizes _ Hnone).
  apply concat_nothing.
Qed.
End ManagerCasts.

Lemma cancel_casting_drops_callback_witness :
  ActionManager.is_casting
    (own_get (ActionManager.modify own_get own_set ActionManager.cancel_casting casting_1800))
  = false
  /\ ActionManager.casting_apply_callback
       (own_get (ActionManager.modify own_get own_set ActionManager.cancel_casting
                   casting_1800)) = None
  /\ concat (snd (ActionManager.steps own_get own_set ready_to_finish [700; 700; 700]
                    (ActionManager.modify own_get own_set ActionManager.cancel_casting
                       casting_1800))) = [].
Proof.
  refine (cancel_casting_drops_callback own_get own_set ready_to_finish _
            [700; 700; 700] casting_1800).
  intros a w. reflexivity.
Defined.

(** A step size that is [None] or positive. *)
Lemma positive_or_none_fold {Cb : Type} (am : ActionManager.t Cb) (start : option Z) :
  match start with Some z => 0 < z | None => True end ->
  match
    map_fold
      (fun (_ : Z) (recast_detail : RecastDetail.t) (step_size : option Z) =>
         if RecastDetail.is_active recast_detail then
           match step_size with
           | None => Some (RecastDetail.remaining recast_detail)
           | Some s =>
               if RecastDetail.remaining recast_detail <? s
               then Some (RecastDetail.remaining recast_detail) else Some s
           end
         else step_size)
      start (ActionManager.cooldowns am)
  with
  | Some z => 0 < z
  | None => True
  end.
Proof.
  intros Hstart.
  apply (map_fold_weak_ind
           (fun (r : option Z) (_ : gmap Z RecastDetail.t) =>
              match r with Some z => 0 < z | None => True end)).
  - exact Hstart.
  - intros g rd m r _ Hr.
    destruct (RecastDetail.is_active rd) eqn:Hactive; [|exact Hr].
    assert (0 < RecastDetail.remaining rd).
    { unfold RecastDetail.is_active, RecastDetail.remaining in *.
      apply andb_prop in Hactive as [_ Hactive]. apply andb_prop in Hactive as [_ Hlt].
      apply Z.ltb_lt in Hlt. lia. }
    destruct r as [s|]; [destruct (_ <? s)|]; assumption.
Qed.

(** X13. A manager at rest (not casting, the cast clock at 0, the combo timer
    positive while a combo action is set) never asks for a step of 0 ms or less:
    what [calc_step_size()] answers is [None] or positive. *)
Theorem manager_step_size_positive_at_rest {Cb : Type} (am : ActionManager.t Cb) (z : Z) :
  ActionManager.is_casting am = false ->
  ActionManager.casting_time am = 0 ->
  (ActionID.eqb (ActionManager.last_combo_action_id am) ActionID.NONE = false ->
   0 < ActionManager.last_combo_time am) ->
  ActionManager.calc_step_size am = Some z ->
  0 < z.
Proof.
  intros Hc Hct Hcombo Hz.
  unfold ActionManager.calc_step_size in Hz. rewrite Hc, Hct in Hz.
  match type of Hz with
  | map_fold _ ?start _ = _ =>
      pose proof (positive_or_none_fold am start) as Hfold
  end.
  cbv beta in Hfold. rewrite Hz in Hfold. apply Hfold. clear Hfold Hz.
  destruct (Z.ltb_spec 0 (ActionManager.animation_lock am)) as [Hlock|Hlock];
    destruct (ActionID.eqb (ActionManager.last_combo_action_id am) ActionID.NONE) eqn:Hid;
    cbn [negb]; auto.
  - destruct (_ <? _); [specialize (Hcombo eq_refl); lia|assumption].
  - specialize (Hcombo eq_refl). lia.
Qed.

Lemma manager_step_size_positive_at_rest_witness : 0 < 700.
Proof.
  refine (manager_step_size_positive_at_rest in_combo 700 _ _ _ _).
  - reflexivity.
  - reflexivity.
  - intros _. reflexivity.
  - vm_compute. reflexivity.
Defined.

(** ** [StatusEffect] and [StatusManager] *)

Lemma apply_op_stacks (o : StatusOp) (self : StatusEffect.t) :
  match o with OpAddStack n => 0 <= n | _ => True end ->
  0 <= StatusEffect.stacks self <= StatusEffect.max_stacks self ->
  0 <= StatusEffect.stacks (apply_op o self) <= StatusEffect.max_stacks (apply_op o self)
  /\ StatusEffect.max_stacks (apply_op o self) = StatusEffect.max_stacks self.
Proof.
  intros Ho Hs. destruct o as [d|d| | |n]; cbn [apply_op]; try (split; [exact Hs|reflexivity]).
  - unfold StatusEffect.consume_stack.
    destruct (Z.ltb_spec 0 (StatusEffect.stacks self)); cbn; lia.
  - unfold StatusEffect.add_stack.
    destruct (Z.ltb_spec (StatusEffect.stacks self) (StatusEffect.max_stacks self)); cbn; lia.
Qed.

(** X14. The stacks of a status stay between 0 and [max_stacks] over every
    sequence of [step], [extend], [reset_duration], [consume_stack] and
    [add_stack(count)] calls with counts that are not negative; [max_stacks] itself
    never changes. *)
Theorem stacks_stay_in_range (ops : list StatusOp) (self : StatusEffect.t) :
  0 <= StatusEffect.stacks self <= StatusEffect.max_stacks self ->
  adds_not_negative ops ->
  0 <= StatusEffect.stacks (apply_ops ops self)
    <= StatusEffect.max_stacks (apply_ops ops self)
  /\ StatusEffect.max_stacks (apply_ops ops self) = StatusEffect.max_stacks self.
Proof.
  revert self. induction ops as [|o ops IH]; intros self Hs Hops; cbn [apply_ops fold_left].
  - split; [exact Hs|reflexivity].
  - inversion Hops as [|? ? Ho Hops']; subst.
    destruct (apply_op_stacks o self Ho Hs) as [Hs' Hmax].
    destruct (IH (apply_op o self) Hs' Hops') as [Hs'' Hmax'].
    split; [exact Hs''|]. unfold apply_ops in Hmax'. now rewrite Hmax'.
Qed.

Lemma stacks_stay_in_range_witness :
  0 <= StatusEffect.stacks
         (apply_ops [OpAddStack 5; OpStep 1000; OpConsumeStack; OpAddStack 1] stacked_status)
    <= StatusEffect.max_stacks
         (apply_ops [OpAddStack 5; OpStep 1000; OpConsumeStack; OpAddStack 1] stacked_status)
  /\ StatusEffect.max_stacks
       (apply_ops [OpAddStack 5; OpStep 1000; OpConsumeStack; OpAddStack 1] stacked_status)
     = StatusEffect.max_stacks stacked_status.
Proof.
  refine (stacks_stay_in_range [OpAddStack 5; OpStep 1000; OpConsumeStack; OpAddStack 1]
            stacked_status _ _).
  - cbn. lia.
  - repeat constructor; lia.
Defined.

(** X15. A status without stacks whose duration is not negative, stepped through
    steps that are not negative: its duration is what is left of it after the sum
    of the steps, 0 at least; the time elapsed has grown by that sum; and it is
    expired exactly when the steps add up to its duration or more. *)
Theorem status_runs_out (sizes : list Z) (self : StatusEffect.t) :
  0 <= StatusEffect.duration self ->
  Forall (fun d => 0 <= d) sizes ->
  StatusEffect.duration (status_steps sizes self)
  = Z.max 0 (StatusEffect.duration self - Zsum sizes)
  /\ StatusEffect.time_elapsed (status_steps sizes self)
     = StatusEffect.time_elapsed self + Zsum sizes
  /\ (StatusEffect.has_stacks self = false ->
      StatusEffect.is_expired 0 (status_steps sizes self)
      = (StatusEffect.duration self <=? Zsum sizes)).
Proof.
  revert self. induction sizes as [|d sizes IH]; intros self Hdur Hsizes;
    cbn [status_steps fold_left].
  - unfold Zsum, StatusEffect.is_expired. cbn [fold_right].
    split; [lia|]. split; [lia|]. intros ->. now rewrite orb_false_r.
  - inversion Hsizes as [|? ? Hd Hsizes']; subst.
    pose proof (Zsum_nonneg sizes Hsizes') as Hsum.
    destruct (IH (StatusEffect.step d self)) as (Hdur' & Hel' & Hexp'); auto.
    { cbn. lia. }
    unfold status_steps in *. rewrite Hdur', Hel'.
    change (Zsum (d :: sizes)) with (d + Zsum sizes).
    cbn [StatusEffect.step StatusEffect.duration StatusEffect.time_elapsed
         StatusEffect.has_stacks] in *.
    split; [lia|]. split; [lia|]. intros Hst. rewrite (Hexp' Hst).
    destruct (Z.leb_spec (Z.max 0 (StatusEffect.duration self - d)) (Zsum sizes));
      symmetry; [apply Z.leb_le|apply Z.leb_gt]; lia.
Qed.

Lemma status_runs_out_witness :
  StatusEffect.duration (status_steps [700; 2500; 12000] plain_status)
  = Z.max 0 (StatusEffect.duration plain_status - Zsum [700; 2500; 12000])
  /\ StatusEffect.time_elapsed (status_steps [700; 2500; 12000] plain_status)
     = StatusEffect.time_elapsed plain_status + Zsum [700; 2500; 12000]
  /\ (StatusEffect.has_stacks plain_status = false ->
      StatusEffect.is_expired 0 (status_steps [700; 2500; 12000] plain_status)
      = (StatusEffect.duration plain_status <=? Zsum [700; 2500; 12000])).
Proof.
  refine (status_runs_out [700; 2500; 12000] plain_status _ _).
  - cbn. lia.
  - repeat constructor; lia.
Defined.

(** What [StatusManager.step] leaves under a key. *)
Lemma status_manager_step_lookup (d : Z) (sm : StatusManager.t) (k : Z)
    (st' : StatusEffect.t) :
  StatusManager.step d sm !! k = Some st'
  <-> exists st, sm !! k = Some st
                 /\ st' = StatusEffect.step d st
                 /\ StatusEffect.is_expired 0 st' = false.
Proof.
  unfold StatusManager.step, StatusManager.t in *.
  rewrite map_lookup_filter_Some, lookup_fmap_Some. cbn [snd].
  split.
  - intros [(st & <- & Hst) Hexp]. now exists st.
  - intros (st & Hst & -> & Hexp). split; [now exists st|exact Hexp].
Qed.

(** X16. [StatusManager.step(delta_time)]: a status is left under its identifier
    exactly when the status that was there, stepped by [delta_time], is not
    expired, and that stepped status is what is left; so every status of the
    manager is active after a step. *)
Theorem status_manager_step_keeps_the_active (d : Z) (sm : StatusManager.t) :
  (forall k st',
     StatusManager.step d sm !! k = Some st'
     <-> exists st, sm !! k = Some st
                    /\ st' = StatusEffect.step d st
                    /\ StatusEffect.is_expired 0 st' = false)
  /\ (forall k, StatusManager.has_status k 0 (StatusManager.step d sm)
                = bool_decide (is_Some (StatusManager.step d sm !! k))).
Proof.
  split; [intros k st'; apply status_manager_step_lookup|].
  intros k. unfold StatusManager.has_status.
  destruct (StatusManager.step d sm !! k) as [st'|] eqn:Hk.
  - apply status_manager_step_lookup in Hk as (st & _ & _ & ->).
    symmetry. apply bool_decide_eq_true_2. now eexists.
  - symmetry. apply bool_decide_eq_false_2. intros [? ?]. discriminate.
Qed.

(** X17. Right after [StatusManager.step] the manager never asks for a step of
    0 ms: [calc_step_size()] answers [None] or the least, positive, duration of its
    statuses. *)
Theorem status_manager_step_size_positive (d : Z) (sm : StatusManager.t) (z : Z) :
  StatusManager.calc_step_size (StatusManager.step d sm) = Some z ->
  0 < z
  /\ exists k st, StatusManager.step d sm !! k = Some st /\ StatusEffect.duration st = z.
Proof.
  unfold StatusManager.calc_step_size.
  set (live := fun m : StatusManager.t =>
                 map_Forall (fun (_ : Z) st => StatusEffect.is_expired 0 st = false) m).
  assert (Hlive : live (StatusManager.step d sm)).
  { intros k st Hk. now apply status_manager_step_lookup in Hk as (? & _ & _ & ?). }
  revert z Hlive. generalize (StatusManager.step d sm). intros m.
  apply (map_fold_weak_ind
           (fun (r : option Z) (m : StatusManager.t) =>
              forall z, live m -> r = Some z ->
                0 < z /\ exists k st, m !! k = Some st /\ StatusEffect.duration st = z)).
  - intros z _ [=].
  - intros k st m0 r Hk IH z Hall Hz.
    apply map_Forall_insert in Hall as [Hst Hall]; [|exact Hk].
    rewrite Hst in Hz.
    assert (Hpos : 0 < StatusEffect.duration st).
    { unfold StatusEffect.is_expired in Hst. apply orb_false_elim in Hst as [Hst _].
      apply Z.leb_gt in Hst. exact Hst. }
    assert (Hnew : exists k' st', <[k := st]> m0 !! k' = Some st'
                                  /\ StatusEffect.duration st' = StatusEffect.duration st).
    { exists k, st. now rewrite lookup_insert_eq. }
    assert (Hold : forall y, r = Some y ->
                     0 < y /\ exists k' st', <[k := st]> m0 !! k' = Some st'
                                             /\ StatusEffect.duration st' = y).
    { intros y Hy. destruct (IH y Hall Hy) as (Hy0 & k' & st' & Hk' & Hd').
      split; [exact Hy0|]. exists k', st'. split; [|exact Hd'].
      rewrite lookup_insert_ne; [exact Hk'|].
      intros <-. unfold StatusManager.t in *. rewrite Hk in Hk'. discriminate. }
    destruct r as [s|].
    + destruct (StatusEffect.duration st <? s); inversion Hz; subst; auto.
    + inversion Hz; subst; auto.
Qed.

Lemma status_manager_step_size_positive_witness :
  0 < 5000
  /\ exists k st, StatusManager.step 1000 two_statuses !! k = Some st
                  /\ StatusEffect.duration st = 5000.
Proof.
  refine (status_manager_step_size_positive 1000 two_statuses 5000 _).
  vm_compute. reflexivity.
Defined.

Section AddStatus.
Variable calc : Ref -> ActionID.t -> Q -> DamageType.t -> PyResult DamageResult.t.

Lemma refresh_carries (other self d : StatusEffect.t) :
  StatusEffect.refresh calc other self = Ret d ->
  StatusEffect.duration d = StatusEffect.duration other
  /\ StatusEffect.initial_duration d = StatusEffect.initial_duration other
  /\ StatusEffect.source d = StatusEffect.source other
  /\ StatusEffect.status_id d = StatusEffect.status_id self
  /\ StatusEffect.time_elapsed d = StatusEffect.time_elapsed self.
Proof.
  unfold StatusEffect.refresh, StatusEffect.take_snapshot.
  destruct (StatusEffect.class self) eqn:Hclass; cbn [StatusEffect.refresh_base
    StatusEffect.class StatusEffect.source StatusEffect.action_id].
  1,3: intros [= <-]; repeat split.
  rewrite Hclass. destruct (StatusEffect.source other) as [src|] eqn:Hsrc.
  - destruct (calc src _ _ _) as [dmg|e]; cbn [py_bind]; [|discriminate].
    intros [= <-]. repeat split. exact Hsrc.
  - intros [= <-]. repeat split. exact Hsrc.
Qed.

(** X18. [add_status(status)], when it returns: under the identifier of the status
    the manager holds a status with the duration, the initial duration and the
    source of the new one (the new one itself when there was none, the old one
    refreshed otherwise, its time elapsed kept); the other statuses are as
    before. *)
Theorem add_status_lookup (status : StatusEffect.t) (sm sm' : StatusManager.t) :
  StatusManager.add_status calc status sm = Ret sm' ->
  (exists st,
     sm' !! StatusEffect.status_id status = Some st
     /\ StatusEffect.duration st = StatusEffect.duration status
     /\ StatusEffect.initial_duration st = StatusEffect.initial_duration status
     /\ StatusEffect.source st = StatusEffect.source status
     /\ match sm !! StatusEffect.status_id status with
        | None => st = status
        | Some old => StatusEffect.time_elapsed st = StatusEffect.time_elapsed old
        end)
  /\ (forall k, k <> StatusEffect.status_id status -> sm' !! k = sm !! k).
Proof.
  unfold StatusManager.add_status, StatusManager.t in *.
  destruct (sm !! StatusEffect.status_id status) as [old|] eqn:Hold.
  - destruct (StatusEffect.refresh calc status old) as [d|e] eqn:Hd; cbn [py_bind];
      [|discriminate].
    intros [= <-]. destruct (refresh_carries status old d Hd) as (H1 & H2 & H3 & _ & H5).
    split.
    + exists d. rewrite lookup_insert_eq. auto.
    + intros k Hk. now rewrite lookup_insert_ne by congruence.
  - intros [= <-]. split.
    + exists status. rewrite lookup_insert_eq. auto.
    + intros k Hk. now rewrite lookup_insert_ne by congruence.
Qed.
End AddStatus.

Lemma add_status_lookup_witness :
  (exists st,
     <[1002 := StatusEffect.refresh_base plain_status plain_status]> two_statuses
       !! StatusEffect.status_id plain_status = Some st
     /\ StatusEffect.duration st = StatusEffect.duration plain_status
     /\ StatusEffect.initial_duration st = StatusEffect.initial_duration plain_status
     /\ StatusEffect.source st = StatusEffect.source plain_status
     /\ match two_statuses !! StatusEffect.status_id plain_status with
        | None => st = plain_status
        | Some old => StatusEffect.time_elapsed st = StatusEffect.time_elapsed old
        end)
  /\ (forall k, k <> StatusEffect.status_id plain_status ->
        <[1002 := StatusEffect.refresh_base plain_status plain_status]> two_statuses !! k
        = two_statuses !! k).
Proof.
  refine (add_status_lookup never_raises plain_status two_statuses
            (<[1002 := StatusEffect.refresh_base plain_status plain_status]> two_statuses) _).
  vm_compute. reflexivity.
Defined.

(** ** [SamuraiGauge] *)

Lemma small_flag (a : Z) :
  0 <= a <= 7 -> a = 0 \/ a = 1 \/ a = 2 \/ a = 3 \/ a = 4 \/ a = 5 \/ a = 6 \/ a = 7.
Proof. lia. Qed.

Lemma sen_or_small (a b : Sen.t) : 0 <= a <= 7 -> 0 <= b <= 7 -> 0 <= Sen.or a b <= 7.
Proof. intros Ha Hb. eight_cases small_flag Ha; eight_cases small_flag Hb; vm_compute; split; discriminate. Qed.

Lemma sen_and_invert_small (a b : Sen.t) :
  0 <= a <= 7 -> 0 <= b <= 7 -> 0 <= Sen.and a (Sen.invert b) <= 7.
Proof. intros Ha Hb. eight_cases small_flag Ha; eight_cases small_flag Hb; vm_compute; split; discriminate. Qed.

Lemma gauge_op_in_range (o : GaugeOp) (g : SamuraiGauge.t) :
  gauge_op_sound o ->
  0 <= SamuraiGauge.kenki g ->
  0 <= SamuraiGauge.meditation_stacks g <= 3 ->
  0 <= SamuraiGauge.sen g <= 7 ->
  0 <= SamuraiGauge.kenki (gauge_op o g)
  /\ 0 <= SamuraiGauge.meditation_stacks (gauge_op o g) <= 3
  /\ 0 <= SamuraiGauge.sen (gauge_op o g) <= 7
  /\ (gauge_op_capped o -> SamuraiGauge.kenki g <= 100 ->
      SamuraiGauge.kenki (gauge_op o g) <= 100).
Proof.
  intros Ho Hk Hm Hs.
  destruct o as [|d|a ov|a|f|f| |n| |id dur| |dur|];
    cbn [gauge_op gauge_op_sound gauge_op_capped] in *.
  - cbn. unfold Sen.NONE. lia.
  - unfold SamuraiGauge.step.
    repeat match goal with
           | |- context [if ?b then _ else _] => destruct b
           end; cbn; lia.
  - destruct ov; cbn; repeat split; try lia; intros [=].
  - unfold SamuraiGauge.spend_kenki.
    destruct (Z.leb_spec a (SamuraiGauge.kenki g)); cbn; lia.
  - cbn [SamuraiGauge.add_sen SamuraiGauge.set_sen SamuraiGauge.kenki
         SamuraiGauge.meditation_stacks SamuraiGauge.sen].
    split; [exact Hk|]. split; [exact Hm|]. split; [now apply sen_or_small|auto].
  - cbn [SamuraiGauge.remove_sen SamuraiGauge.set_sen SamuraiGauge.kenki
         SamuraiGauge.meditation_stacks SamuraiGauge.sen].
    split; [exact Hk|]. split; [exact Hm|]. split; [now apply sen_and_invert_small|auto].
  - cbn. unfold Sen.NONE. lia.
  - cbn. lia.
  - unfold SamuraiGauge.use_meditation.
    destruct (Z.leb_spec 3 (SamuraiGauge.meditation_stacks g)); cbn; lia.
  - cbn. lia.
  - cbn. lia.
  - cbn. lia.
  - cbn. lia.
Qed.

Lemma gauge_ops_in_range (ops : list GaugeOp) :
  forall g,
    Forall gauge_op_sound ops ->
    0 <= SamuraiGauge.kenki g ->
    0 <= SamuraiGauge.meditation_stacks g <= 3 ->
    0 <= SamuraiGauge.sen g <= 7 ->
    0 <= SamuraiGauge.kenki (gauge_ops ops g)
    /\ 0 <= SamuraiGauge.meditation_stacks (gauge_ops ops g) <= 3
    /\ 0 <= SamuraiGauge.sen (gauge_ops ops g) <= 7
    /\ (Forall gauge_op_capped ops -> SamuraiGauge.kenki g <= 100 ->
        SamuraiGauge.kenki (gauge_ops ops g) <= 100).
Proof.
  induction ops as [|o ops IH]; intros g Hops Hk Hm Hs; cbn [gauge_ops fold_left].
  - auto.
  - inversion Hops as [|? ? Ho Hops']; subst.
    destruct (gauge_op_in_range o g Ho Hk Hm Hs) as (Hk' & Hm' & Hs' & Hcap).
    destruct (IH (gauge_op o g) Hops' Hk' Hm' Hs') as (Hk2 & Hm2 & Hs2 & Hcap2).
    split; [exact Hk2|]. split; [exact Hm2|]. split; [exact Hs2|].
    intros Hc H100. inversion Hc as [|? ? Hco Hcops]; subst.
    apply Hcap2; [exact Hcops|]. now apply Hcap.
Qed.

(** X19. A gauge, from its initial state on, over every sequence of the calls that
    assign to it, with amounts and stacks that are not negative: Kenki never
    goes below 0, the meditation stacks stay between 0 and 3, and the Sen within
    the three flags.  Kenki stays at 100 or below when it is only ever added with
    [allow_overflow=False]; with [allow_overflow=True], which is the default,
    [add_kenki] adds the whole amount, so that Kenki is not capped. *)
Theorem gauge_resources_in_range (ops : list GaugeOp) :
  Forall gauge_op_sound ops ->
  0 <= SamuraiGauge.kenki (gauge_ops ops SamuraiGauge.init)
  /\ 0 <= SamuraiGauge.meditation_stacks (gauge_ops ops SamuraiGauge.init) <= 3
  /\ 0 <= SamuraiGauge.sen (gauge_ops ops SamuraiGauge.init) <= 7
  /\ (Forall gauge_op_capped ops ->
      SamuraiGauge.kenki (gauge_ops ops SamuraiGauge.init) <= 100)
  /\ (forall amount,
        SamuraiGauge.kenki (gauge_ops (ops ++ [GAddKenki amount true]) SamuraiGauge.init)
        = SamuraiGauge.kenki (gauge_ops ops SamuraiGauge.init) + amount).
Proof.
  intros Hops.
  destruct (gauge_ops_in_range ops SamuraiGauge.init Hops) as (Hk & Hm & Hs & Hcap);
    try (cbn; unfold Sen.NONE; lia).
  split; [exact Hk|]. split; [exact Hm|]. split; [exact Hs|]. split.
  - intros Hc. apply Hcap; [exact Hc|]. cbn. lia.
  - intros amount. unfold gauge_ops. rewrite fold_left_app. reflexivity.
Qed.

(** Kenki added twice by 60 as the job adds it stands at 120, and at 95 after 25
    are spent. *)
Lemma gauge_resources_in_range_witness :
  0 <= SamuraiGauge.kenki
         (gauge_ops [GAddKenki 60 true; GAddKenki 60 true; GSpendKenki 25;
                     GAddMeditation 2; GAddMeditation 2; GUseMeditation; GAddSen Sen.KA;
                     GSetKaeshiNamikiriReady 30000; GReset; GAddKenki 60 true]
                    SamuraiGauge.init)
  /\ SamuraiGauge.kenki
       (gauge_ops ([GAddKenki 60 true] ++ [GAddKenki 60 true]) SamuraiGauge.init)
     = SamuraiGauge.kenki (gauge_ops [GAddKenki 60 true] SamuraiGauge.init) + 60.
Proof.
  split.
  - refine (proj1 (gauge_resources_in_range
                     [GAddKenki 60 true; GAddKenki 60 true; GSpendKenki 25;
                      GAddMeditation 2; GAddMeditation 2; GUseMeditation; GAddSen Sen.KA;
                      GSetKaeshiNamikiriReady 30000; GReset; GAddKenki 60 true] _)).
    repeat (constructor;
            [cbn; first [exact I | lia | vm_compute; split; discriminate]|]).
    constructor.
  - refine (proj2 (proj2 (proj2 (proj2 (gauge_resources_in_range [GAddKenki 60 true] _)))) 60).
    repeat constructor. cbn. lia.
Defined.

(** X20. The Sen of a gauge: after [add_sen(f)] the gauge has [f], after
    [remove_sen(f)] it has not, and neither touches the other two Sen;
    [count_sen()] goes up by one exactly when a Sen is added that was not there,
    down by one exactly when one is removed that was there, and is 0 after
    [clear_sen()]. *)
Theorem sen_flags (f : Sen.t) (g : SamuraiGauge.t) :
  0 <= SamuraiGauge.sen g <= 7 ->
  single_sen f ->
  SamuraiGauge.has_sen f (SamuraiGauge.add_sen f g) = true
  /\ SamuraiGauge.has_sen f (SamuraiGauge.remove_sen f g) = false
  /\ (forall f', single_sen f' -> f' <> f ->
        SamuraiGauge.has_sen f' (SamuraiGauge.add_sen f g) = SamuraiGauge.has_sen f' g
        /\ SamuraiGauge.has_sen f' (SamuraiGauge.remove_sen f g)
           = SamuraiGauge.has_sen f' g)
  /\ SamuraiGauge.count_sen (SamuraiGauge.add_sen f g)
     = SamuraiGauge.count_sen g + (if SamuraiGauge.has_sen f g then 0 else 1)
  /\ SamuraiGauge.count_sen (SamuraiGauge.remove_sen f g)
     = SamuraiGauge.count_sen g - (if SamuraiGauge.has_sen f g then 1 else 0)
  /\ SamuraiGauge.count_sen (SamuraiGauge.clear_sen g) = 0.
Proof.
  intros Hs Hf. destruct g as [k s ms mt kr kt ta tt].
  cbn [SamuraiGauge.sen] in Hs.
  unfold SamuraiGauge.count_sen, SamuraiGauge.has_sen, SamuraiGauge.add_sen,
    SamuraiGauge.remove_sen, SamuraiGauge.clear_sen, SamuraiGauge.set_sen.
  cbn [SamuraiGauge.sen].
  eight_cases small_flag Hs; destruct Hf as [->|[->| ->]];
    (split; [reflexivity|]); (split; [reflexivity|]);
    (split; [|repeat split; reflexivity]);
    intros f' [->|[->| ->]] Hne; try congruence; split; reflexivity.
Qed.

Lemma sen_flags_witness :
  SamuraiGauge.has_sen Sen.GETSU (SamuraiGauge.add_sen Sen.GETSU two_sen_gauge) = true
  /\ SamuraiGauge.has_sen Sen.GETSU (SamuraiGauge.remove_sen Sen.GETSU two_sen_gauge) = false
  /\ (forall f', single_sen f' -> f' <> Sen.GETSU ->
        SamuraiGauge.has_sen f' (SamuraiGauge.add_sen Sen.GETSU two_sen_gauge)
        = SamuraiGauge.has_sen f' two_sen_gauge
        /\ SamuraiGauge.has_sen f' (SamuraiGauge.remove_sen Sen.GETSU two_sen_gauge)
           = SamuraiGauge.has_sen f' two_sen_gauge)
  /\ SamuraiGauge.count_sen (SamuraiGauge.add_sen Sen.GETSU two_sen_gauge)
     = SamuraiGauge.count_sen two_sen_gauge
       + (if SamuraiGauge.has_sen Sen.GETSU two_sen_gauge then 0 else 1)
  /\ SamuraiGauge.count_sen (SamuraiGauge.remove_sen Sen.GETSU two_sen_gauge)
     = SamuraiGauge.count_sen two_sen_gauge
       - (if SamuraiGauge.has_sen Sen.GETSU two_sen_gauge then 1 else 0)
  /\ SamuraiGauge.count_sen (SamuraiGauge.clear_sen two_sen_gauge) = 0.
Proof.
  refine (sen_flags Sen.GETSU two_sen_gauge _ _).
  - cbn. lia.
  - right. left. reflexivity.
Defined.

(** X21. What [calc_step_size()] of the gauge answers is positive: the smaller of
    the two timers that are running, and [None] exactly when neither the
    meditation timer nor the Kaeshi timer is positive. *)
Theorem gauge_step_size_positive (g : SamuraiGauge.t) :
  match SamuraiGauge.calc_step_size g with
  | Some z =>
      0 < z
      /\ (z = SamuraiGauge.meditation_timer g \/ z = SamuraiGauge.tsubamegaeshi_timer g)
      /\ (0 < SamuraiGauge.meditation_timer g -> z <= SamuraiGauge.meditation_timer g)
      /\ (0 < SamuraiGauge.tsubamegaeshi_timer g -> z <= SamuraiGauge.tsubamegaeshi_timer g)
  | None =>
      SamuraiGauge.meditation_timer g <= 0 /\ SamuraiGauge.tsubamegaeshi_timer g <= 0
  end.
Proof.
  unfold SamuraiGauge.calc_step_size.
  destruct (Z.ltb_spec 0 (SamuraiGauge.meditation_timer g));
    destruct (Z.ltb_spec 0 (SamuraiGauge.tsubamegaeshi_timer g));
    try destruct (Z.ltb_spec (SamuraiGauge.tsubamegaeshi_timer g)
                    (SamuraiGauge.meditation_timer g));
    repeat split; auto; lia.
Qed.

Section Tsubamegaeshi.
Variable id : ActionID.t.
Hypothesis id_real : ActionID.eqb id ActionID.NONE = false.

Lemma gauge_steps_expired (tol : Z) (sizes : list Z) :
  forall g,
    ActionID.eqb (SamuraiGauge.tsubamegaeshi_action g) ActionID.NONE = true ->
    SamuraiGauge.tsubamegaeshi_timer g <= 0 ->
    SamuraiGauge.check_tsubamegaeshi id tol (gauge_steps sizes g) = false.
Proof.
  assert (Hother : forall a, ActionID.eqb a ActionID.NONE = true -> ActionID.eqb a id = false).
  { intros a Ha. unfold ActionID.eqb in *. apply Z.eqb_eq in Ha. apply Z.eqb_neq in id_real.
    apply Z.eqb_neq. congruence. }
  induction sizes as [|d sizes IH]; intros g Hnone Ht; cbn [gauge_steps fold_left].
  - unfold SamuraiGauge.check_tsubamegaeshi. now rewrite (Hother _ Hnone).
  - apply IH; unfold SamuraiGauge.step;
      repeat match goal with
             | |- context [if ?b then _ else _] => destruct b eqn:?
             end; cbn in *; auto; try reflexivity; try lia.
Qed.

Lemma gauge_steps_running (tol : Z) (sizes : list Z) :
  forall (t : Z) g,
    ActionID.eqb (SamuraiGauge.tsubamegaeshi_action g) id = true ->
    SamuraiGauge.tsubamegaeshi_timer g = t ->
    0 < t -> 0 <= tol ->
    Forall (fun d => 0 <= d) sizes ->
    SamuraiGauge.check_tsubamegaeshi id tol (gauge_steps sizes g) = (Zsum sizes + tol <? t).
Proof.
  induction sizes as [|d sizes IH]; intros t g Hid Ht Hpos Htol Hsizes;
    cbn [gauge_steps fold_left].
  - unfold SamuraiGauge.check_tsubamegaeshi. rewrite Hid, Ht. reflexivity.
  - inversion Hsizes as [|? ? Hd Hsizes']; subst.
    pose proof (Zsum_nonneg sizes Hsizes') as Hsum.
    change (Zsum (d :: sizes)) with (d + Zsum sizes).
    change (fold_left (fun g d => SamuraiGauge.step d g) sizes (SamuraiGauge.step d g))
      with (gauge_steps sizes (SamuraiGauge.step d g)).
    destruct (Z.le_gt_cases (SamuraiGauge.tsubamegaeshi_timer g) d) as [Hout|Hin].
    + rewrite gauge_steps_expired.
      * symmetry. apply Z.ltb_ge. lia.
      * unfold SamuraiGauge.step.
        repeat match goal with
               | |- context [if ?b then _ else _] => destruct b eqn:?
               end; cbn in *; try reflexivity; lia.
      * unfold SamuraiGauge.step.
        repeat match goal with
               | |- context [if ?b then _ else _] => destruct b eqn:?
               end; cbn in *; lia.
    + rewrite (IH (SamuraiGauge.tsubamegaeshi_timer g - d)); auto.
      * destruct (Z.ltb_spec (Zsum sizes + tol) (SamuraiGauge.tsubamegaeshi_timer g - d));
          symmetry; [apply Z.ltb_lt|apply Z.ltb_ge]; lia.
      * unfold SamuraiGauge.step.
        repeat match goal with
               | |- context [if ?b then _ else _] => destruct b eqn:?
               end; cbn in *; auto; lia.
      * unfold SamuraiGauge.step.
        repeat match goal with
               | |- context [if ?b then _ else _] => destruct b eqn:?
               end; cbn in *; lia.
      * lia.
Qed.

(** X22. The window of a Kaeshi action: after [set_tsubamegaeshi(action, duration)]
    with a real action and a positive duration, and steps that are not negative,
    [check_tsubamegaeshi(action, tolerance)] answers true exactly as long as the
    steps and the tolerance add up to less than the duration. *)
Theorem tsubamegaeshi_window (duration tol : Z) (sizes : list Z) (g : SamuraiGauge.t) :
  0 < duration ->
  0 <= tol ->
  Forall (fun d => 0 <= d) sizes ->
  SamuraiGauge.check_tsubamegaeshi id tol
    (gauge_steps sizes (SamuraiGauge.set_tsubamegaeshi id duration g))
  = (Zsum sizes + tol <? duration).
Proof.
  intros Hdur Htol Hsizes. apply gauge_steps_running; auto. apply Z.eqb_refl.
Qed.
End Tsubamegaeshi.

Lemma tsubamegaeshi_window_witness :
  SamuraiGauge.check_tsubamegaeshi ActionID.MIDARE_SETSUGEKKA 500
    (gauge_steps [2500; 2500; 24000]
       (SamuraiGauge.set_tsubamegaeshi ActionID.MIDARE_SETSUGEKKA 30000 two_sen_gauge))
  = (Zsum [2500; 2500; 24000] + 500 <? 30000).
Proof.
  refine (tsubamegaeshi_window ActionID.MIDARE_SETSUGEKKA _ 30000 500 [2500; 2500; 24000]
            two_sen_gauge _ _ _).
  - reflexivity.
  - lia.
  - lia.
  - repeat constructor; lia.
Defined.

(** ** [GameVersion] *)

(** X23. [GameVersion]: turning an integer into a version and back gives the
    integer, always; turning a version into an integer and back gives the version
    exactly when its minor number is between 0 and 99. *)
Theorem game_version_int_round_trip :
  (forall n : Z, GameVersion.to_int (GameVersion.from_int n) = n)
  /\ (forall v : GameVersion.t,
        GameVersion.from_int (GameVersion.to_int v) = v
        <-> 0 <= GameVersion.minor v < 100).
Proof.
  split.
  - intros n. unfold GameVersion.to_int, GameVersion.from_int. cbn. lia.
  - intros [M m]. unfold GameVersion.to_int, GameVersion.from_int. cbn. split.
    + intros [= HM Hm]. lia.
    + intros Hm. f_equal; lia.
Qed.

(** X24. For versions whose minor numbers are between 0 and 99 the comparisons
    are those of the integer forms. *)
Theorem game_version_order (a b : GameVersion.t) :
  0 <= GameVersion.minor a < 100 ->
  0 <= GameVersion.minor b < 100 ->
  GameVersion.lt a b = (GameVersion.to_int a <? GameVersion.to_int b)
  /\ GameVersion.le a b = (GameVersion.to_int a <=? GameVersion.to_int b)
  /\ GameVersion.eq a b = (GameVersion.to_int a =? GameVersion.to_int b)
  /\ GameVersion.gt a b = (GameVersion.to_int b <? GameVersion.to_int a)
  /\ GameVersion.ge a b = (GameVersion.to_int b <=? GameVersion.to_int a).
Proof.
  destruct a as [M m], b as [N n].
  unfold GameVersion.lt, GameVersion.le, GameVersion.eq, GameVersion.gt, GameVersion.ge,
    GameVersion.to_int.
  cbn [GameVersion.major GameVersion.minor]. intros Hm Hn.
  destruct (Z.eqb_spec M N) as [->|Hne]; cbn [negb andb]; repeat split; lia.
Qed.

Lemma game_version_order_witness :
  GameVersion.lt (GameVersion.mk 7 5) (GameVersion.mk 7 20)
  = (GameVersion.to_int (GameVersion.mk 7 5) <? GameVersion.to_int (GameVersion.mk 7 20))
  /\ GameVersion.le (GameVersion.mk 7 5) (GameVersion.mk 7 20)
     = (GameVersion.to_int (GameVersion.mk 7 5) <=? GameVersion.to_int (GameVersion.mk 7 20))
  /\ GameVersion.eq (GameVersion.mk 7 5) (GameVersion.mk 7 20)
     = (GameVersion.to_int (GameVersion.mk 7 5) =? GameVersion.to_int (GameVersion.mk 7 20))
  /\ GameVersion.gt (GameVersion.mk 7 5) (GameVersion.mk 7 20)
     = (GameVersion.to_int (GameVersion.mk 7 20) <? GameVersion.to_int (GameVersion.mk 7 5))
  /\ GameVersion.ge (GameVersion.mk 7 5) (GameVersion.mk 7 20)
     = (GameVersion.to_int (GameVersion.mk 7 20) <=? GameVersion.to_int (GameVersion.mk 7 5)).
Proof.
  refine (game_version_order (GameVersion.mk 7 5) (GameVersion.mk 7 20) _ _); cbn; lia.
Defined.

(** X25. The comparisons of [GameVersion] are those of one total order: of
    [a < b], [a == b] and [a > b] exactly one holds, [<=] and [>=] are the
    negations of [>] and [<], [a > b] is [b < a], and [<] is transitive. *)
Theorem game_version_total_order (a b c : GameVersion.t) :
  (GameVersion.lt a b = true /\ GameVersion.eq a b = false /\ GameVersion.gt a b = false
   \/ GameVersion.lt a b = false /\ GameVersion.eq a b = true /\ GameVersion.gt a b = false
   \/ GameVersion.lt a b = false /\ GameVersion.eq a b = false /\ GameVersion.gt a b = true)
  /\ GameVersion.le a b = negb (GameVersion.gt a b)
  /\ GameVersion.ge a b = negb (GameVersion.lt a b)
  /\ GameVersion.gt a b = GameVersion.lt b a
  /\ (GameVersion.eq a b = true <-> a = b)
  /\ (GameVersion.lt a b = true -> GameVersion.lt b c = true -> GameVersion.lt a c = true).
Proof.
  destruct a as [M m], b as [N n], c as [O o].
  unfold GameVersion.lt, GameVersion.le, GameVersion.eq, GameVersion.gt, GameVersion.ge.
  cbn [GameVersion.major GameVersion.minor].
  repeat split.
  all: repeat (match goal with
               | |- context [Z.eqb ?x ?y] => destruct (Z.eqb_spec x y)
               | |- context [Z.ltb ?x ?y] => destruct (Z.ltb_spec x y)
               | |- context [Z.leb ?x ?y] => destruct (Z.leb_spec x y)
               end; cbn [negb andb]).
  all: try (exfalso; lia).
  all: try reflexivity.
  all: try (intros; first [discriminate | f_equal; lia | congruence]).
  all: try (left; repeat split; reflexivity).
  all: try (right; left; repeat split; reflexivity).
  all: try (right; right; repeat split; reflexivity).
Qed.

(** ** [Rotation]: when saving and loading gives the rotation back *)

Section RotationExact.
Context {Cond : Type}.

Lemma from_dict_fold (l : list (RotationAction.t Cond)) (acc : Rotation.t Cond) :
  fold_left (fun r e => Rotation.add_entry e r) (map entry_of l) acc
  = Rotation.mk (Rotation.name acc) (Rotation.actions acc ++ map reloaded l)
      (Rotation.owner acc) (Rotation.current_index acc) (Rotation.enabled acc)
      (Rotation.last_cast_time acc) (Rotation.gcd_used acc).
Proof.
  revert acc. induction l as [|a l IH]; intros acc; cbn [map fold_left].
  - rewrite app_nil_r. now destruct acc.
  - rewrite add_entry_of, IH. unfold Rotation.add_action.
    cbn [Rotation.name Rotation.actions Rotation.owner Rotation.current_index
         Rotation.enabled Rotation.last_cast_time Rotation.gcd_used].
    now rewrite <- app_assoc.
Qed.

Lemma reloaded_fixed (a : RotationAction.t Cond) :
  reloaded a = a <-> plain_entry a.
Proof.
  unfold reloaded, plain_entry. destruct a as [i t c tt ti]; cbn. split.
  - intros E. injection E as <- <- <-. auto.
  - intros (-> & -> & ->). reflexivity.
Qed.

Lemma map_reloaded_fixed (l : list (RotationAction.t Cond)) :
  map reloaded l = l <-> Forall plain_entry l.
Proof.
  induction l as [|a l IH]; cbn [map].
  - split; [constructor | reflexivity].
  - split.
    + intros E. injection E as Ea El. constructor; [now apply reloaded_fixed | now apply IH].
    + intros HF. apply Forall_cons_1 in HF as [Ha Hl].
      f_equal; [now apply reloaded_fixed | now apply IH].
Qed.

(** X28. [from_dict(r.to_dict())] gives a rotation with the very fields of [r]
    exactly when [r] is as [__init__] and [add_action(action_id, time)] leave a
    rotation: no owner, index 0, not enabled, nothing cast yet, and every entry
    without a condition and with the default target.  Everything else is lost on
    the way through the dictionary. *)
Theorem rotation_round_trip_exact (r : Rotation.t Cond) :
  Rotation.from_dict (Rotation.to_dict r) = Ret r <-> plain_rotation r.
Proof.
  destruct r as [n l o i e lc g].
  cbn [Rotation.to_dict Rotation.from_dict RotationDict.name RotationDict.actions
       Rotation.name Rotation.actions].
  change (map _ l) with (map entry_of l).
  rewrite from_dict_fold. unfold plain_rotation, Rotation.init.
  cbn [Rotation.name Rotation.actions Rotation.owner Rotation.current_index
       Rotation.enabled Rotation.last_cast_time Rotation.gcd_used app].
  split.
  - intros E. injection E as El <- <- <- <- <-.
    repeat split. now apply map_reloaded_fixed.
  - intros (-> & -> & -> & -> & -> & Hl).
    apply map_reloaded_fixed in Hl. now rewrite Hl.
Qed.
End RotationExact.
